(** * easyReview backend: ingestion, emptiness pruning, open fields, field count

    A shallow embedding of the request handlers of the easyReview backend
    ([backend/api/handlers/fetch.py], [openfields.py], [review.py]) over
    the relational model of [backend/reviews/models.py] and the nested
    serializers of [backend/api/handlers/serializers.py].

    Python objects are embedded as a small dynamically typed universe
    ([value]); exceptions as the error side of [result]; database writes
    as explicit state passing over a [World] that survives an exception
    (every [save()] is committed on its own, there is no transaction). *)

From stdpp Require Import base option list strings pretty gmap.
From Stdlib Require Import ZArith Ascii String.

Open Scope string_scope.

(** ** Python values and exceptions *)

Inductive exn :=
| TypeError
| KeyError
| ValueError
| AttributeError
| DoesNotExist
| MultipleObjectsReturned
| HTTPError
| RemoteError
| ValidationError
| PydanticValidationError.

Inductive result (A : Type) :=
| Ok (a : A)
| Raise (e : exn).
Arguments Ok {A} a.
Arguments Raise {A} e.

#[global] Instance result_ret : MRet result := fun _ a => Ok a.
#[global] Instance result_bind : MBind result := fun _ _ f m =>
  match m with
  | Ok a => f a
  | Raise e => Raise e
  end.
#[global] Instance result_fmap : FMap result := fun _ _ f m =>
  match m with
  | Ok a => Ok (f a)
  | Raise e => Raise e
  end.

(** The pydantic [FieldInfo] of a metadata field: its description and the
    two entries of [json_schema_extra] the handlers read.  [multiple] is
    read with [.get("multiple", False)], so it may be absent. *)
Record FieldInfo := {
  description : string;
  typeClass : string;
  multiple : option bool;
}.

(** What the Dataverse client hands over: [None], a string, a list, or a
    [DataverseBase] object, which iterates as its (name, value) pairs in
    declaration order and carries the [model_fields] dictionary. *)
#[warnings="-register-all"]
Inductive value :=
| VNone
| VStr (s : string)
| VList (l : list value)
| VObj (items : list (string * value)) (model_fields : gmap string FieldInfo).

Definition is_None (v : value) : bool :=
  match v with VNone => true | _ => false end.

(** [value == []] *)
Definition eq_empty_list (v : value) : bool :=
  match v with VList [] => true | _ => false end.

(** [isinstance(value, list)] *)
Definition is_list (v : value) : bool :=
  match v with VList _ => true | _ => false end.

(** [name.startswith("_")] *)
Definition startswith_underscore (name : string) : bool :=
  match name with
  | String "_"%char _ => true
  | _ => false
  end.

Definition is_compound (info : FieldInfo) : bool :=
  String.eqb (typeClass info) "compound".

Definition is_multiple (info : FieldInfo) : bool :=
  default false (multiple info).

(** ** fetch.py: [_is_empty] *)

(** [all([_is_empty(entry) for entry in l])]: the comprehension evaluates
    every entry before [all] looks at the list, so an exception raised by
    a later entry is not hidden by an earlier [False]. *)
Definition all_is_empty (rec : value -> result bool)
  : list value -> result bool :=
  fix go l :=
    match l with
    | [] => Ok true
    | entry :: l' =>
        b ← rec entry;
        bs ← go l';
        Ok (b && bs)
    end.

(** The four-way branch of the loop body.  Where the branch iterates over
    [value], a list gives its elements, a string its characters, an
    object its (name, value) tuples, and [None] raises [TypeError];
    characters and tuples have no [model_fields] and are never [None]. *)
Definition field_is_empty (rec : value -> result bool)
    (info : FieldInfo) (v : value) : result bool :=
  if is_compound info && is_multiple info then
    match v with
    | VList l => all_is_empty rec l
    | VStr _ => Ok true
    | VObj _ _ => Ok true
    | VNone => Raise TypeError
    end
  else if is_compound info then
    rec v
  else if is_multiple info then
    match v with
    | VList l => Ok (forallb is_None l)
    | VStr s => Ok (String.eqb s "")
    | VObj items _ => Ok (match items with [] => true | _ => false end)
    | VNone => Raise TypeError
    end
  else
    Ok (is_None v).

(** The [for] loop of [_is_empty], with the local variable [empty]
    threaded through the iterations and the early [return empty]. *)
Definition is_empty_loop (rec : value -> result bool)
    (model_fields : gmap string FieldInfo)
  : list (string * value) -> bool -> result bool :=
  fix loop items empty :=
    match items with
    | [] => Ok empty
    | (field_name, v) :: rest =>
        match model_fields !! field_name with
        | None => Raise KeyError
        | Some field_info =>
            match field_is_empty rec field_info v with
            | Raise e => Raise e
            | Ok empty' =>
                if empty' then loop rest empty' else Ok empty'
            end
        end
    end.

Fixpoint _is_empty (metadatablock : value) : result bool :=
  match metadatablock with
  | VObj items model_fields =>
      is_empty_loop _is_empty model_fields items true
  | _ => Ok true
  end.

(** ** reviews/models.py

    Primary keys are UUIDs, kept in their textual form; foreign keys hold
    the key of the row they point to. *)

Module Reviewer.
Record t := {
  id : string;
  username : string;
  first_name : string;
  last_name : string;
  email : string;
  affiliation : string;
}.
End Reviewer.

Module Review.
Record t := {
  id : string;
  reviewer : option string;
  doi : string;
  site_url : option string;
  revision : Z;
  accepted : bool;
  date : Z;
}.
End Review.

Module Metadatablock.
Record t := {
  id : string;
  review : string;
  name : string;
  description : string;
}.
End Metadatablock.

Module Field.
Record t := {
  id : string;
  metadatablock : option string;
  compound : option string;
  name : string;
  description : string;
  accepted : option bool;
  value : string;
  history : gmap string string;
  field_type : string;
}.
End Field.

Module Compound.
Record t := {
  id : string;
  metadatablock : string;
  name : string;
  description : string;
  accepted : bool;
  field_type : string;
}.
End Compound.

Module File.
Record t := {
  id : string;
  review : string;
  name : string;
  description : string;
  accepted : bool;
  field_type : string;
}.
End File.

Module Message.
Record t := {
  id : string;
  field : option string;
  compound : option string;
  message : string;
  user : option string;
  timestamp : Z;
}.
End Message.

(** The database: one table per model, rows in insertion order. *)
Record Store := {
  reviewers : list Reviewer.t;
  reviews : list Review.t;
  metadatablocks : list Metadatablock.t;
  compounds : list Compound.t;
  fields : list Field.t;
  files : list File.t;
  messages : list Message.t;
}.

(** What a handler can change: the database, how many UUIDs have been
    drawn, and the URLs requested with [requests.get] (oldest first). *)
Record World := {
  db : Store;
  uuid_drawn : nat;
  http_log : list string;
}.

(** ** The collaborators outside the repository *)

Record DataverseClient := {
  server_url : option string;
  api_token : option string;
}.

(** [dataset.metadatablocks.items()] *)
Record Dataset := {
  dataset_metadatablocks : list (string * value);
}.

(** A field entry of the remote schema:
    [{"name": .., "displayName": .., "childFields": {..}}], the last key
    optional; dictionaries are kept as their [values()] in order. *)
#[warnings="-register-all"]
Inductive SchemaField :=
| MkSchemaField (name displayName : string)
    (childFields : option (list SchemaField)).

Record HttpResponse := {
  status_code : nat;
  (** [response.json()["data"]["fields"].values()], or the exception the
      decoding or indexing raises *)
  json_data_fields : result (list SchemaField);
}.

Class Environment := {
  (** the successive results of [uuid.uuid4()], as text *)
  uuid4 : nat -> string;
  (** [datetime.datetime.now()] *)
  datetime_now : Z;
  (** [Dataverse(site_url, api_token)] for a [site_url] that is a string:
      the client, or the exception the validation of the URL or the
      connection to the server raises *)
  Dataverse_connect : string -> option string -> result DataverseClient;
  (** [dataverse.load_dataset(pid=doi, download_files=False)] *)
  load_dataset : DataverseClient -> string -> result Dataset;
  (** [requests.get(url)] *)
  requests_get : string -> result HttpResponse;
  (** [str(x)] for [x] a list or an object *)
  py_repr : value -> string;
  (** [x.lower()] for a text [x] that is not ASCII *)
  str_lower : string -> string;
  (** whether the [UUIDField] of Django accepts the text as a UUID *)
  uuid_syntax : string -> bool;
}.

(** [Dataverse(site_url, api_token)].  The client is a pydantic model in
    which the URL of the server is required: built without one it raises
    the validation error of pydantic. *)
Definition Dataverse `{Environment} (site_url api_token : option string)
  : result DataverseClient :=
  match site_url with
  | None => Raise PydanticValidationError
  | Some url => Dataverse_connect url api_token
  end.

(** ** Handlers: state passing with exceptions *)

Definition Handler (A : Type) : Type := World -> World * result A.

#[global] Instance handler_ret : MRet Handler := fun _ a w => (w, Ok a).
#[global] Instance handler_bind : MBind Handler := fun _ _ f m w =>
  match m w with
  | (w', Ok a) => f a w'
  | (w', Raise e) => (w', Raise e)
  end.

(** A computation that touches neither database nor network. *)
Definition lift {A} (r : result A) : Handler A := fun w => (w, r).

Definition get_db : Handler Store := fun w => (w, Ok (db w)).

(** A Django model class: its keyword arguments, instantiation (the
    primary key default is drawn there) and [save()]. *)
Class Model (R : Type) := {
  Kwargs : Type;
  instantiate : string -> Kwargs -> R;
  save : R -> Store -> Store;
}.

Definition _create_and_save `{Environment} (R : Type) `{Model R}
    (kwargs : Kwargs) : Handler R :=
  fun w =>
    let obj := instantiate (uuid4 (uuid_drawn w)) kwargs in
    ({| db := save obj (db w);
        uuid_drawn := S (uuid_drawn w);
        http_log := http_log w |}, Ok obj).

Module ReviewKwargs.
Record t := {
  doi : string;
  site_url : string;
  revision : Z;
  date : Z;
}.
End ReviewKwargs.

Module MetadatablockKwargs.
Record t := {
  review : Review.t;
  name : string;
}.
End MetadatablockKwargs.

Module CompoundKwargs.
Record t := {
  metadatablock : Metadatablock.t;
  name : string;
}.
End CompoundKwargs.

(** The dictionary built by [_process_primitive]. *)
Module PrimitiveAttrs.
Record t := {
  name : string;
  description : string;
  value : string;
  history : gmap string string;
}.
End PrimitiveAttrs.

Module FieldKwargs.
Record t := {
  metadatablock : option Metadatablock.t;
  compound : option Compound.t;
  attrs : PrimitiveAttrs.t;
}.
End FieldKwargs.

(** Columns left out of the keyword arguments take the defaults of
    models.py. *)
#[global] Instance Review_model : Model Review.t := {
  Kwargs := ReviewKwargs.t;
  instantiate pk kw :=
    {| Review.id := pk;
       Review.reviewer := None;
       Review.doi := ReviewKwargs.doi kw;
       Review.site_url := Some (ReviewKwargs.site_url kw);
       Review.revision := ReviewKwargs.revision kw;
       Review.accepted := false;
       Review.date := ReviewKwargs.date kw |};
  save obj s :=
    {| reviewers := reviewers s;
       reviews := reviews s ++ [obj];
       metadatablocks := metadatablocks s;
       compounds := compounds s;
       fields := fields s;
       files := files s;
       messages := messages s |};
}.

#[global] Instance Metadatablock_model : Model Metadatablock.t := {
  Kwargs := MetadatablockKwargs.t;
  instantiate pk kw :=
    {| Metadatablock.id := pk;
       Metadatablock.review := Review.id (MetadatablockKwargs.review kw);
       Metadatablock.name := MetadatablockKwargs.name kw;
       Metadatablock.description := "" |};
  save obj s :=
    {| reviewers := reviewers s;
       reviews := reviews s;
       metadatablocks := metadatablocks s ++ [obj];
       compounds := compounds s;
       fields := fields s;
       files := files s;
       messages := messages s |};
}.

#[global] Instance Compound_model : Model Compound.t := {
  Kwargs := CompoundKwargs.t;
  instantiate pk kw :=
    {| Compound.id := pk;
       Compound.metadatablock :=
         Metadatablock.id (CompoundKwargs.metadatablock kw);
       Compound.name := CompoundKwargs.name kw;
       Compound.description := "";
       Compound.accepted := false;
       Compound.field_type := "compound" |};
  save obj s :=
    {| reviewers := reviewers s;
       reviews := reviews s;
       metadatablocks := metadatablocks s;
       compounds := compounds s ++ [obj];
       fields := fields s;
       files := files s;
       messages := messages s |};
}.

#[global] Instance Field_model : Model Field.t := {
  Kwargs := FieldKwargs.t;
  instantiate pk kw :=
    {| Field.id := pk;
       Field.metadatablock :=
         Metadatablock.id <$> FieldKwargs.metadatablock kw;
       Field.compound := Compound.id <$> FieldKwargs.compound kw;
       Field.name := PrimitiveAttrs.name (FieldKwargs.attrs kw);
       Field.description :=
         PrimitiveAttrs.description (FieldKwargs.attrs kw);
       Field.accepted := None;
       Field.value := PrimitiveAttrs.value (FieldKwargs.attrs kw);
       Field.history := PrimitiveAttrs.history (FieldKwargs.attrs kw);
       Field.field_type := "primitive" |};
  save obj s :=
    {| reviewers := reviewers s;
       reviews := reviews s;
       metadatablocks := metadatablocks s;
       compounds := compounds s;
       fields := fields s ++ [obj];
       files := files s;
       messages := messages s |};
}.

(** ** Python iteration, unpacking and string conversion *)

(** [for x in v]: the elements a loop over [v] visits.  The (name, value)
    tuples an object yields are written as two-element lists; they only
    live until the loop header unpacks them. *)
Definition py_iter (v : value) : result (list value) :=
  match v with
  | VNone => Raise TypeError
  | VStr s => Ok ((fun c => VStr (String c "")) <$> list_ascii_of_string s)
  | VList l => Ok l
  | VObj items _ => Ok ((fun kv => VList [VStr kv.1; kv.2]) <$> items)
  end.

(** [field_name, value = x] *)
Definition unpack_pair (x : value) : result (value * value) :=
  match x with
  | VNone => Raise TypeError
  | VStr (String a (String b "")) =>
      Ok (VStr (String a ""), VStr (String b ""))
  | VStr _ => Raise ValueError
  | VList [a; b] => Ok (a, b)
  | VList _ => Raise ValueError
  | VObj [kv1; kv2] _ =>
      Ok (VList [VStr kv1.1; kv1.2], VList [VStr kv2.1; kv2.2])
  | VObj _ _ => Raise ValueError
  end.

(** The receiver of [field_name.startswith(..)]: only a string has the
    method. *)
Definition as_name (field_name : value) : result string :=
  match field_name with
  | VStr s => Ok s
  | _ => Raise AttributeError
  end.

(** [x.model_fields] *)
Definition get_model_fields (x : value) : result (gmap string FieldInfo) :=
  match x with
  | VObj _ model_fields => Ok model_fields
  | _ => Raise AttributeError
  end.

(** [d[key]] *)
Definition getitem {A} (d : gmap string A) (key : string) : result A :=
  match d !! key with
  | Some a => Ok a
  | None => Raise KeyError
  end.

(** The operand of [", ".join(..)]: every element has to be a string. *)
Fixpoint strs_of (l : list value) : result (list string) :=
  match l with
  | [] => Ok []
  | VStr s :: l' => ss ← strs_of l'; Ok (s :: ss)
  | _ :: _ => Raise TypeError
  end.

Definition str_join (sep : string) (l : list value) : result string :=
  ss ← strs_of l; Ok (String.concat sep ss).

(** [str(v)] *)
Definition py_str `{Environment} (v : value) : string :=
  match v with
  | VStr s => s
  | VNone => "None"
  | _ => py_repr v
  end.

(** ** fetch.py: the flattener *)

Definition _process_primitive `{Environment} (name : string) (v : value)
    (field_info : FieldInfo) (parent : option Compound.t)
  : result PrimitiveAttrs.t :=
  v ← match v with
      | VList l => VStr <$> str_join ", " l
      | _ => Ok v
      end;
  Ok {| PrimitiveAttrs.name := name;
        PrimitiveAttrs.description := description field_info;
        PrimitiveAttrs.value := py_str v;
        PrimitiveAttrs.history := {[ "Original" := py_str v ]} |}.

(** The body of [_process_compound] from the loop header on, for the
    elements still to be visited. *)
Fixpoint process_compound_loop `{Environment} (compound : value)
    (foreign_key : Compound.t) (todo : list value) : Handler unit :=
  match todo with
  | [] => mret ()
  | x :: rest =>
      '(field_name, v) ← lift (unpack_pair x);
      field_name ← lift (as_name field_name);
      if startswith_underscore field_name || is_None v then
        process_compound_loop compound foreign_key rest
      else
        model_fields ← lift (get_model_fields compound);
        field_info ← lift (getitem model_fields field_name);
        attrs ← lift (_process_primitive field_name v field_info
                        (Some foreign_key));
        _ ← _create_and_save Field.t
              {| FieldKwargs.metadatablock := None;
                 FieldKwargs.compound := Some foreign_key;
                 FieldKwargs.attrs := attrs |};
        process_compound_loop compound foreign_key rest
  end.

Definition _process_compound `{Environment} (compound : value)
    (foreign_key : Compound.t) : Handler unit :=
  todo ← lift (py_iter compound);
  process_compound_loop compound foreign_key todo.

(** [for entry in value: compound = ..; _process_compound(entry, compound)] *)
Fixpoint process_entries `{Environment} (field_name : string)
    (foreign_key : Metadatablock.t) (entries : list value) : Handler unit :=
  match entries with
  | [] => mret ()
  | entry :: rest =>
      compound ← _create_and_save Compound.t
                   {| CompoundKwargs.metadatablock := foreign_key;
                      CompoundKwargs.name := field_name |};
      _ ← _process_compound entry compound;
      process_entries field_name foreign_key rest
  end.

(** [if not isinstance(value, list): value = [value]] *)
Definition as_entries (v : value) : list value :=
  match v with
  | VList l => l
  | _ => [v]
  end.

Fixpoint process_metadatablock_loop `{Environment} (block : value)
    (foreign_key : Metadatablock.t) (todo : list value) : Handler unit :=
  match todo with
  | [] => mret ()
  | x :: rest =>
      '(field_name, v) ← lift (unpack_pair x);
      field_name ← lift (as_name field_name);
      if startswith_underscore field_name then
        process_metadatablock_loop block foreign_key rest
      else if is_None v then
        process_metadatablock_loop block foreign_key rest
      else if eq_empty_list v then
        process_metadatablock_loop block foreign_key rest
      else
        model_fields ← lift (get_model_fields block);
        field_info ← lift (getitem model_fields field_name);
        if negb (is_compound field_info) then
          attrs ← lift (_process_primitive field_name v field_info None);
          _ ← _create_and_save Field.t
                {| FieldKwargs.metadatablock := Some foreign_key;
                   FieldKwargs.compound := None;
                   FieldKwargs.attrs := attrs |};
          process_metadatablock_loop block foreign_key rest
        else
          _ ← process_entries field_name foreign_key (as_entries v);
          process_metadatablock_loop block foreign_key rest
  end.

Definition _process_metadatablock `{Environment} (block : value)
    (foreign_key : Metadatablock.t) : Handler unit :=
  todo ← lift (py_iter block);
  process_metadatablock_loop block foreign_key todo.

(** ** Related managers (the [related_name]s of models.py) *)

Definition review_metadatablocks (s : Store) (r : Review.t)
  : list Metadatablock.t :=
  filter (fun b => Metadatablock.review b = Review.id r) (metadatablocks s).

Definition review_files (s : Store) (r : Review.t) : list File.t :=
  filter (fun f => File.review f = Review.id r) (files s).

Definition metadatablock_primitives (s : Store) (b : Metadatablock.t)
  : list Field.t :=
  filter (fun f => Field.metadatablock f = Some (Metadatablock.id b))
    (fields s).

Definition metadatablock_compounds (s : Store) (b : Metadatablock.t)
  : list Compound.t :=
  filter (fun c => Compound.metadatablock c = Metadatablock.id b)
    (compounds s).

Definition compound_primitives (s : Store) (c : Compound.t) : list Field.t :=
  filter (fun f => Field.compound f = Some (Compound.id c)) (fields s).

Definition field_chat (s : Store) (f : Field.t) : list Message.t :=
  filter (fun m => Message.field m = Some (Field.id f)) (messages s).

Definition compound_chat (s : Store) (c : Compound.t) : list Message.t :=
  filter (fun m => Message.compound m = Some (Compound.id c)) (messages s).

(** [Model.objects.get(..)] on the rows a filter selects. *)
Definition objects_get {R} (rows : list R) : result R :=
  match rows with
  | [] => Raise DoesNotExist
  | [r] => Ok r
  | _ :: _ :: _ => Raise MultipleObjectsReturned
  end.

(** ** serializers.py: the nested representation of a review *)

Module FieldData.
Record t := {
  row : Field.t;
  chat : list Message.t;
}.
End FieldData.

Module CompoundData.
Record t := {
  row : Compound.t;
  primitives : list FieldData.t;
  chat : list Message.t;
}.
End CompoundData.

Module MetadatablockData.
Record t := {
  row : Metadatablock.t;
  primitives : list FieldData.t;
  compounds : list CompoundData.t;
}.
End MetadatablockData.

Module ReviewData.
Record t := {
  row : Review.t;
  metadatablocks : list MetadatablockData.t;
  files : list File.t;
}.
End ReviewData.

Definition FieldSerializer (s : Store) (f : Field.t) : FieldData.t :=
  {| FieldData.row := f;
     FieldData.chat := field_chat s f |}.

Definition CompoundSerializer (s : Store) (c : Compound.t) : CompoundData.t :=
  {| CompoundData.row := c;
     CompoundData.primitives := FieldSerializer s <$> compound_primitives s c;
     CompoundData.chat := compound_chat s c |}.

Definition MetadatablockSerializer (s : Store) (b : Metadatablock.t)
  : MetadatablockData.t :=
  {| MetadatablockData.row := b;
     MetadatablockData.primitives :=
       FieldSerializer s <$> metadatablock_primitives s b;
     MetadatablockData.compounds :=
       CompoundSerializer s <$> metadatablock_compounds s b |}.

Definition ReviewSerializer (s : Store) (r : Review.t) : ReviewData.t :=
  {| ReviewData.row := r;
     ReviewData.metadatablocks :=
       MetadatablockSerializer s <$> review_metadatablocks s r;
     ReviewData.files := review_files s r |}.

(** The two custom serializers of the open-fields endpoint. *)
Module OpenCompound.
Record t := {
  name : string;
  childFields : list string;
}.
End OpenCompound.

Module OpenFields.
Record t := {
  name : string;
  primitives : list string;
  compounds : list OpenCompound.t;
}.
End OpenFields.

(** ** Requests and responses *)

Record Request := {
  query_params : gmap string string;
}.

Inductive Body :=
| MessageBody (message : string)
| ReviewBody (review : ReviewData.t)
| OpenFieldsBody (blocks : list OpenFields.t)
| FieldCountBody (field_count : Z) (accpected_count : nat).

Record Response := {
  data : Body;
  status : nat;
}.

Definition HTTP_200_OK : nat := 200.
Definition HTTP_400_BAD_REQUEST : nat := 400.
Definition HTTP_404_NOT_FOUND : nat := 404.

(** ** fetch.py: [fetch_dataset] *)

(** [for block_name, block in dataset.metadatablocks.items(): ..] *)
Fixpoint fetch_blocks `{Environment} (review : Review.t)
    (todo : list (string * value)) : Handler unit :=
  match todo with
  | [] => mret ()
  | (block_name, block) :: rest =>
      empty ← lift (_is_empty block);
      if empty : bool then
        fetch_blocks review rest
      else
        metadatablock ← _create_and_save Metadatablock.t
                          {| MetadatablockKwargs.review := review;
                             MetadatablockKwargs.name := block_name |};
        _ ← _process_metadatablock block metadatablock;
        fetch_blocks review rest
  end.

Definition missing_parameters_message : string :=
  "Missing either 'site_url' or 'doi' to fetch the dataset.".

Definition fetch_dataset `{Environment} (request : Request)
  : Handler Response :=
  let site_url := query_params request !! "site_url" in
  let doi := query_params request !! "doi" in
  let api_token := query_params request !! "api_token" in
  dataverse ← lift (Dataverse site_url api_token);
  match site_url, doi with
  | Some site_url, Some doi =>
      s ← get_db;
      let found := filter (fun r => Review.doi r = doi) (reviews s) in
      if bool_decide (found ≠ []) then
        review ← lift (objects_get found);
        mret {| data := ReviewBody (ReviewSerializer s review);
                status := HTTP_200_OK |}
      else
        dataset ← lift (load_dataset dataverse doi);
        review ← _create_and_save Review.t
                   {| ReviewKwargs.doi := doi;
                      ReviewKwargs.site_url := site_url;
                      ReviewKwargs.revision := 1;
                      ReviewKwargs.date := datetime_now |};
        _ ← fetch_blocks review (dataset_metadatablocks dataset);
        s ← get_db;
        mret {| data := ReviewBody (ReviewSerializer s review);
                status := HTTP_200_OK |}
  | _, _ =>
      mret {| data := MessageBody missing_parameters_message;
              status := HTTP_400_BAD_REQUEST |}
  end.

(** ** openfields.py *)

Definition sf_name (f : SchemaField) : string :=
  match f with MkSchemaField name _ _ => name end.

Definition sf_displayName (f : SchemaField) : string :=
  match f with MkSchemaField _ displayName _ => displayName end.

(** ["childFields" in field] *)
Definition has_childFields (f : SchemaField) : bool :=
  match f with
  | MkSchemaField _ _ (Some _) => true
  | MkSchemaField _ _ None => false
  end.

(** [field.get("childFields", {}).values()] *)
Definition childFields_values (f : SchemaField) : list SchemaField :=
  match f with
  | MkSchemaField _ _ (Some children) => children
  | MkSchemaField _ _ None => []
  end.

Fixpoint map_chars (f : ascii -> ascii) (s : string) : string :=
  match s with
  | EmptyString => EmptyString
  | String c s' => String (f c) (map_chars f s')
  end.

(** [s.replace(" ", "_")] *)
Definition replace_space (s : string) : string :=
  map_chars (fun c => if Ascii.eqb c " " then "_"%char else c) s.

(** Texts are kept as their UTF-8 bytes; a text is ASCII when every byte
    is below 128. *)
Fixpoint ascii_only (s : string) : bool :=
  match s with
  | EmptyString => true
  | String c s' => (nat_of_ascii c <? 128)%nat && ascii_only s'
  end.

(** What [lower()] does to an ASCII character. *)
Definition lower_char (c : ascii) : ascii :=
  let n := nat_of_ascii c in
  if (65 <=? n)%nat && (n <=? 90)%nat then ascii_of_nat (n + 32) else c.

(** [s.lower()]: character by character on an ASCII text; on any other
    text it is the function of the Python runtime, which lowers every
    cased letter of Unicode. *)
Definition lower `{Environment} (s : string) : string :=
  if ascii_only s then map_chars lower_char s else str_lower s.

(** [x.replace(" ", "_").lower()] *)
Definition snake `{Environment} (s : string) : string :=
  lower (replace_space s).

(** [x in l] for strings *)
Definition str_in (x : string) (l : list string) : bool :=
  existsb (String.eqb x) l.

Definition _get_child_field_names (fields : list SchemaField) : list string :=
  field ← fields;
  child_field ← childFields_values field;
  [sf_name child_field].

Definition _retrieve_primitives `{Environment} (fields : list SchemaField)
  : list string :=
  let child_field_names := _get_child_field_names fields in
  field ← fields;
  if negb (str_in (sf_displayName field) child_field_names)
     && negb (has_childFields field)
  then [snake (sf_displayName field)]
  else [].

Fixpoint _retrieve_compounds `{Environment} (fields : list SchemaField)
  : list OpenCompound.t :=
  match fields with
  | [] => []
  | field :: rest =>
      if negb (has_childFields field) then
        _retrieve_compounds rest
      else
        let compound :=
          {| OpenCompound.name := snake (sf_displayName field);
             OpenCompound.childFields :=
               (fun child_field => snake (sf_displayName child_field))
                 <$> childFields_values field |} in
        compound :: _retrieve_compounds rest
  end.

(** [requests.get(url)], remembered in the log *)
Definition http_get `{Environment} (url : string) : Handler HttpResponse :=
  fun w =>
    ({| db := db w;
        uuid_drawn := uuid_drawn w;
        http_log := http_log w ++ [url] |}, requests_get url).

(** [response.raise_for_status()] *)
Definition raise_for_status (response : HttpResponse) : result unit :=
  if (400 <=? status_code response)%nat && (status_code response <? 600)%nat
  then Raise HTTPError
  else Ok ().

(** The part of [_fetch_open_metadatablock_fields] after the payload has
    been fetched.  The two thread-pool tasks are pure functions of
    [fields]; joining them gives their two results. *)
Definition open_fields_of_payload `{Environment} (block_name : string)
    (fields : list SchemaField) : OpenFields.t :=
  let primitives := _retrieve_primitives fields in
  let compounds := _retrieve_compounds fields in
  let all_compound_fields :=
    compound ← compounds;
    compound_field ← OpenCompound.childFields compound;
    [compound_field] in
  let primitives :=
    primitive ← primitives;
    if negb (str_in primitive all_compound_fields) then [primitive]
    else [] in
  {| OpenFields.name := block_name;
     OpenFields.primitives := primitives;
     OpenFields.compounds := compounds |}.

Definition _fetch_open_metadatablock_fields `{Environment}
    (metadatablock : Metadatablock.t) (url : string)
  : Handler OpenFields.t :=
  response ← http_get url;
  _ ← lift (raise_for_status response);
  fields ← lift (json_data_fields response);
  mret (open_fields_of_payload (Metadatablock.name metadatablock) fields).

(** [site_url.endswith("/")] *)
Fixpoint endswith_slash (s : string) : bool :=
  match s with
  | EmptyString => false
  | String c EmptyString => Ascii.eqb c "/"
  | String _ s' => endswith_slash s'
  end.

(** [site_url[:-1]] *)
Fixpoint drop_last (s : string) : string :=
  match s with
  | EmptyString => EmptyString
  | String _ EmptyString => EmptyString
  | String c s' => String c (drop_last s')
  end.

Definition metadatablock_url (site_url metadatablock_id : string) : string :=
  site_url +:+ "/api/metadatablocks/" +:+ metadatablock_id.

(** The list comprehension over [review.metadatablocks.all()]. *)
Fixpoint fetch_open_fields_each `{Environment} (site_url : string)
    (blocks : list Metadatablock.t) : Handler (list OpenFields.t) :=
  match blocks with
  | [] => mret []
  | metadatablock :: rest =>
      x ← _fetch_open_metadatablock_fields metadatablock
            (metadatablock_url site_url (Metadatablock.name metadatablock));
      xs ← fetch_open_fields_each site_url rest;
      mret (x :: xs)
  end.

Definition review_missing_message (review_pk : string) : string :=
  "Review with ID '" +:+ review_pk +:+ "' does not exist.".

(** [Review.objects.prefetch_related(..).filter(id=review_pk).first()].
    The [UUIDField] converts [review_pk] before the database is asked,
    and raises [ValidationError] for a text that is not UUID syntax.  The
    key of a stored row is a UUID, so a text that is the key of a stored
    row has passed the conversion. *)
Definition first_by_id `{Environment} (review_pk : string)
    (rows : list Review.t) : result (option Review.t) :=
  match head (filter (fun r => Review.id r = review_pk) rows) with
  | Some review => Ok (Some review)
  | None => if uuid_syntax review_pk then Ok None else Raise ValidationError
  end.

Definition fetch_open_metadatablock_fields_for_review `{Environment}
    (review_pk : string) : Handler Response :=
  s ← get_db;
  review ← lift (first_by_id review_pk (reviews s));
  match review with
  | None =>
      mret {| data := MessageBody (review_missing_message review_pk);
              status := HTTP_404_NOT_FOUND |}
  | Some review =>
      site_url ← lift (match Review.site_url review with
                       | Some u => Ok u
                       | None => Raise AttributeError
                       end);
      let site_url :=
        if endswith_slash site_url then drop_last site_url else site_url in
      blocks ← fetch_open_fields_each site_url (review_metadatablocks s review);
      mret {| data := OpenFieldsBody blocks; status := HTTP_200_OK |}
  end.

(** ** review.py: [get_field_count] *)

(** One step of a [values_list] path across a reverse foreign key.  The
    ORM follows it with a LEFT OUTER JOIN: a row with no related rows
    stays in the result, once, with NULL in the related columns. *)
Definition outer_join {A B} (related : A -> list B) (row : option A)
  : list (option B) :=
  match row with
  | None => [None]
  | Some a =>
      match related a with
      | [] => [None]
      | bs => Some <$> bs
      end
  end.

(** [Review.objects.filter(pk=review_id).values_list(
       "metadatablocks__primitives__accepted", flat=True)] *)
Definition values_primitives_accepted (s : Store) (review_id : string)
  : list (option bool) :=
  r ← filter (fun r => Review.id r = review_id) (reviews s);
  b ← outer_join (review_metadatablocks s) (Some r);
  f ← outer_join (metadatablock_primitives s) b;
  [f ≫= Field.accepted].

(** [.. .values_list("metadatablocks__compounds__primitives__accepted",
       flat=True)] *)
Definition values_compound_primitives_accepted (s : Store)
    (review_id : string) : list (option bool) :=
  r ← filter (fun r => Review.id r = review_id) (reviews s);
  b ← outer_join (review_metadatablocks s) (Some r);
  c ← outer_join (metadatablock_compounds s) b;
  f ← outer_join (compound_primitives s) c;
  [f ≫= Field.accepted].

(** [x is True] *)
Definition is_True (x : option bool) : bool :=
  match x with Some true => true | _ => false end.

Definition get_field_count (review_id : string) : Handler Response :=
  s ← get_db;
  let primitive_fields := values_primitives_accepted s review_id in
  let compound_fields := values_compound_primitives_accepted s review_id in
  let field_count :=
    (Z.of_nat (List.length primitive_fields)
     + Z.of_nat (List.length compound_fields) - 1)%Z in
  let accepted_fields :=
    List.length (List.filter is_True (primitive_fields ++ compound_fields)) in
  mret {| data := FieldCountBody field_count accepted_fields;
          status := HTTP_200_OK |}.

(** ** The emptiness filter as the specification describes it *)

(** A compound instance is an object, or [None] where it is unset. *)
Definition is_instance (v : value) : bool :=
  match v with
  | VObj _ _ | VNone => true
  | _ => false
  end.

(** A document is schema-conformant when every field of an object has an
    entry in [model_fields], a repeatable field holds a list, and compound
    fields hold conformant instances. *)
Definition field_conforms (rec : value -> bool) (info : FieldInfo)
    (v : value) : bool :=
  if is_compound info && is_multiple info then
    match v with
    | VList l => forallb (fun e => is_instance e && rec e) l
    | _ => false
    end
  else if is_compound info then is_instance v && rec v
  else if is_multiple info then is_list v
  else true.

Fixpoint conforms (node : value) : bool :=
  match node with
  | VObj items model_fields =>
      forallb (fun kv => match model_fields !! kv.1 with
                         | Some info => field_conforms conforms info kv.2
                         | None => false
                         end) items
  | _ => true
  end.

(** The verdict on one field: a repeatable compound is empty iff every
    instance is, a single compound iff it is, a repeatable primitive iff
    every element is null, a single primitive iff its value is null. *)
Definition field_empty_spec (rec : value -> bool) (info : FieldInfo)
    (v : value) : bool :=
  if is_compound info && is_multiple info then
    match v with VList l => forallb rec l | _ => true end
  else if is_compound info then rec v
  else if is_multiple info then
    match v with VList l => forallb is_None l | _ => true end
  else is_None v.

Definition verdicts_with (rec : value -> bool)
    (model_fields : gmap string FieldInfo) (items : list (string * value))
  : list bool :=
  List.map (fun kv => match model_fields !! kv.1 with
                      | Some info => field_empty_spec rec info kv.2
                      | None => true
                      end) items.

(** False at the first field found non-empty, otherwise the verdict of
    the last field examined; true when there is no field at all. *)
Definition first_false_else_last (verdicts : list bool) : bool :=
  match List.find negb verdicts with
  | Some _ => false
  | None => List.last verdicts true
  end.

Fixpoint is_empty_spec (node : value) : bool :=
  match node with
  | VObj items model_fields =>
      first_false_else_last (verdicts_with is_empty_spec model_fields items)
  | _ => true
  end.

(** The leaf values reachable from a node. *)
Definition field_leaves (rec : value -> list value) (info : FieldInfo)
    (v : value) : list value :=
  if is_compound info && is_multiple info then
    match v with VList l => List.flat_map rec l | _ => [] end
  else if is_compound info then rec v
  else if is_multiple info then
    match v with VList l => l | _ => [] end
  else [v].

Fixpoint leaves (node : value) : list value :=
  match node with
  | VObj items model_fields =>
      List.flat_map (fun kv => match model_fields !! kv.1 with
                               | Some info => field_leaves leaves info kv.2
                               | None => []
                               end) items
  | _ => []
  end.

(** The fields of a node; a node without a field schema has none. *)
Definition node_fields (node : value) : list (string * value) :=
  match node with
  | VObj items _ => items
  | _ => []
  end.

(** The node with further fields declared after its own. *)
Definition with_more_fields (node : value) (more : list (string * value))
  : value :=
  match node with
  | VObj items model_fields => VObj (items ++ more) model_fields
  | _ => node
  end.

(** ** The flattener as the specification describes it *)

(** The store with rows appended to the three tables ingestion writes. *)
Definition with_rows (s : Store) (new_blocks : list Metadatablock.t)
    (new_compounds : list Compound.t) (new_fields : list Field.t) : Store :=
  {| reviewers := reviewers s;
     reviews := reviews s;
     metadatablocks := metadatablocks s ++ new_blocks;
     compounds := compounds s ++ new_compounds;
     fields := fields s ++ new_fields;
     files := files s;
     messages := messages s |}.

(** The world after those rows were created, one UUID drawn for each. *)
Definition grown (w : World) (new_blocks : list Metadatablock.t)
    (new_compounds : list Compound.t) (new_fields : list Field.t) : World :=
  {| db := with_rows (db w) new_blocks new_compounds new_fields;
     uuid_drawn := uuid_drawn w + List.length new_blocks
                   + List.length new_compounds + List.length new_fields;
     http_log := http_log w |}.

(** A field the block-level loop passes over: a private name, a null
    value, or an empty list. *)
Definition skipped (kv : string * value) : bool :=
  startswith_underscore kv.1 || is_None kv.2 || eq_empty_list kv.2.

Definition kept_primitive (model_fields : gmap string FieldInfo)
    (kv : string * value) : bool :=
  negb (skipped kv) &&
  match model_fields !! kv.1 with
  | Some info => negb (is_compound info)
  | None => false
  end.

Definition kept_compound (model_fields : gmap string FieldInfo)
    (kv : string * value) : bool :=
  negb (skipped kv) &&
  match model_fields !! kv.1 with
  | Some info => is_compound info
  | None => false
  end.

(** The names of the Field rows a block is to get as direct children:
    one for each field that is kept and not a compound, in order. *)
Definition expected_field_names (model_fields : gmap string FieldInfo)
    (items : list (string * value)) : list string :=
  fst <$> List.filter (kept_primitive model_fields) items.

(** The names of the Compound rows a block is to get: one for each entry
    of each kept compound field, in order. *)
Definition expected_compound_names (model_fields : gmap string FieldInfo)
    (items : list (string * value)) : list string :=
  List.flat_map (fun kv => replicate (List.length (as_entries kv.2)) kv.1)
    (List.filter (kept_compound model_fields) items).

(** The new Field rows that are direct children of a block. *)
Definition direct_children (block : Metadatablock.t)
    (rows : list Field.t) : list Field.t :=
  filter (fun f => Field.metadatablock f = Some (Metadatablock.id block)) rows.

(** *** The rows of a surviving block *)


Definition is_text (v : value) : bool :=
  match v with
  | VStr _ => true
  | _ => false
  end.














(** ** The open-fields partition as the specification describes it *)






Definition compound_child_names (compounds : list OpenCompound.t)
  : list string :=
  compounds ≫= OpenCompound.childFields.



(** ** The field count as the specification describes it *)

(** The primitive Field rows directly under the review's blocks. *)
Definition review_direct_primitives (s : Store) (r : Review.t)
  : list Field.t :=
  review_metadatablocks s r ≫= metadatablock_primitives s.

(** The primitive Field rows under the compounds of those blocks. *)
Definition review_compound_primitives (s : Store) (r : Review.t)
  : list Field.t :=
  b ← review_metadatablocks s r;
  c ← metadatablock_compounds s b;
  compound_primitives s c.

Definition accepted_count (rows : list Field.t) : nat :=
  List.length (List.filter (fun f => is_True (Field.accepted f)) rows).

(** A Field row whose history holds its value under "Original" and
    nothing else. *)
Definition seeded (f : Field.t) : Prop :=
  Field.history f = {[ "Original" := Field.value f ]}.

(** ** review.py: the two list endpoints *)

(** [Response(serializer.data)] of a [many=True] serializer; a response
    built without [status] is a 200. *)
Record ReviewListResponse := {
  list_data : list ReviewData.t;
  list_status : nat;
}.

Definition review_by_doi (doi : string) : Handler ReviewListResponse :=
  s ← get_db;
  let reviews := filter (fun r => Review.doi r = doi) (reviews s) in
  mret {| list_data := ReviewSerializer s <$> reviews;
          list_status := HTTP_200_OK |}.

Definition review_by_reviewer (reviewerid : string)
  : Handler ReviewListResponse :=
  s ← get_db;
  let reviews :=
    filter (fun r => Review.reviewer r = Some reviewerid) (reviews s) in
  mret {| list_data := ReviewSerializer s <$> reviews;
          list_status := HTTP_200_OK |}.

(** ** openfields.py: the helpers beside the endpoint *)

(** [any(field.name == name for field in fields)] *)
Definition _in_review (name : string) (fields : list Field.t) : bool :=
  existsb (fun field => String.eqb (Field.name field) name) fields.

(** A field entry of the remote schema as [_to_extract] reads it: its
    ["name"] and its ["multiple"] flag. *)
Record FieldDict := {
  fd_name : string;
  fd_multiple : bool;
}.

Definition _to_extract (field : FieldDict) (fields : list Field.t) : bool :=
  if fd_multiple field then true
  else negb (_in_review (fd_name field) fields).

(** Character classes of [re] and [str.strip], on ASCII. *)
Definition is_upper (c : ascii) : bool :=
  let n := nat_of_ascii c in (65 <=? n)%nat && (n <=? 90)%nat.

Definition is_lower (c : ascii) : bool :=
  let n := nat_of_ascii c in (97 <=? n)%nat && (n <=? 122)%nat.

Definition is_digit (c : ascii) : bool :=
  let n := nat_of_ascii c in (48 <=? n)%nat && (n <=? 57)%nat.

(** [\w] *)
Definition is_word (c : ascii) : bool :=
  is_upper c || is_lower c || is_digit c || Ascii.eqb c "_".

(** [\s], which is also what [strip()] removes: tab to carriage return,
    the four separators 28 to 31, and the space *)
Definition is_space (c : ascii) : bool :=
  let n := nat_of_ascii c in
  ((9 <=? n)%nat && (n <=? 13)%nat) || ((28 <=? n)%nat && (n <=? 32)%nat).

(** what [.] does not match *)
Definition is_newline (c : ascii) : bool := (nat_of_ascii c =? 10)%nat.

Fixpoint lstrip (s : string) : string :=
  match s with
  | EmptyString => EmptyString
  | String c s' => if is_space c then lstrip s' else s
  end.

Fixpoint rstrip (s : string) : string :=
  match s with
  | EmptyString => EmptyString
  | String c s' =>
      match rstrip s' with
      | EmptyString => if is_space c then EmptyString else String c EmptyString
      | t => String c t
      end
  end.

(** [s.strip()] *)
Definition strip (s : string) : string := rstrip (lstrip s).

(** [re.sub(r"[^\w\s_]", " ", name).strip()] *)
Definition clean_name (name : string) : string :=
  strip (map_chars (fun c => if is_word c || is_space c then c else " "%char)
           name).

(** Where the scan of [re.sub("(.)([A-Z][a-z]+)", r"\1_\2", ..)] stands:
    looking for a match, at the capital of a match, or inside its run of
    small letters. *)
Inductive sub_state := Scanning | AtCapital | InLowers.

(** The substitution, character by character.  A match starts at a
    character other than a newline that is followed by a capital and a
    small letter; the match takes all the small letters that follow, and
    the scan resumes behind them. *)
Fixpoint sub_capital_word (state : sub_state) (s : string) : string :=
  match s with
  | EmptyString => EmptyString
  | String c t =>
      match state with
      | AtCapital => String c (sub_capital_word InLowers t)
      | _ =>
          if match state with InLowers => is_lower c | _ => false end then
            String c (sub_capital_word InLowers t)
          else
            match t with
            | String u (String l _) =>
                if negb (is_newline c) && is_upper u && is_lower l then
                  String c (String "_" (sub_capital_word AtCapital t))
                else String c (sub_capital_word Scanning t)
            | _ => String c (sub_capital_word Scanning t)
            end
      end
  end.

(** [re.sub("([a-z0-9])([A-Z])", r"\1_\2", ..)] *)
Fixpoint sub_lower_capital (s : string) : string :=
  match s with
  | EmptyString => EmptyString
  | String c t =>
      match t with
      | String u t' =>
          if (is_lower c || is_digit c) && is_upper u then
            String c (String "_" (String u (sub_lower_capital t')))
          else String c (sub_lower_capital t)
      | EmptyString => String c EmptyString
      end
  end.

Definition camel_to_snake `{Environment} (name : string) : string :=
  let name := sub_capital_word Scanning (clean_name name) in
  lower (sub_lower_capital name).


(** ** What an ingestion leaves behind *)

(** The world after an ingestion stored these rows, one UUID drawn for
    each; the other tables and the request log are as before. *)
Definition stored (w : World) (new_reviews : list Review.t)
    (new_blocks : list Metadatablock.t) (new_compounds : list Compound.t)
    (new_fields : list Field.t) : World :=
  {| db := {| reviewers := reviewers (db w);
              reviews := reviews (db w) ++ new_reviews;
              metadatablocks := metadatablocks (db w) ++ new_blocks;
              compounds := compounds (db w) ++ new_compounds;
              fields := fields (db w) ++ new_fields;
              files := files (db w);
              messages := messages (db w) |};
     uuid_drawn := uuid_drawn w + List.length new_reviews
                   + List.length new_blocks + List.length new_compounds
                   + List.length new_fields;
     http_log := http_log w |}.

(** The primary keys of rows of the three tables the flattener writes. *)
Definition keys (new_blocks : list Metadatablock.t)
    (new_compounds : list Compound.t) (new_fields : list Field.t)
  : list string :=
  (Metadatablock.id <$> new_blocks) ++ (Compound.id <$> new_compounds)
  ++ (Field.id <$> new_fields).

(** The keys of the new rows are the UUIDs drawn since [w], each once. *)
Definition accounted `{Environment} (w : World)
    (new_blocks : list Metadatablock.t) (new_compounds : list Compound.t)
    (new_fields : list Field.t) : Prop :=
  keys new_blocks new_compounds new_fields ≡ₚ
    uuid4 <$> seq (uuid_drawn w)
                (List.length new_blocks + List.length new_compounds
                 + List.length new_fields).

(** A Field row with exactly one parent, a block or a compound among the
    given rows. *)
Definition has_one_parent (blocks : list Metadatablock.t)
    (compounds : list Compound.t) (f : Field.t) : Prop :=
  (Field.compound f = None
   /\ exists b, b ∈ blocks
                /\ Field.metadatablock f = Some (Metadatablock.id b))
  \/ (Field.metadatablock f = None
      /\ exists c, c ∈ compounds
                   /\ Field.compound f = Some (Compound.id c)).

(** The blocks of a dataset the emptiness filter lets through. *)
Definition survives (block : value) : bool :=
  match _is_empty block with
  | Ok false => true
  | _ => false
  end.

Definition surviving_names (blocks : list (string * value)) : list string :=
  fst <$> List.filter (fun nb => survives nb.2) blocks.

(** [site_url] without one trailing slash, as the open-fields endpoint
    uses it. *)
Definition without_trailing_slash (site_url : string) : string :=
  if endswith_slash site_url then drop_last site_url else site_url.

(** The URLs the open-fields endpoint is to request for these blocks. *)
Definition schema_urls (site_url : string) (blocks : list Metadatablock.t)
  : list string :=
  (fun b => metadatablock_url (without_trailing_slash site_url)
              (Metadatablock.name b)) <$> blocks.

(** A response [raise_for_status] lets through and whose body decodes. *)
Definition usable (response : result HttpResponse) : option (list SchemaField) :=
  match response with
  | Ok r =>
      match raise_for_status r, json_data_fields r with
      | Ok _, Ok fields => Some fields
      | _, _ => None
      end
  | Raise _ => None
  end.

(** The Review row [fetch_dataset] creates for a dataset it has not seen. *)
Definition new_review_row `{Environment} (w : World) (site_url doi : string)
  : Review.t :=
  instantiate (R := Review.t) (uuid4 (uuid_drawn w))
    {| ReviewKwargs.doi := doi;
       ReviewKwargs.site_url := site_url;
       ReviewKwargs.revision := 1;
       ReviewKwargs.date := datetime_now |}.

(** The world after these URLs were requested and nothing else was done. *)
Definition logged (w : World) (urls : list string) : World :=
  {| db := db w;
     uuid_drawn := uuid_drawn w;
     http_log := (http_log w ++ urls)%list |}.

(** The entry the open-fields endpoint is to give for a block, where the
    response of the schema server is usable; [site_url] has no trailing
    slash any more. *)
Definition open_fields_answer `{Environment} (site_url : string)
    (b : Metadatablock.t) : option OpenFields.t :=
  open_fields_of_payload (Metadatablock.name b)
    <$> usable (requests_get
                  (metadatablock_url site_url (Metadatablock.name b))).

(** [all(p(c) for c in s)] *)
Fixpoint all_chars (p : ascii -> bool) (s : string) : bool :=
  match s with
  | EmptyString => true
  | String c s' => p c && all_chars p s'
  end.

(** [s[0]] and [s[-1]], where there is one *)
Definition first_char (s : string) : option ascii :=
  match s with
  | EmptyString => None
  | String c _ => Some c
  end.

Fixpoint last_char (s : string) : option ascii :=
  match s with
  | EmptyString => None
  | String c s' =>
      match last_char s' with
      | None => Some c
      | Some d => Some d
      end
  end.

(** A name as [clean_name] leaves it: word and whitespace characters
    only, no whitespace at either end. *)
Definition cleaned (s : string) : Prop :=
  all_chars (fun c => is_word c || is_space c) s = true
  /\ (forall c, first_char s = Some c -> is_space c = false)
  /\ (forall c, last_char s = Some c -> is_space c = false).

(** ** Sample data *)

(** An environment in which every collaborator answers: UUIDs are
    numbered, the client is built from its arguments when the site is a
    URL, the remote dataset has one citation block and the remote schema
    two fields. *)
Definition citation_fields : gmap string FieldInfo :=
  {[ "title" := {| description := "The main title";
                   typeClass := "primitive"; multiple := Some false |};
     "subtitle" := {| description := "A secondary title";
                      typeClass := "primitive"; multiple := None |};
     "keyword" := {| description := "Key terms";
                     typeClass := "primitive"; multiple := Some true |};
     "author" := {| description := "The creators";
                    typeClass := "compound"; multiple := Some true |} ]}.

Definition author_fields : gmap string FieldInfo :=
  {[ "name" := {| description := "Family name, given name";
                  typeClass := "primitive"; multiple := Some false |};
     "affiliation" := {| description := "Organisation";
                         typeClass := "primitive"; multiple := Some false |};
     "roles" := {| description := "Roles";
                   typeClass := "primitive"; multiple := Some true |} ]}.

Definition sample_author : value :=
  VObj [("name", VStr "Doe, Jane");
        ("affiliation", VNone);
        ("roles", VList [])] author_fields.

Definition sample_citation : value :=
  VObj [("title", VStr "Ice cores");
        ("subtitle", VNone);
        ("keyword", VList [VStr "ice"; VStr "climate"]);
        ("author", VList [sample_author])] citation_fields.

Definition empty_citation : value :=
  VObj [("title", VNone);
        ("subtitle", VNone);
        ("keyword", VList [VNone]);
        ("author", VList [VObj [("name", VNone)] author_fields; VNone])]
    citation_fields.

Definition sample_schema : list SchemaField :=
  [MkSchemaField "A" "A" None;
   MkSchemaField "B" "B"
     (Some [MkSchemaField "C" "C" None; MkSchemaField "D" "D" None])].

(** The spelling of a UUID the samples accept: 8-4-4-4-12 hexadecimal
    digits.  (Django accepts further spellings of the same UUIDs.) *)
Definition is_hex (c : ascii) : bool :=
  let n := nat_of_ascii c in
  ((48 <=? n)%nat && (n <=? 57)%nat)
  || ((65 <=? n)%nat && (n <=? 70)%nat)
  || ((97 <=? n)%nat && (n <=? 102)%nat).

Definition sample_uuid_syntax (s : string) : bool :=
  bool_decide (String.length s = 36)
  && forallb (fun ic : nat * ascii =>
                if bool_decide (ic.1 ∈ [8; 13; 18; 23])
                then Ascii.eqb ic.2 "-"
                else is_hex ic.2)
       (imap pair (list_ascii_of_string s)).

(** [lower()] in the samples: the ASCII letters and the capital letters
    of Latin-1 (the two bytes C3 80 to C3 9E of UTF-8, less the
    multiplication sign) are lowered.  The samples call it on no other
    text. *)
Fixpoint sample_lower (after_c3 : bool) (s : string) : string :=
  match s with
  | EmptyString => EmptyString
  | String c rest =>
      let n := nat_of_ascii c in
      if after_c3 && (128 <=? n)%nat && (n <=? 158)%nat && negb (n =? 151)%nat
      then String (ascii_of_nat (n + 32)) (sample_lower false rest)
      else String (lower_char c) (sample_lower (n =? 195)%nat rest)
  end.

(** The constructor of the client in the samples: it refuses a text that
    is no http(s) URL, as the URL type of pydantic does, and does not go
    to the network. *)
Definition sample_connect (url : string) (token : option string)
  : result DataverseClient :=
  if String.prefix "http://" url || String.prefix "https://" url
  then Ok {| server_url := Some url; api_token := token |}
  else Raise PydanticValidationError.

Definition sample_environment : Environment :=
  {| uuid4 n := "uuid-" +:+ pretty n;
     datetime_now := 1730000000;
     Dataverse_connect := sample_connect;
     load_dataset client doi :=
       Ok {| dataset_metadatablocks := [("citation", sample_citation)] |};
     requests_get url :=
       Ok {| status_code := 200; json_data_fields := Ok sample_schema |};
     py_repr v := "<object>";
     str_lower := sample_lower false;
     uuid_syntax := sample_uuid_syntax |}.

Definition empty_store : Store :=
  {| reviewers := []; reviews := []; metadatablocks := []; compounds := [];
     fields := []; files := []; messages := [] |}.

Definition empty_world : World :=
  {| db := empty_store; uuid_drawn := 0; http_log := [] |}.

Definition sample_review : Review.t :=
  {| Review.id := "r1"; Review.reviewer := None;
     Review.doi := "doi:10.5072/FK2/ICE";
     Review.site_url := Some "https://demo.dataverse.org/";
     Review.revision := 1; Review.accepted := false;
     Review.date := 1720000000 |}.

Definition sample_block : Metadatablock.t :=
  {| Metadatablock.id := "b1"; Metadatablock.review := "r1";
     Metadatablock.name := "citation"; Metadatablock.description := "" |}.

Definition sample_compound : Compound.t :=
  {| Compound.id := "c1"; Compound.metadatablock := "b1";
     Compound.name := "author"; Compound.description := "";
     Compound.accepted := false; Compound.field_type := "compound" |}.

Definition sample_field (pk : string) (block compound : option string)
    (name : string) (accepted : option bool) : Field.t :=
  {| Field.id := pk; Field.metadatablock := block; Field.compound := compound;
     Field.name := name; Field.description := "";
     Field.accepted := accepted; Field.value := "x";
     Field.history := {[ "Original" := "x" ]};
     Field.field_type := "primitive" |}.

(** A review with three primitives directly under its block (two of
    them accepted) and two under a compound of that block (one
    accepted). *)
Definition sample_store : Store :=
  {| reviewers := [];
     reviews := [sample_review];
     metadatablocks := [sample_block];
     compounds := [sample_compound];
     fields :=
       [sample_field "f1" (Some "b1") None "title" (Some true);
        sample_field "f2" (Some "b1") None "subtitle" (Some true);
        sample_field "f3" (Some "b1") None "keyword" None;
        sample_field "f4" None (Some "c1") "name" (Some true);
        sample_field "f5" None (Some "c1") "affiliation" (Some false)];
     files := [];
     messages := [] |}.

Definition sample_world : World :=
  {| db := sample_store; uuid_drawn := 7; http_log := [] |}.

(** A fetch request that names the stored DOI but no site. *)
Definition request_without_site_url : Request :=
  {| query_params := {[ "doi" := "doi:10.5072/FK2/ICE" ]} |}.

Definition request_complete : Request :=
  {| query_params := {[ "doi" := "doi:10.5072/FK2/ICE";
                        "site_url" := "https://demo.dataverse.org/" ]} |}.

(** A re-fetch of the stored DOI with a site that is no URL. *)
Definition request_with_bad_site_url : Request :=
  {| query_params := {[ "doi" := "doi:10.5072/FK2/ICE";
                        "site_url" := "demo.dataverse.org" ]} |}.

Definition request_without_doi : Request :=
  {| query_params := {[ "site_url" := "https://demo.dataverse.org/" ]} |}.






(** The sample environment, except that the remote dataset has only an
    empty citation block. *)
Definition environment_with_empty_dataset : Environment :=
  {| uuid4 n := "uuid-" +:+ pretty n;
     datetime_now := 1730000000;
     Dataverse_connect := sample_connect;
     load_dataset client doi :=
       Ok {| dataset_metadatablocks := [("citation", empty_citation)] |};
     requests_get url :=
       Ok {| status_code := 200; json_data_fields := Ok sample_schema |};
     py_repr v := "<object>";
     str_lower := sample_lower false;
     uuid_syntax := sample_uuid_syntax |}.

(** ** Further sample data *)

(** A citation block whose keyword list holds a null: flattening it
    fails at the join. *)
Definition unjoinable_citation : value :=
  VObj [("title", VStr "Ice cores");
        ("keyword", VList [VStr "ice"; VNone])] citation_fields.

(** The sample environment, except that the remote dataset has the
    sample block followed by the block that cannot be flattened. *)
Definition environment_with_unjoinable_dataset : Environment :=
  {| uuid4 n := "uuid-" +:+ pretty n;
     datetime_now := 1730000000;
     Dataverse_connect := sample_connect;
     load_dataset client doi :=
       Ok {| dataset_metadatablocks :=
               [("citation", sample_citation);
                ("geospatial", unjoinable_citation)] |};
     requests_get url :=
       Ok {| status_code := 200; json_data_fields := Ok sample_schema |};
     py_repr v := "<object>";
     str_lower := sample_lower false;
     uuid_syntax := sample_uuid_syntax |}.

Definition request_new_doi : Request :=
  {| query_params := {[ "doi" := "doi:10.5072/FK2/NEW";
                        "site_url" := "https://demo.dataverse.org" ]} |}.

(** The sample environment with a server that knows the citation schema
    only: every other request is answered 404. *)
Definition environment_with_citation_only : Environment :=
  {| uuid4 n := "uuid-" +:+ pretty n;
     datetime_now := 1730000000;
     Dataverse_connect := sample_connect;
     load_dataset client doi :=
       Ok {| dataset_metadatablocks := [("citation", sample_citation)] |};
     requests_get url :=
       if String.eqb url
            "https://demo.dataverse.org/api/metadatablocks/citation"
       then Ok {| status_code := 200; json_data_fields := Ok sample_schema |}
       else Ok {| status_code := 404;
                  json_data_fields := Raise KeyError |};
     py_repr v := "<object>";
     str_lower := sample_lower false;
     uuid_syntax := sample_uuid_syntax |}.

Definition geospatial_block : Metadatablock.t :=
  {| Metadatablock.id := "b2"; Metadatablock.review := "r1";
     Metadatablock.name := "geospatial"; Metadatablock.description := "" |}.

Definition journal_block : Metadatablock.t :=
  {| Metadatablock.id := "b3"; Metadatablock.review := "r1";
     Metadatablock.name := "journal"; Metadatablock.description := "" |}.

(** The sample store with two more blocks under the review. *)
Definition three_block_world : World :=
  {| db := with_rows sample_store [geospatial_block; journal_block] [] [];
     uuid_drawn := 9; http_log := [] |}.

(** A stored review without any block. *)
Definition bare_world : World :=
  {| db := {| reviewers := []; reviews := [sample_review];
              metadatablocks := []; compounds := []; fields := [];
              files := []; messages := [] |};
     uuid_drawn := 1; http_log := [] |}.

(** A review stored without a site URL. *)
Definition review_without_site_url : Review.t :=
  {| Review.id := "r2"; Review.reviewer := None;
     Review.doi := "doi:10.5072/FK2/NOSITE"; Review.site_url := None;
     Review.revision := 1; Review.accepted := false;
     Review.date := 1730000000 |}.

Definition world_without_site_url : World :=
  {| db := {| reviewers := []; reviews := [review_without_site_url];
              metadatablocks := []; compounds := []; fields := [];
              files := []; messages := [] |};
     uuid_drawn := 1; http_log := [] |}.

(** * Properties *)

(** ** Induction over nested values *)

Lemma value_nested_ind (P : value -> Prop) :
  P VNone ->
  (forall s, P (VStr s)) ->
  (forall l, Forall P l -> P (VList l)) ->
  (forall items model_fields,
      Forall (fun kv => P kv.2) items -> P (VObj items model_fields)) ->
  forall v, P v.
Proof.
  intros HNone HStr HList HObj.
  fix IH 1. intros [ | s | l | items mf].
  - exact HNone.
  - apply HStr.
  - apply HList. induction l as [ | x l IHl]; constructor; [apply IH | exact IHl].
  - apply HObj. induction items as [ | [k x] items IHitems]; constructor;
      [apply IH | exact IHitems].
Qed.

(** ** The emptiness filter *)

Lemma first_false_else_last_forallb (verdicts : list bool) :
  first_false_else_last verdicts = forallb id verdicts.
Proof.
  unfold first_false_else_last.
  induction verdicts as [ | b bs IH]; [reflexivity | ].
  destruct b; simpl; [ | reflexivity].
  rewrite <- IH. destruct (List.find negb bs) eqn:Hfind; [reflexivity | ].
  destruct bs as [ | b' bs']; [reflexivity | ].
  reflexivity.
Qed.

Lemma all_is_empty_spec (l : list value) :
  Forall (fun e => conforms e = true -> _is_empty e = Ok (is_empty_spec e)) l ->
  forallb (fun e => is_instance e && conforms e) l = true ->
  all_is_empty _is_empty l = Ok (forallb is_empty_spec l).
Proof.
  induction 1 as [ | e l He _ IH]; intros Hc; [reflexivity | ].
  simpl in Hc. apply andb_prop in Hc as [Hce Hcl].
  apply andb_prop in Hce as [_ Hce].
  simpl. rewrite (He Hce). simpl. rewrite (IH Hcl). reflexivity.
Qed.

Lemma field_is_empty_spec (info : FieldInfo) (v : value) :
  (conforms v = true -> _is_empty v = Ok (is_empty_spec v)) ->
  (forall l, v = VList l ->
     Forall (fun e => conforms e = true -> _is_empty e = Ok (is_empty_spec e)) l) ->
  field_conforms conforms info v = true ->
  field_is_empty _is_empty info v = Ok (field_empty_spec is_empty_spec info v).
Proof.
  intros Hv Hl. unfold field_conforms, field_is_empty, field_empty_spec.
  destruct (is_compound info), (is_multiple info); simpl.
  - destruct v as [ | s | l | items mf]; try discriminate.
    intros Hc. apply all_is_empty_spec; [apply (Hl l eq_refl) | exact Hc].
  - intros Hc. apply andb_prop in Hc as [_ Hc]. apply Hv, Hc.
  - destruct v as [ | s | l | items mf]; try discriminate. reflexivity.
  - reflexivity.
Qed.

Lemma last_nonempty_default {A} (x : A) (l : list A) (d d' : A) :
  List.last (x :: l) d = List.last (x :: l) d'.
Proof.
  revert x. induction l as [ | y l IH]; intros x; [reflexivity | ].
  change (List.last (y :: l) d = List.last (y :: l) d'). apply IH.
Qed.

Lemma is_empty_loop_spec (model_fields : gmap string FieldInfo)
    (items : list (string * value)) (empty : bool) :
  Forall (fun kv =>
    (conforms kv.2 = true -> _is_empty kv.2 = Ok (is_empty_spec kv.2)) /\
    (forall l, kv.2 = VList l ->
       Forall (fun e => conforms e = true -> _is_empty e = Ok (is_empty_spec e)) l))
    items ->
  conforms (VObj items model_fields) = true ->
  is_empty_loop _is_empty model_fields items empty =
    Ok (match List.find negb (verdicts_with is_empty_spec model_fields items) with
        | Some _ => false
        | None => List.last (verdicts_with is_empty_spec model_fields items) empty
        end).
Proof.
  intros Hitems. revert empty.
  induction Hitems as [ | [name v] items [Hv Hl] _ IH]; intros empty Hc;
    [reflexivity | ].
  simpl in Hc. apply andb_prop in Hc as [Hcv Hcs].
  simpl in *. destruct (model_fields !! name) as [info | ]; [ | discriminate].
  rewrite (field_is_empty_spec info v Hv Hl Hcv).
  destruct (field_empty_spec is_empty_spec info v) eqn:Hverdict; simpl;
    [ | reflexivity].
  rewrite (IH true Hcs).
  destruct (List.find negb (verdicts_with is_empty_spec model_fields items));
    [reflexivity | ].
  destruct (verdicts_with is_empty_spec model_fields items) as [ | b bs];
    [reflexivity | ].
  f_equal. apply (last_nonempty_default b bs).
Qed.

Lemma is_empty_refines_with_lists (v : value) :
  (conforms v = true -> _is_empty v = Ok (is_empty_spec v)) /\
  (forall l, v = VList l ->
     Forall (fun e => conforms e = true -> _is_empty e = Ok (is_empty_spec e)) l).
Proof.
  induction v as [ | s | l IH | items mf IH] using value_nested_ind.
  - split; [reflexivity | discriminate].
  - split; [reflexivity | discriminate].
  - split; [reflexivity | ].
    intros l' [= <-]. eapply Forall_impl; [exact IH | ].
    intros e [He _]. exact He.
  - split; [ | discriminate].
    intros Hc. simpl.
    rewrite (is_empty_loop_spec mf items true IH Hc). reflexivity.
Qed.

Lemma is_empty_refines (node : value) :
  conforms node = true -> _is_empty node = Ok (is_empty_spec node).
Proof. apply is_empty_refines_with_lists. Qed.

Lemma is_empty_loop_stops (rec : value -> result bool)
    (model_fields : gmap string FieldInfo)
    (items more : list (string * value)) :
  is_empty_loop rec model_fields items true = Ok false ->
  is_empty_loop rec model_fields (items ++ more) true = Ok false.
Proof.
  induction items as [ | [name v] items IH]; simpl; [discriminate | ].
  destruct (model_fields !! name) as [info | ]; [ | discriminate].
  destruct (field_is_empty rec info v) as [[ | ] | e];
    [exact IH | reflexivity | discriminate].
Qed.

Lemma forallb_is_None_leaves (l : list value) :
  forallb is_None l = true <-> Forall (fun leaf => leaf = VNone) l.
Proof.
  induction l as [ | x l IH]; simpl.
  - split; [constructor | reflexivity].
  - rewrite andb_true_iff, IH, Forall_cons.
    destruct x; simpl; split; intros [H1 H2]; (split; [ | exact H2]);
      first [reflexivity | discriminate].
Qed.

Lemma is_empty_spec_leaves (node : value) :
  conforms node = true ->
  is_empty_spec node = true <-> Forall (fun leaf => leaf = VNone) (leaves node).
Proof.
  enough (Hgen :
    (conforms node = true ->
     is_empty_spec node = true <-> Forall (fun leaf => leaf = VNone) (leaves node)) /\
    (forall l, node = VList l ->
       Forall (fun e => conforms e = true ->
         is_empty_spec e = true <-> Forall (fun leaf => leaf = VNone) (leaves e)) l))
    by apply Hgen.
  induction node as [ | s | l IH | items mf IH] using value_nested_ind.
  - split; [ | discriminate]. intros _. simpl. split; [constructor | reflexivity].
  - split; [ | discriminate]. intros _. simpl. split; [constructor | reflexivity].
  - split.
    + intros _. simpl. split; [constructor | reflexivity].
    + intros l' [= <-]. eapply Forall_impl; [exact IH | ].
      intros e [He _]. exact He.
  - split; [ | discriminate].
    intros Hc. simpl. rewrite first_false_else_last_forallb.
    simpl in Hc. induction IH as [ | [name v] items [Hv Hl] _ IHitems].
    + simpl. split; [constructor | reflexivity].
    + simpl in Hc. apply andb_prop in Hc as [Hcv Hcs]. simpl in *.
      rewrite andb_true_iff, Forall_app, (IHitems Hcs).
      enough (Hfield :
        match mf !! name with
        | Some info => field_empty_spec is_empty_spec info v
        | None => true
        end = true <->
        Forall (fun leaf => leaf = VNone)
          match mf !! name with
          | Some info => field_leaves leaves info v
          | None => []
          end) by (unfold id; rewrite Hfield; reflexivity).
      destruct (mf !! name) as [info | ]; [ | discriminate].
      unfold field_conforms in Hcv.
      unfold field_empty_spec, field_leaves.
      destruct (is_compound info), (is_multiple info); simpl in *.
      * destruct v as [ | s | l | items' mf']; try discriminate.
        specialize (Hl l eq_refl). clear Hv.
        induction Hl as [ | e l He _ IHl]; simpl.
        -- split; [constructor | reflexivity].
        -- simpl in Hcv. apply andb_prop in Hcv as [Hce Hcl].
           apply andb_prop in Hce as [_ Hce].
           rewrite andb_true_iff, Forall_app, (He Hce), (IHl Hcl). reflexivity.
      * apply andb_prop in Hcv as [_ Hcv]. apply Hv, Hcv.
      * destruct v as [ | s | l | items' mf']; try discriminate.
        apply forallb_is_None_leaves.
      * rewrite Forall_cons, Forall_nil.
        destruct v; simpl; split; try discriminate; try tauto.
        all: try (intros [[=] _]).
Qed.

(** C2.  For a schema-conformant node the emptiness check returns the
    verdict the specification describes: false at the first field found
    non-empty, otherwise the verdict of the last field examined, where a
    repeatable compound is empty iff every instance is, a single compound
    iff it is, a repeatable primitive iff every element is null and a
    single primitive iff its value is null.  That verdict is true exactly
    when every reachable leaf value is null; once a field is found
    non-empty the fields declared after it are not examined; and a node
    with no fields, or without a field schema, is reported empty. *)
Theorem is_empty_characterisation (node : value)
    (more : list (string * value)) :
  conforms node = true ->
  _is_empty node = Ok (is_empty_spec node)
  /\ (is_empty_spec node = true <->
      Forall (fun leaf => leaf = VNone) (leaves node))
  /\ (is_empty_spec node = false ->
      _is_empty (with_more_fields node more) = Ok false)
  /\ (node_fields node = [] -> _is_empty node = Ok true).
Proof.
  intros Hc. pose proof (is_empty_refines node Hc) as Hrefines.
  split; [exact Hrefines | ].
  split; [exact (is_empty_spec_leaves node Hc) | ].
  split.
  - intros Hfalse. rewrite Hfalse in Hrefines.
    destruct node as [ | s | l | items mf]; try discriminate.
    simpl in *. apply is_empty_loop_stops, Hrefines.
  - destruct node as [ | s | l | items mf]; try reflexivity.
    simpl. intros ->. reflexivity.
Qed.

Lemma is_empty_characterisation_witness :
  conforms empty_citation = true
  /\ _is_empty empty_citation = Ok true
  /\ Forall (fun leaf => leaf = VNone) (leaves empty_citation).
Proof.
  assert (Hconforms : conforms empty_citation = true)
    by (vm_compute; reflexivity).
  destruct (is_empty_characterisation empty_citation [] Hconforms)
    as (Hrefines & Hleaves & _).
  assert (Hspec : is_empty_spec empty_citation = true)
    by (vm_compute; reflexivity).
  split; [exact Hconforms | ].
  split; [rewrite Hrefines, Hspec; reflexivity | ].
  apply Hleaves, Hspec.
Defined.

(** ** Running handlers *)

Lemma run_bind {A B} (m : Handler A) (f : A -> Handler B) (w : World) :
  (m ≫= f) w =
    match m w with
    | (w', Ok a) => f a w'
    | (w', Raise e) => (w', Raise e)
    end.
Proof. reflexivity. Qed.

Lemma run_lift_bind {A B} (r : result A) (f : A -> Handler B) (w : World) :
  (lift r ≫= f) w =
    match r with
    | Ok a => f a w
    | Raise e => (w, Raise e)
    end.
Proof. rewrite run_bind. unfold lift. destruct r; reflexivity. Qed.

Lemma with_rows_nil (s : Store) : with_rows s [] [] [] = s.
Proof. destruct s. unfold with_rows. simpl. rewrite !app_nil_r. reflexivity. Qed.

Lemma grown_nil (w : World) : grown w [] [] [] = w.
Proof.
  destruct w. unfold grown. simpl. rewrite with_rows_nil.
  f_equal. lia.
Qed.

Lemma grown_grown (w : World) b1 c1 f1 b2 c2 f2 :
  grown (grown w b1 c1 f1) b2 c2 f2 = grown w (b1 ++ b2) (c1 ++ c2) (f1 ++ f2).
Proof.
  unfold grown, with_rows. simpl. rewrite !length_app, <- !app_assoc.
  f_equal. lia.
Qed.

Section Flattener.
Context `{Environment}.

Lemma create_field (kw : FieldKwargs.t) (w : World) :
  _create_and_save Field.t kw w =
    (grown w [] [] [instantiate (R := Field.t) (uuid4 (uuid_drawn w)) kw],
     Ok (instantiate (R := Field.t) (uuid4 (uuid_drawn w)) kw)).
Proof.
  unfold _create_and_save, grown, with_rows. simpl.
  rewrite !app_nil_r. repeat f_equal. lia.
Qed.

Lemma create_compound (kw : CompoundKwargs.t) (w : World) :
  _create_and_save Compound.t kw w =
    (grown w [] [instantiate (R := Compound.t) (uuid4 (uuid_drawn w)) kw] [],
     Ok (instantiate (R := Compound.t) (uuid4 (uuid_drawn w)) kw)).
Proof.
  unfold _create_and_save, grown, with_rows. simpl.
  rewrite !app_nil_r. repeat f_equal. lia.
Qed.

Lemma create_metadatablock (kw : MetadatablockKwargs.t) (w : World) :
  _create_and_save Metadatablock.t kw w =
    (grown w [instantiate (R := Metadatablock.t) (uuid4 (uuid_drawn w)) kw] [] [],
     Ok (instantiate (R := Metadatablock.t) (uuid4 (uuid_drawn w)) kw)).
Proof.
  unfold _create_and_save, grown, with_rows. simpl.
  rewrite !app_nil_r. repeat f_equal. lia.
Qed.

(** One iteration of the block-level loop on a (name, value) pair. *)
Lemma metadatablock_loop_cons (block : value) (fk : Metadatablock.t)
    (n : string) (v : value) (rest : list value) (w : World) :
  process_metadatablock_loop block fk (VList [VStr n; v] :: rest) w =
    if skipped (n, v) then process_metadatablock_loop block fk rest w
    else
      match get_model_fields block ≫= (fun mf => getitem mf n) with
      | Raise e => (w, Raise e)
      | Ok info =>
          if negb (is_compound info) then
            match _process_primitive n v info None with
            | Raise e => (w, Raise e)
            | Ok attrs =>
                process_metadatablock_loop block fk rest
                  (grown w [] []
                     [instantiate (R := Field.t) (uuid4 (uuid_drawn w))
                        {| FieldKwargs.metadatablock := Some fk;
                           FieldKwargs.compound := None;
                           FieldKwargs.attrs := attrs |}])
            end
          else
            match process_entries n fk (as_entries v) w with
            | (w', Ok _) => process_metadatablock_loop block fk rest w'
            | (w', Raise e) => (w', Raise e)
            end
      end.
Proof.
  unfold skipped. cbn [process_metadatablock_loop fst snd].
  rewrite run_lift_bind. cbn [unpack_pair]. rewrite run_lift_bind.
  cbn [as_name].
  destruct (startswith_underscore n); [reflexivity | ].
  destruct (is_None v); [reflexivity | ].
  destruct (eq_empty_list v); [reflexivity | ].
  cbn [orb]. rewrite run_lift_bind.
  destruct (get_model_fields block) as [mf | e]; [ | reflexivity].
  rewrite run_lift_bind. cbn [mbind result_bind].
  destruct (getitem mf n) as [info | e]; [ | reflexivity].
  destruct (negb (is_compound info)).
  - rewrite run_lift_bind.
    destruct (_process_primitive n v info None) as [attrs | e];
      [ | reflexivity].
    rewrite run_bind, create_field. reflexivity.
  - rewrite run_bind. reflexivity.
Qed.

(** One iteration of the compound-level loop on a (name, value) pair. *)
Lemma compound_loop_cons (compound : value) (fk : Compound.t)
    (n : string) (v : value) (rest : list value) (w : World) :
  process_compound_loop compound fk (VList [VStr n; v] :: rest) w =
    if startswith_underscore n || is_None v then
      process_compound_loop compound fk rest w
    else
      match get_model_fields compound ≫= (fun mf => getitem mf n) with
      | Raise e => (w, Raise e)
      | Ok info =>
          match _process_primitive n v info (Some fk) with
          | Raise e => (w, Raise e)
          | Ok attrs =>
              process_compound_loop compound fk rest
                (grown w [] []
                   [instantiate (R := Field.t) (uuid4 (uuid_drawn w))
                      {| FieldKwargs.metadatablock := None;
                         FieldKwargs.compound := Some fk;
                         FieldKwargs.attrs := attrs |}])
          end
      end.
Proof.
  cbn [process_compound_loop].
  rewrite run_lift_bind. cbn [unpack_pair]. rewrite run_lift_bind.
  cbn [as_name].
  destruct (startswith_underscore n || is_None v); [reflexivity | ].
  rewrite run_lift_bind.
  destruct (get_model_fields compound) as [mf | e]; [ | reflexivity].
  rewrite run_lift_bind. cbn [mbind result_bind].
  destruct (getitem mf n) as [info | e]; [ | reflexivity].
  rewrite run_lift_bind.
  destruct (_process_primitive n v info (Some fk)) as [attrs | e];
    [ | reflexivity].
  rewrite run_bind, create_field. reflexivity.
Qed.

Lemma entries_cons (field_name : string) (fk : Metadatablock.t)
    (entry : value) (rest : list value) (w : World) :
  process_entries field_name fk (entry :: rest) w =
    let compound :=
      instantiate (R := Compound.t) (uuid4 (uuid_drawn w))
        {| CompoundKwargs.metadatablock := fk;
           CompoundKwargs.name := field_name |} in
    match _process_compound entry compound (grown w [] [compound] []) with
    | (w', Ok _) => process_entries field_name fk rest w'
    | (w', Raise e) => (w', Raise e)
    end.
Proof.
  cbn [process_entries]. rewrite run_bind, create_compound.
  cbn zeta. rewrite run_bind. reflexivity.
Qed.

Lemma process_primitive_name (n : string) (v : value) (info : FieldInfo)
    (parent : option Compound.t) (attrs : PrimitiveAttrs.t) :
  _process_primitive n v info parent = Ok attrs ->
  PrimitiveAttrs.name attrs = n.
Proof.
  unfold _process_primitive.
  destruct (match v with VList l => VStr <$> str_join ", " l | _ => Ok v end)
    as [v' | e]; [ | discriminate].
  intros [= <-]. reflexivity.
Qed.

Lemma process_primitive_seeded (n : string) (v : value) (info : FieldInfo)
    (parent : option Compound.t) (attrs : PrimitiveAttrs.t) :
  _process_primitive n v info parent = Ok attrs ->
  PrimitiveAttrs.history attrs = {[ "Original" := PrimitiveAttrs.value attrs ]}.
Proof.
  unfold _process_primitive.
  destruct (match v with VList l => VStr <$> str_join ", " l | _ => Ok v end)
    as [v' | e]; [ | discriminate].
  intros [= <-]. reflexivity.
Qed.

Local Ltac nothing_created :=
  exists []; rewrite grown_nil; split; [reflexivity | constructor].

(** The compound-level loop only appends Field rows, all of them
    children of the compound row it was given. *)
Lemma compound_loop_rows (compound : value) (fk : Compound.t)
    (todo : list value) (w : World) :
  exists new_fields,
    (process_compound_loop compound fk todo w).1 = grown w [] [] new_fields
    /\ Forall (fun f => Field.metadatablock f = None
                        /\ Field.compound f = Some (Compound.id fk)
                        /\ seeded f)
         new_fields.
Proof.
  revert w. induction todo as [ | x rest IH]; intros w; [nothing_created | ].
  cbn [process_compound_loop]. rewrite run_lift_bind.
  destruct (unpack_pair x) as [[field_name v] | e]; [ | nothing_created].
  rewrite run_lift_bind.
  destruct (as_name field_name) as [n | e]; [ | nothing_created].
  destruct (startswith_underscore n || is_None v); [apply IH | ].
  rewrite run_lift_bind.
  destruct (get_model_fields compound) as [mf | e]; [ | nothing_created].
  rewrite run_lift_bind.
  destruct (getitem mf n) as [info | e]; [ | nothing_created].
  rewrite run_lift_bind.
  destruct (_process_primitive n v info (Some fk)) as [attrs | e] eqn:Hprim;
    [ | nothing_created].
  rewrite run_bind, create_field.
  match goal with
  | |- context [process_compound_loop _ _ _ (grown w [] [] [?row])] =>
      destruct (IH (grown w [] [] [row])) as (new_fields & Heq & Hall);
      exists (row :: new_fields)
  end.
  rewrite Heq, grown_grown. split; [reflexivity | ].
  constructor; [ | exact Hall].
  split; [reflexivity | ]. split; [reflexivity | ].
  exact (process_primitive_seeded _ _ _ _ _ Hprim).
Qed.

Lemma process_compound_rows (entry : value) (fk : Compound.t) (w : World) :
  exists new_fields,
    (_process_compound entry fk w).1 = grown w [] [] new_fields
    /\ Forall (fun f => Field.metadatablock f = None
                        /\ Field.compound f = Some (Compound.id fk)
                        /\ seeded f)
         new_fields.
Proof.
  unfold _process_compound. rewrite run_lift_bind.
  destruct (py_iter entry) as [todo | e]; [ | nothing_created].
  apply compound_loop_rows.
Qed.

(** Every entry of a compound field gets one Compound row under the
    block; the Field rows below are children of compounds. *)
Lemma entries_rows (field_name : string) (fk : Metadatablock.t)
    (entries : list value) (w : World) :
  exists new_compounds new_fields,
    (process_entries field_name fk entries w).1 =
      grown w [] new_compounds new_fields
    /\ Forall (fun c => Compound.metadatablock c = Metadatablock.id fk
                        /\ Compound.name c = field_name) new_compounds
    /\ Forall (fun f => Field.metadatablock f = None /\ seeded f) new_fields
    /\ ((process_entries field_name fk entries w).2 = Ok () ->
        List.length new_compounds = List.length entries).
Proof.
  revert w. induction entries as [ | entry rest IH]; intros w.
  - exists [], []. rewrite grown_nil. repeat split; constructor.
  - rewrite entries_cons. cbn zeta.
    set (compound := instantiate (uuid4 (uuid_drawn w)) _).
    destruct (process_compound_rows entry compound (grown w [] [compound] []))
      as (fields1 & Heq1 & Hall1).
    destruct (_process_compound entry compound (grown w [] [compound] []))
      as [w1 [[] | e]]; simpl in Heq1; subst w1.
    + rewrite grown_grown. cbn [app].
      destruct (IH (grown w [] [compound] fields1))
        as (compounds2 & fields2 & Heq2 & Hc2 & Hf2 & Hlen2).
      exists (compound :: compounds2), (fields1 ++ fields2)%list.
      rewrite Heq2, !grown_grown. simpl.
      split; [reflexivity | ].
      split; [constructor; [split; reflexivity | exact Hc2] | ].
      split.
      * apply Forall_app. split; [ | exact Hf2].
        eapply Forall_impl; [exact Hall1 | ]. intros f (Hf & _ & Hs).
        split; assumption.
      * intros Hok. f_equal. apply Hlen2, Hok.
    + exists [compound], fields1. rewrite grown_grown. simpl.
      split; [reflexivity | ].
      split; [constructor; [split; reflexivity | constructor] | ].
      split; [ | discriminate].
      eapply Forall_impl; [exact Hall1 | ]. intros f (Hf & _ & Hs).
      split; assumption.
Qed.

Lemma direct_children_none (fk : Metadatablock.t) (rows : list Field.t) :
  Forall (fun f => Field.metadatablock f = None) rows ->
  direct_children fk rows = [].
Proof.
  unfold direct_children.
  induction 1 as [ | f rows Hf _ IH]; [reflexivity | ].
  rewrite filter_cons_False; [exact IH | ]. rewrite Hf. discriminate.
Qed.

Lemma names_replicate (n : string) (rows : list Compound.t) :
  Forall (fun c => Compound.name c = n) rows ->
  Compound.name <$> rows = replicate (List.length rows) n.
Proof.
  induction 1 as [ | c rows Hc _ IH]; [reflexivity | ].
  simpl. rewrite Hc, <- IH. reflexivity.
Qed.

(** The rows the block-level loop creates: Compound rows under the
    block and Field rows; when it returns, their names are the expected
    ones, in order. *)
Lemma metadatablock_loop_rows (block : value)
    (mf : gmap string FieldInfo) (fk : Metadatablock.t)
    (items : list (string * value)) (w : World) :
  get_model_fields block = Ok mf ->
  exists new_compounds new_fields,
    (process_metadatablock_loop block fk
       ((fun kv => VList [VStr kv.1; kv.2]) <$> items) w).1 =
      grown w [] new_compounds new_fields
    /\ Forall (fun c => Compound.metadatablock c = Metadatablock.id fk)
         new_compounds
    /\ Forall seeded new_fields
    /\ ((process_metadatablock_loop block fk
          ((fun kv => VList [VStr kv.1; kv.2]) <$> items) w).2 = Ok () ->
        Field.name <$> direct_children fk new_fields =
          expected_field_names mf items
        /\ Compound.name <$> new_compounds =
             expected_compound_names mf items).
Proof.
  intros Hmf. revert w.
  induction items as [ | [n v] items IH]; intros w.
  - exists [], []. rewrite grown_nil. repeat split; constructor.
  - rewrite fmap_cons. cbn [fst snd]. rewrite metadatablock_loop_cons.
    unfold expected_field_names, expected_compound_names,
      kept_primitive, kept_compound.
    cbn [List.filter fst snd].
    destruct (skipped (n, v)) eqn:Hskip; [apply IH | ].
    rewrite Hmf. cbn [mbind result_bind negb andb]. unfold getitem.
    destruct (mf !! n) as [info | ] eqn:Hlook.
    2: { exists [], []. rewrite grown_nil.
         split; [reflexivity | ].
         split; [constructor | split; [constructor | discriminate]]. }
    destruct (is_compound info) eqn:Hcompound; cbn [negb].
    + destruct (entries_rows n fk (as_entries v) w)
        as (compounds1 & fields1 & Heq1 & Hc1 & Hf1 & Hlen1).
      destruct (process_entries n fk (as_entries v) w) as [w1 [[] | e]];
        simpl in Heq1; subst w1.
      * destruct (IH (grown w [] compounds1 fields1))
          as (compounds2 & fields2 & Heq2 & Hc2 & Hs2 & Hnames).
        exists (compounds1 ++ compounds2)%list, (fields1 ++ fields2)%list.
        rewrite Heq2, grown_grown.
        split; [reflexivity | ].
        split.
        { apply Forall_app. split; [ | exact Hc2].
          eapply Forall_impl; [exact Hc1 | ]. intros c [Hc _]. exact Hc. }
        split.
        { apply Forall_app. split; [ | exact Hs2].
          eapply Forall_impl; [exact Hf1 | ]. intros f [_ Hs]. exact Hs. }
        intros Hok. destruct (Hnames Hok) as [Hfields Hcompounds].
        split.
        { unfold direct_children in *. rewrite filter_app.
          fold (direct_children fk fields1).
          rewrite (direct_children_none fk fields1); [exact Hfields | ].
          eapply Forall_impl; [exact Hf1 | ]. intros f [Hf _]. exact Hf. }
        rewrite fmap_app, Hcompounds. cbn [List.flat_map fst snd]. f_equal.
        rewrite <- (Hlen1 eq_refl). apply names_replicate.
        eapply Forall_impl; [exact Hc1 | ]. intros c [_ Hc]. exact Hc.
      * exists compounds1, fields1.
        split; [reflexivity | ].
        split.
        { eapply Forall_impl; [exact Hc1 | ]. intros c [Hc _]. exact Hc. }
        split; [ | discriminate].
        eapply Forall_impl; [exact Hf1 | ]. intros f [_ Hs]. exact Hs.
    + destruct (_process_primitive n v info None) as [attrs | e] eqn:Hprim.
      2: { exists [], []. rewrite grown_nil.
           split; [reflexivity | ].
           split; [constructor | split; [constructor | discriminate]]. }
      match goal with
      | |- context [process_metadatablock_loop _ _ _ (grown w [] [] [?row])] =>
          destruct (IH (grown w [] [] [row]))
            as (compounds2 & fields2 & Heq2 & Hc2 & Hs2 & Hnames);
          exists compounds2, (row :: fields2)
      end.
      rewrite Heq2, grown_grown.
      split; [reflexivity | ].
      split; [exact Hc2 | ].
      split.
      { constructor; [ | exact Hs2].
        exact (process_primitive_seeded _ _ _ _ _ Hprim). }
      intros Hok. destruct (Hnames Hok) as [Hfields Hcompounds].
      split; [ | exact Hcompounds].
      unfold direct_children in *.
      rewrite filter_cons_True by reflexivity.
      rewrite fmap_cons, Hfields. cbn.
      rewrite (process_primitive_name _ _ _ _ _ Hprim). reflexivity.
Qed.

(** Skipped fields leave no trace: the loop over a block behaves as the
    loop over the block without them. *)
Lemma metadatablock_loop_skips (block block' : value)
    (fk : Metadatablock.t) (items : list (string * value)) (w : World) :
  get_model_fields block = get_model_fields block' ->
  process_metadatablock_loop block fk
    ((fun kv => VList [VStr kv.1; kv.2]) <$> items) w =
  process_metadatablock_loop block' fk
    ((fun kv => VList [VStr kv.1; kv.2])
       <$> List.filter (fun kv => negb (skipped kv)) items) w.
Proof.
  intros Hmf. revert w.
  induction items as [ | [n v] items IH]; intros w; [reflexivity | ].
  cbn [List.filter]. rewrite fmap_cons. cbn [fst snd].
  rewrite metadatablock_loop_cons.
  destruct (skipped (n, v)) eqn:Hskip; cbn [negb]; [apply IH | ].
  rewrite fmap_cons. cbn [fst snd].
  rewrite metadatablock_loop_cons, Hskip, <- Hmf.
  destruct (get_model_fields block ≫= (fun mf => getitem mf n))
    as [info | e]; [ | reflexivity].
  destruct (negb (is_compound info)).
  - destruct (_process_primitive n v info None); [apply IH | reflexivity].
  - destruct (process_entries n fk (as_entries v) w) as [w1 [[] | e]];
      [apply IH | reflexivity].
Qed.

Lemma process_metadatablock_skips (items : list (string * value))
    (mf : gmap string FieldInfo) (fk : Metadatablock.t) (w : World) :
  _process_metadatablock (VObj items mf) fk w =
  _process_metadatablock
    (VObj (List.filter (fun kv => negb (skipped kv)) items) mf) fk w.
Proof.
  unfold _process_metadatablock. rewrite !run_lift_bind. cbn [py_iter].
  apply metadatablock_loop_skips. reflexivity.
Qed.

Lemma fetch_blocks_cons (review : Review.t) (block_name : string)
    (block : value) (rest : list (string * value)) (w : World) :
  fetch_blocks review ((block_name, block) :: rest) w =
    match _is_empty block with
    | Raise e => (w, Raise e)
    | Ok true => fetch_blocks review rest w
    | Ok false =>
        let metadatablock :=
          instantiate (R := Metadatablock.t) (uuid4 (uuid_drawn w))
            {| MetadatablockKwargs.review := review;
               MetadatablockKwargs.name := block_name |} in
        match _process_metadatablock block metadatablock
                (grown w [metadatablock] [] []) with
        | (w', Ok _) => fetch_blocks review rest w'
        | (w', Raise e) => (w', Raise e)
        end
    end.
Proof.
  cbn [fetch_blocks]. rewrite run_lift_bind.
  destruct (_is_empty block) as [[ | ] | e]; try reflexivity.
  rewrite run_bind, create_metadatablock. cbn zeta.
  rewrite run_bind. reflexivity.
Qed.

Lemma fetch_blocks_skips_empty (review : Review.t)
    (pre post : list (string * value)) (block_name : string)
    (block : value) (w : World) :
  _is_empty block = Ok true ->
  fetch_blocks review (pre ++ (block_name, block) :: post) w =
  fetch_blocks review (pre ++ post) w.
Proof.
  intros Hempty. revert w.
  induction pre as [ | [name0 block0] pre IH]; intros w.
  - cbn [app]. rewrite fetch_blocks_cons, Hempty. reflexivity.
  - cbn [app]. rewrite !fetch_blocks_cons.
    destruct (_is_empty block0) as [[ | ] | e]; [apply IH | | reflexivity].
    cbn zeta.
    destruct (_process_metadatablock block0 _ _) as [w1 [[] | e]];
      [apply IH | reflexivity].
Qed.

End Flattener.

(** A block all of whose fields are null never passes the filter, also
    where it does not conform to its schema: the check answers true or
    raises, and in both cases the loop over the block writes nothing. *)
Lemma all_null_never_nonempty (mf : gmap string FieldInfo)
    (items : list (string * value)) :
  Forall (fun kv => kv.2 = VNone) items ->
  is_empty_loop _is_empty mf items true <> Ok false.
Proof.
  induction 1 as [ | [n v] items Hv _ IH]; [discriminate | ].
  simpl in Hv. subst v. cbn [is_empty_loop].
  destruct (mf !! n) as [info | ]; [ | discriminate].
  unfold field_is_empty.
  destruct (is_compound info), (is_multiple info); cbn [andb];
    try discriminate; exact IH.
Qed.

Lemma all_null_block_creates_nothing `{Environment} (review : Review.t)
    (block_name : string) (items : list (string * value))
    (mf : gmap string FieldInfo) (w : World) :
  Forall (fun kv => kv.2 = VNone) items ->
  (fetch_blocks review [(block_name, VObj items mf)] w).1 = w.
Proof.
  intros Hnull. rewrite fetch_blocks_cons.
  pose proof (all_null_never_nonempty mf items Hnull) as Hnever.
  cbn [_is_empty].
  destruct (is_empty_loop _is_empty mf items true) as [[ | ] | e];
    [reflexivity | congruence | reflexivity].
Qed.

(** C6.  A schema-conformant block with no reachable non-null leaf (every
    field null, every instance of every repeatable compound empty) is
    found empty by the ingestion loop and excluded from persistence: the
    loop over the block alone changes nothing, and the loop over a
    dataset creates exactly what it creates for the dataset without that
    block, so no Metadatablock, Compound or Field row exists for it.
    Fetching a new dataset that has only this block stores the Review
    row and nothing else. *)
Theorem empty_block_not_persisted `{Environment} (review : Review.t)
    (pre post : list (string * value)) (block_name : string)
    (block : value) (w : World)
    (request : Request) (site_url doi : string) (client : DataverseClient) :
  conforms block = true ->
  Forall (fun leaf => leaf = VNone) (leaves block) ->
  _is_empty block = Ok true
  /\ fetch_blocks review [(block_name, block)] w = (w, Ok ())
  /\ fetch_blocks review (pre ++ (block_name, block) :: post) w =
     fetch_blocks review (pre ++ post) w
  /\ (query_params request !! "site_url" = Some site_url ->
      query_params request !! "doi" = Some doi ->
      Dataverse (Some site_url) (query_params request !! "api_token")
        = Ok client ->
      filter (fun r => Review.doi r = doi) (reviews (db w)) = [] ->
      load_dataset client doi
        = Ok {| dataset_metadatablocks := [(block_name, block)] |} ->
      let new_review :=
        instantiate (R := Review.t) (uuid4 (uuid_drawn w))
          {| ReviewKwargs.doi := doi;
             ReviewKwargs.site_url := site_url;
             ReviewKwargs.revision := 1;
             ReviewKwargs.date := datetime_now |} in
      let w' := {| db := save new_review (db w);
                   uuid_drawn := S (uuid_drawn w);
                   http_log := http_log w |} in
      fetch_dataset request w =
        (w', Ok {| data := ReviewBody (ReviewSerializer (db w') new_review);
                   status := HTTP_200_OK |})).
Proof.
  intros Hconforms Hleaves.
  assert (Hempty : _is_empty block = Ok true).
  { rewrite (is_empty_refines block Hconforms). f_equal.
    apply is_empty_spec_leaves; assumption. }
  assert (Halone : forall r w0,
            fetch_blocks r [(block_name, block)] w0 = (w0, Ok ())).
  { intros r w0. rewrite fetch_blocks_cons, Hempty. reflexivity. }
  split; [exact Hempty | ].
  split; [apply Halone | ].
  split; [apply fetch_blocks_skips_empty, Hempty | ].
  intros Hsite Hdoi Hclient Hnew Hload new_review w'.
  unfold fetch_dataset.
  rewrite run_lift_bind, Hsite, Hdoi, Hclient, run_bind. cbn [get_db].
  rewrite Hnew. cbn [bool_decide decide_rel].
  rewrite bool_decide_eq_false_2 by (intros Hne; apply Hne; reflexivity).
  rewrite run_lift_bind, Hload, run_bind.
  unfold _create_and_save at 1. cbn [dataset_metadatablocks].
  fold new_review. fold w'.
  rewrite run_bind, Halone, run_bind. reflexivity.
Qed.

Lemma empty_block_not_persisted_witness :
  _is_empty empty_citation = Ok true
  /\ fetch_blocks (H := sample_environment) sample_review
       [("citation", empty_citation)] sample_world = (sample_world, Ok ())
  /\ reviews (db (fetch_dataset (H := environment_with_empty_dataset)
                    request_complete empty_world).1)
     = [instantiate (R := Review.t) "uuid-0"
          {| ReviewKwargs.doi := "doi:10.5072/FK2/ICE";
             ReviewKwargs.site_url := "https://demo.dataverse.org/";
             ReviewKwargs.revision := 1;
             ReviewKwargs.date := 1730000000 |}]
  /\ metadatablocks (db (fetch_dataset (H := environment_with_empty_dataset)
                           request_complete empty_world).1) = [].
Proof.
  assert (Hconforms : conforms empty_citation = true)
    by (vm_compute; reflexivity).
  assert (Hleaves : Forall (fun leaf => leaf = VNone) (leaves empty_citation))
    by (vm_compute; repeat constructor).
  destruct (empty_block_not_persisted (H := sample_environment) sample_review
              [] [] "citation" empty_citation sample_world
              request_complete "" "" {| server_url := None; api_token := None |}
              Hconforms Hleaves)
    as (Hempty & Halone & _).
  destruct (empty_block_not_persisted (H := environment_with_empty_dataset)
              sample_review [] [] "citation" empty_citation empty_world
              request_complete "https://demo.dataverse.org/"
              "doi:10.5072/FK2/ICE"
              {| server_url := Some "https://demo.dataverse.org/";
                 api_token := None |}
              Hconforms Hleaves)
    as (_ & _ & _ & Hfetch).
  split; [exact Hempty | ]. split; [exact Halone | ].
  rewrite Hfetch; [split; reflexivity | | | | | ]; vm_compute; reflexivity.
Defined.

(** ** What the flattener keeps and what it skips *)







(** ** The flattener against the rows of the specification *)

Section FlattenerRows.
Context `{Environment}.












End FlattenerRows.



(** ** Stringified values *)

Lemma strs_of_strings (ss : list string) : strs_of (VStr <$> ss) = Ok ss.
Proof.
  induction ss as [ | s ss IH]; [reflexivity | ].
  rewrite fmap_cons. cbn [strs_of]. rewrite IH. reflexivity.
Qed.

Lemma strs_of_inv (l : list value) :
  match strs_of l with
  | Ok ss => l = VStr <$> ss
  | Raise e => e = TypeError /\ forall ss, l <> VStr <$> ss
  end.
Proof.
  induction l as [ | x l IH]; [reflexivity | ].
  destruct x as [ | s | l' | items mf]; simpl;
    try (split; [reflexivity | intros [ | s' ss']; discriminate]).
  destruct (strs_of l) as [ss | e]; simpl.
  - rewrite IH. reflexivity.
  - destruct IH as [-> Hnot]. split; [reflexivity | ].
    intros [ | s' ss']; [discriminate | ].
    intros [= _ Hl]. exact (Hnot ss' Hl).
Qed.

(** Whatever the ingestion loop creates, every new Field row is seeded. *)
Lemma fetch_blocks_rows `{Environment} (review : Review.t)
    (blocks : list (string * value)) (w : World) :
  exists new_blocks new_compounds new_fields,
    (fetch_blocks review blocks w).1 =
      grown w new_blocks new_compounds new_fields
    /\ Forall seeded new_fields.
Proof.
  revert w. induction blocks as [ | [block_name block] blocks IH]; intros w.
  - exists [], [], []. rewrite grown_nil. split; [reflexivity | constructor].
  - rewrite fetch_blocks_cons.
    destruct (_is_empty block) as [[ | ] | e] eqn:Hempty.
    + apply IH.
    + destruct block as [ | s | l | items mf]; try discriminate.
      cbn zeta.
      set (row := instantiate (uuid4 (uuid_drawn w)) _).
      unfold _process_metadatablock. rewrite run_lift_bind. cbn [py_iter].
      destruct (metadatablock_loop_rows (VObj items mf) mf row items
                  (grown w [row] [] []) eq_refl)
        as (compounds1 & fields1 & Heq1 & _ & Hs1 & _).
      destruct (process_metadatablock_loop (VObj items mf) row _ _)
        as [w1 [[] | e]]; simpl in Heq1; subst w1.
      * rewrite grown_grown. cbn [app].
        destruct (IH (grown w [row] compounds1 fields1))
          as (blocks2 & compounds2 & fields2 & Heq2 & Hs2).
        exists (row :: blocks2), (compounds1 ++ compounds2)%list,
          (fields1 ++ fields2)%list.
        rewrite Heq2, grown_grown. split; [reflexivity | ].
        apply Forall_app. split; assumption.
      * exists [row], compounds1, fields1. rewrite grown_grown.
        split; [reflexivity | exact Hs1].
    + exists [], [], []. rewrite grown_nil. split; [reflexivity | constructor].
Qed.

(** ** The compound-level loop *)

Section CompoundLoop.
Context `{Environment}.

(** The loop reads its object only for [model_fields]. *)
Lemma compound_loop_ext (compound compound' : value) (fk : Compound.t)
  (todo : list value) (w : World) :
get_model_fields compound = get_model_fields compound' ->
process_compound_loop compound fk todo w =
process_compound_loop compound' fk todo w.
Proof.
intros Hmf. revert w. induction todo as [ | x rest IH]; intros w;
  [reflexivity | ].
cbn [process_compound_loop]. rewrite !run_lift_bind.
destruct (unpack_pair x) as [[field_name v] | e]; [ | reflexivity].
rewrite !run_lift_bind.
destruct (as_name field_name) as [n | e]; [ | reflexivity].
destruct (startswith_underscore n || is_None v); [apply IH | ].
rewrite !run_lift_bind, <- Hmf.
destruct (get_model_fields compound) as [mf | e]; [ | reflexivity].
rewrite !run_lift_bind.
destruct (getitem mf n) as [info | e]; [ | reflexivity].
rewrite !run_lift_bind.
destruct (_process_primitive n v info (Some fk)) as [attrs | e];
  [ | reflexivity].
rewrite !run_bind, create_field. apply IH.
Qed.

(** Iterations run one after the other; an exception ends the loop. *)
Lemma compound_loop_app (compound : value) (fk : Compound.t)
  (pre post : list value) (w : World) :
process_compound_loop compound fk (pre ++ post) w =
  match process_compound_loop compound fk pre w with
  | (w1, Ok _) => process_compound_loop compound fk post w1
  | (w1, Raise e) => (w1, Raise e)
  end.
Proof.
revert w. induction pre as [ | x pre IH]; intros w; [reflexivity | ].
cbn [app process_compound_loop]. rewrite !run_lift_bind.
destruct (unpack_pair x) as [[field_name v] | e]; [ | reflexivity].
rewrite !run_lift_bind.
destruct (as_name field_name) as [n | e]; [ | reflexivity].
destruct (startswith_underscore n || is_None v); [apply IH | ].
rewrite !run_lift_bind.
destruct (get_model_fields compound) as [mf | e]; [ | reflexivity].
rewrite !run_lift_bind.
destruct (getitem mf n) as [info | e]; [ | reflexivity].
rewrite !run_lift_bind.
destruct (_process_primitive n v info (Some fk)) as [attrs | e];
  [ | reflexivity].
rewrite !run_bind, create_field. apply IH.
Qed.

End CompoundLoop.

(** ** The block-level loop *)

Section BlockLoop.
Context `{Environment}.

(** The loop reads its object only for [model_fields]. *)
Lemma metadatablock_loop_ext (block block' : value) (fk : Metadatablock.t)
    (todo : list value) (w : World) :
  get_model_fields block = get_model_fields block' ->
  process_metadatablock_loop block fk todo w =
  process_metadatablock_loop block' fk todo w.
Proof.
  intros Hmf. revert w. induction todo as [ | x rest IH]; intros w;
    [reflexivity | ].
  cbn [process_metadatablock_loop]. rewrite !run_lift_bind.
  destruct (unpack_pair x) as [[field_name v] | e]; [ | reflexivity].
  rewrite !run_lift_bind.
  destruct (as_name field_name) as [n | e]; [ | reflexivity].
  destruct (startswith_underscore n); [apply IH | ].
  destruct (is_None v); [apply IH | ].
  destruct (eq_empty_list v); [apply IH | ].
  rewrite !run_lift_bind, <- Hmf.
  destruct (get_model_fields block) as [mf | e]; [ | reflexivity].
  rewrite !run_lift_bind.
  destruct (getitem mf n) as [info | e]; [ | reflexivity].
  destruct (negb (is_compound info)).
  - rewrite !run_lift_bind.
    destruct (_process_primitive n v info None) as [attrs | e];
      [ | reflexivity].
    rewrite !run_bind, create_field. apply IH.
  - rewrite !run_bind.
    destruct (process_entries n fk (as_entries v) w) as [w1 [[] | e]];
      [apply IH | reflexivity].
Qed.

(** Iterations run one after the other; an exception ends the loop. *)
Lemma metadatablock_loop_app (block : value) (fk : Metadatablock.t)
    (pre post : list value) (w : World) :
  process_metadatablock_loop block fk (pre ++ post) w =
    match process_metadatablock_loop block fk pre w with
    | (w1, Ok _) => process_metadatablock_loop block fk post w1
    | (w1, Raise e) => (w1, Raise e)
    end.
Proof.
  revert w. induction pre as [ | x pre IH]; intros w; [reflexivity | ].
  cbn [app process_metadatablock_loop]. rewrite !run_lift_bind.
  destruct (unpack_pair x) as [[field_name v] | e]; [ | reflexivity].
  rewrite !run_lift_bind.
  destruct (as_name field_name) as [n | e]; [ | reflexivity].
  destruct (startswith_underscore n); [apply IH | ].
  destruct (is_None v); [apply IH | ].
  destruct (eq_empty_list v); [apply IH | ].
  rewrite !run_lift_bind.
  destruct (get_model_fields block) as [mf | e]; [ | reflexivity].
  rewrite !run_lift_bind.
  destruct (getitem mf n) as [info | e]; [ | reflexivity].
  destruct (negb (is_compound info)).
  - rewrite !run_lift_bind.
    destruct (_process_primitive n v info None) as [attrs | e];
      [ | reflexivity].
    rewrite !run_bind, create_field. apply IH.
  - rewrite !run_bind.
    destruct (process_entries n fk (as_entries v) w) as [w1 [[] | e]];
      [apply IH | reflexivity].
Qed.

(** The block-level loop at one field, whatever stands before and after
    it. *)
Lemma process_metadatablock_at (pre post : list (string * value))
    (n : string) (v : value) (mf : gmap string FieldInfo)
    (fk : Metadatablock.t) (w : World) :
  _process_metadatablock (VObj (pre ++ (n, v) :: post) mf) fk w =
    match _process_metadatablock (VObj pre mf) fk w with
    | (w1, Ok _) =>
        process_metadatablock_loop (VObj post mf) fk
          (VList [VStr n; v]
           :: ((fun kv => VList [VStr kv.1; kv.2]) <$> post)) w1
    | (w1, Raise e) => (w1, Raise e)
    end.
Proof.
  unfold _process_metadatablock. rewrite !run_lift_bind. cbn [py_iter].
  rewrite fmap_app, fmap_cons, metadatablock_loop_app. cbn [fst snd].
  rewrite (metadatablock_loop_ext (VObj (pre ++ (n, v) :: post) mf)
             (VObj pre mf)) by reflexivity.
  destruct (process_metadatablock_loop (VObj pre mf) fk _ w)
    as [w1 [[] | e]]; [ | reflexivity].
  apply metadatablock_loop_ext. reflexivity.
Qed.

Lemma process_compound_at (pre post : list (string * value))
    (n : string) (v : value) (mf : gmap string FieldInfo)
    (fk : Compound.t) (w : World) :
  _process_compound (VObj (pre ++ (n, v) :: post) mf) fk w =
    match _process_compound (VObj pre mf) fk w with
    | (w1, Ok _) =>
        process_compound_loop (VObj post mf) fk
          (VList [VStr n; v]
           :: ((fun kv => VList [VStr kv.1; kv.2]) <$> post)) w1
    | (w1, Raise e) => (w1, Raise e)
    end.
Proof.
  unfold _process_compound. rewrite !run_lift_bind. cbn [py_iter].
  rewrite fmap_app, fmap_cons, compound_loop_app. cbn [fst snd].
  rewrite (compound_loop_ext (VObj (pre ++ (n, v) :: post) mf)
             (VObj pre mf)) by reflexivity.
  destruct (process_compound_loop (VObj pre mf) fk _ w)
    as [w1 [[] | e]]; [ | reflexivity].
  apply compound_loop_ext. reflexivity.
Qed.

Lemma strs_of_not_texts (l : list value) :
  forallb is_text l = false -> strs_of l = Raise TypeError.
Proof.
  induction l as [ | x l IH]; [discriminate | ].
  cbn [forallb]. destruct x as [ | s | l' | items mf]; try reflexivity.
  cbn [is_text andb strs_of]. intros Hl. rewrite (IH Hl). reflexivity.
Qed.

Lemma process_primitive_unjoinable (n : string) (l : list value)
    (info : FieldInfo) (parent : option Compound.t) :
  forallb is_text l = false ->
  _process_primitive n (VList l) info parent = Raise TypeError.
Proof.
  intros Hl. unfold _process_primitive, str_join.
  rewrite (strs_of_not_texts l Hl). reflexivity.
Qed.

Lemma process_primitive_joined (n : string) (ss : list string)
    (info : FieldInfo) (parent : option Compound.t) :
  _process_primitive n (VList (VStr <$> ss)) info parent =
    Ok {| PrimitiveAttrs.name := n;
          PrimitiveAttrs.description := description info;
          PrimitiveAttrs.value := String.concat ", " ss;
          PrimitiveAttrs.history := {[ "Original" := String.concat ", " ss ]} |}.
Proof.
  unfold _process_primitive, str_join. rewrite strs_of_strings. reflexivity.
Qed.

End BlockLoop.

(** C7.  A list-valued primitive field of a block, wherever it stands
    among the fields, makes the flattener create one Field row under
    the block whose value is the elements of the list joined with ", "
    and whose history is exactly {"Original": that same string}; the
    flattener then goes on with the fields behind it.  The same holds
    for a list-valued sub-field of a compound entry and the row under
    the compound.  When an element of the list is no string the join
    raises [TypeError] and no row is created for the field.  And every
    Field row the ingestion loop creates, from whatever value, has as
    its history {"Original": its value}. *)
Theorem list_value_joined_and_seeded `{Environment}
    (pre post : list (string * value)) (n : string) (ss : list string)
    (mf : gmap string FieldInfo) (info : FieldInfo)
    (block : Metadatablock.t) (compound : Compound.t) :
  startswith_underscore n = false ->
  mf !! n = Some info ->
  let joined := String.concat ", " ss in
  let row pk parent_block parent_compound :=
    {| Field.id := pk;
       Field.metadatablock := parent_block;
       Field.compound := parent_compound;
       Field.name := n;
       Field.description := description info;
       Field.accepted := None;
       Field.value := joined;
       Field.history := {[ "Original" := joined ]};
       Field.field_type := "primitive" |} in
  (is_compound info = false -> ss <> [] -> forall w,
     _process_metadatablock
       (VObj (pre ++ (n, VList (VStr <$> ss)) :: post) mf) block w =
     match _process_metadatablock (VObj pre mf) block w with
     | (w1, Ok _) =>
         _process_metadatablock (VObj post mf) block
           (grown w1 [] []
              [row (uuid4 (uuid_drawn w1)) (Some (Metadatablock.id block))
                 None])
     | (w1, Raise e) => (w1, Raise e)
     end)
  /\ (forall w,
        _process_compound
          (VObj (pre ++ (n, VList (VStr <$> ss)) :: post) mf) compound w =
        match _process_compound (VObj pre mf) compound w with
        | (w1, Ok _) =>
            _process_compound (VObj post mf) compound
              (grown w1 [] []
                 [row (uuid4 (uuid_drawn w1)) None
                    (Some (Compound.id compound))])
        | (w1, Raise e) => (w1, Raise e)
        end)
  /\ (forall pk parent_block parent_compound,
        Field.history (row pk parent_block parent_compound) !! "Original"
        = Some (Field.value (row pk parent_block parent_compound)))
  /\ (forall l w,
        forallb is_text l = false ->
        (is_compound info = false ->
         _process_metadatablock (VObj (pre ++ (n, VList l) :: post) mf)
           block w =
         match _process_metadatablock (VObj pre mf) block w with
         | (w1, Ok _) => (w1, Raise TypeError)
         | (w1, Raise e) => (w1, Raise e)
         end)
        /\ _process_compound (VObj (pre ++ (n, VList l) :: post) mf)
             compound w =
           match _process_compound (VObj pre mf) compound w with
           | (w1, Ok _) => (w1, Raise TypeError)
           | (w1, Raise e) => (w1, Raise e)
           end)
  /\ (forall review blocks w,
        exists new_blocks new_compounds new_fields,
          (fetch_blocks review blocks w).1 =
            grown w new_blocks new_compounds new_fields
          /\ Forall (fun f => Field.history f
                              = {[ "Original" := Field.value f ]})
               new_fields).
Proof.
  intros Hname Hinfo joined row.
  split.
  { intros Hprimitive Hss w. rewrite process_metadatablock_at.
    destruct (_process_metadatablock (VObj pre mf) block w)
      as [w1 [[] | e]]; [ | reflexivity].
    rewrite metadatablock_loop_cons. unfold skipped. cbn [fst snd].
    rewrite Hname. cbn [is_None orb].
    destruct ss as [ | s ss]; [congruence | ].
    cbn [fmap list_fmap eq_empty_list get_model_fields mbind result_bind].
    unfold getitem. rewrite Hinfo, Hprimitive. cbn [negb].
    rewrite (process_primitive_joined n (s :: ss) info None).
    unfold _process_metadatablock. rewrite run_lift_bind. reflexivity. }
  split.
  { intros w. rewrite process_compound_at.
    destruct (_process_compound (VObj pre mf) compound w)
      as [w1 [[] | e]]; [ | reflexivity].
    rewrite compound_loop_cons. rewrite Hname. cbn [is_None orb].
    cbn [get_model_fields mbind result_bind].
    unfold getitem. rewrite Hinfo.
    rewrite (process_primitive_joined n ss info (Some compound)).
    unfold _process_compound. rewrite run_lift_bind. reflexivity. }
  split; [intros pk b c; apply lookup_singleton_eq | ].
  split; [ | intros review blocks w; apply fetch_blocks_rows].
  intros l w Hl. split.
  - intros Hprimitive. rewrite process_metadatablock_at.
    destruct (_process_metadatablock (VObj pre mf) block w)
      as [w1 [[] | e]]; [ | reflexivity].
    rewrite metadatablock_loop_cons. unfold skipped. cbn [fst snd].
    rewrite Hname. cbn [is_None orb].
    destruct l as [ | x l]; [discriminate | ].
    cbn [eq_empty_list get_model_fields mbind result_bind].
    unfold getitem. rewrite Hinfo, Hprimitive. cbn [negb].
    rewrite (process_primitive_unjoinable n (x :: l) info None Hl).
    reflexivity.
  - rewrite process_compound_at.
    destruct (_process_compound (VObj pre mf) compound w)
      as [w1 [[] | e]]; [ | reflexivity].
    rewrite compound_loop_cons. rewrite Hname. cbn [is_None orb].
    cbn [get_model_fields mbind result_bind].
    unfold getitem. rewrite Hinfo.
    rewrite (process_primitive_unjoinable n l info (Some compound) Hl).
    reflexivity.
Qed.

Lemma list_value_joined_and_seeded_witness :
  (fun f => (Field.name f, Field.value f, Field.history f !! "Original"))
    <$> fields (db (_process_metadatablock (H := sample_environment)
                      sample_citation sample_block empty_world).1)
  = [("title", "Ice cores", Some "Ice cores");
     ("keyword", "ice, climate", Some "ice, climate");
     ("name", "Doe, Jane", Some "Doe, Jane");
     ("roles", "", Some "")].
Proof.
  destruct (list_value_joined_and_seeded (H := sample_environment)
              [("title", VStr "Ice cores"); ("subtitle", VNone)]
              [("author", VList [sample_author])]
              "keyword" ["ice"; "climate"] citation_fields
              {| description := "Key terms"; typeClass := "primitive";
                 multiple := Some true |}
              sample_block sample_compound)
    as (Hblock & _).
  - reflexivity.
  - vm_compute. reflexivity.
  - change sample_citation
      with (VObj ([("title", VStr "Ice cores"); ("subtitle", VNone)]
                  ++ ("keyword", VList (VStr <$> ["ice"; "climate"]))
                  :: [("author", VList [sample_author])]) citation_fields).
    rewrite (Hblock eq_refl); [ | discriminate].
    vm_compute. reflexivity.
Defined.

(** C10.  In the compound-level loop a sub-field whose value is an empty
    list is processed, not skipped: wherever it stands among the
    sub-fields, the loop creates for it a Field row under the compound
    whose value is the empty string (the ", "-join of no elements) and
    whose history is {"Original": ""}, and then goes on.  The block-level
    loop skips the same field: it behaves as if the field were absent. *)
Theorem empty_list_subfield_is_stored `{Environment}
    (pre post : list (string * value)) (n : string)
    (mf : gmap string FieldInfo) (info : FieldInfo) (fk : Compound.t)
    (w : World) :
  startswith_underscore n = false ->
  mf !! n = Some info ->
  let attrs :=
    {| PrimitiveAttrs.name := n;
       PrimitiveAttrs.description := description info;
       PrimitiveAttrs.value := "";
       PrimitiveAttrs.history := {[ "Original" := "" ]} |} in
  let row pk :=
    instantiate (R := Field.t) pk
      {| FieldKwargs.metadatablock := None;
         FieldKwargs.compound := Some fk;
         FieldKwargs.attrs := attrs |} in
  _process_primitive n (VList []) info (Some fk) = Ok attrs
  /\ _process_compound (VObj [(n, VList [])] mf) fk w =
       (grown w [] [] [row (uuid4 (uuid_drawn w))], Ok ())
  /\ _process_compound (VObj (pre ++ (n, VList []) :: post) mf) fk w =
       match _process_compound (VObj pre mf) fk w with
       | (w1, Ok _) =>
           _process_compound (VObj post mf) fk
             (grown w1 [] [] [row (uuid4 (uuid_drawn w1))])
       | (w1, Raise e) => (w1, Raise e)
       end
  /\ (forall pk, Field.value (row pk) = ""
                 /\ Field.history (row pk) = {[ "Original" := "" ]}
                 /\ Field.compound (row pk) = Some (Compound.id fk))
  /\ (forall block_fk : Metadatablock.t,
        _process_metadatablock (VObj (pre ++ (n, VList []) :: post) mf)
          block_fk w =
        _process_metadatablock (VObj (pre ++ post) mf) block_fk w).
Proof.
  intros Hname Hinfo attrs row.
  assert (Hstep : forall (compound : value) rest w0,
    get_model_fields compound = Ok mf ->
    process_compound_loop compound fk (VList [VStr n; VList []] :: rest) w0 =
    process_compound_loop compound fk rest
      (grown w0 [] [] [row (uuid4 (uuid_drawn w0))])).
  { intros compound rest w0 Hmf. rewrite compound_loop_cons, Hname, Hmf.
    cbn [is_None orb mbind result_bind]. unfold getitem. rewrite Hinfo.
    reflexivity. }
  split; [reflexivity | ].
  split.
  { unfold _process_compound. rewrite run_lift_bind. cbn [py_iter fmap list_fmap].
    cbn [fst snd]. rewrite Hstep by reflexivity. reflexivity. }
  split.
  { unfold _process_compound. rewrite !run_lift_bind. cbn [py_iter].
    rewrite fmap_app, fmap_cons, compound_loop_app. cbn [fst snd].
    rewrite (compound_loop_ext (VObj (pre ++ (n, VList []) :: post) mf)
               (VObj pre mf)) by reflexivity.
    destruct (process_compound_loop (VObj pre mf) fk _ w) as [w1 [[] | e]];
      [ | reflexivity].
    rewrite Hstep by reflexivity. rewrite run_lift_bind. cbn [py_iter].
    apply compound_loop_ext. reflexivity. }
  split.
  { intros pk. repeat split. }
  intros block_fk.
  rewrite process_metadatablock_skips.
  rewrite (process_metadatablock_skips (pre ++ post)).
  rewrite !List.filter_app. cbn [List.filter].
  replace (skipped (n, VList [])) with true
    by (unfold skipped; cbn; rewrite Hname; reflexivity).
  reflexivity.
Qed.

Lemma empty_list_subfield_is_stored_witness :
  Field.value <$> fields (db (_process_compound (H := sample_environment)
                                sample_author sample_compound empty_world).1)
  = ["Doe, Jane"; ""].
Proof.
  pose proof (empty_list_subfield_is_stored (H := sample_environment)
                [("name", VStr "Doe, Jane"); ("affiliation", VNone)] []
                "roles" author_fields
                {| description := "Roles"; typeClass := "primitive";
                   multiple := Some true |}
                sample_compound empty_world eq_refl eq_refl)
    as (_ & _ & Hrun & _).
  change (VObj _ author_fields) with sample_author in Hrun at 1.
  rewrite Hrun. vm_compute. reflexivity.
Defined.

(** ** The fetch endpoint *)

Lemma fetch_dataset_missing_run `{Environment} (request : Request)
    (w : World) :
  query_params request !! "site_url" = None
  \/ query_params request !! "doi" = None ->
  fetch_dataset request w =
    (w, _ ← Dataverse (query_params request !! "site_url")
              (query_params request !! "api_token");
        Ok {| data := MessageBody missing_parameters_message;
              status := HTTP_400_BAD_REQUEST |}).
Proof.
  intros Hmissing. unfold fetch_dataset. rewrite run_lift_bind.
  destruct (Dataverse _ _) as [client | e]; [ | reflexivity].
  destruct Hmissing as [-> | ->]; [reflexivity | ].
  destruct (query_params request !! "site_url"); reflexivity.
Qed.

(** C5.  The handler builds the Dataverse client before it checks the
    parameters.  So a request without [site_url] never gets the 400: the
    constructor raises the validation error of pydantic, and that is
    what the handler raises.  A request with [site_url] and without
    [doi] is answered 400 with the error message when the client can be
    built, and with the exception of the constructor otherwise.  In
    every case nothing is written. *)
Theorem fetch_dataset_missing_parameter `{Environment} (request : Request)
    (w : World) :
  query_params request !! "site_url" = None
  \/ query_params request !! "doi" = None ->
  (fetch_dataset request w).1 = w
  /\ (query_params request !! "site_url" = None ->
      fetch_dataset request w = (w, Raise PydanticValidationError))
  /\ (forall site_url,
        query_params request !! "site_url" = Some site_url ->
        fetch_dataset request w =
          (w, _ ← Dataverse_connect site_url
                    (query_params request !! "api_token");
              Ok {| data := MessageBody missing_parameters_message;
                    status := HTTP_400_BAD_REQUEST |})).
Proof.
  intros Hmissing.
  rewrite (fetch_dataset_missing_run request w Hmissing).
  split; [reflexivity | ]. split.
  - intros ->. reflexivity.
  - intros site_url ->. reflexivity.
Qed.

Lemma fetch_dataset_missing_parameter_witness :
  fetch_dataset (H := sample_environment) request_without_site_url
    sample_world = (sample_world, Raise PydanticValidationError)
  /\ fetch_dataset (H := sample_environment) request_without_doi
       sample_world =
     (sample_world,
      Ok {| data := MessageBody missing_parameters_message;
            status := HTTP_400_BAD_REQUEST |}).
Proof.
  split.
  - destruct (fetch_dataset_missing_parameter (H := sample_environment)
                request_without_site_url sample_world) as (_ & Hraise & _).
    + left. vm_compute. reflexivity.
    + apply Hraise. vm_compute. reflexivity.
  - destruct (fetch_dataset_missing_parameter (H := sample_environment)
                request_without_doi sample_world) as (_ & _ & Hanswer).
    + right. vm_compute. reflexivity.
    + rewrite (Hanswer "https://demo.dataverse.org/");
        vm_compute; reflexivity.
Defined.

(** C1.  When a Review with the requested DOI is stored, the handler
    changes nothing: no row is created and the flattener does not run.
    But the handler builds the Dataverse client before it looks the DOI
    up: when the constructor raises (the site URL is no URL, or the
    server cannot be reached), the handler raises and the stored Review
    is not returned.  When the client is built and exactly one Review
    has that DOI, the answer is 200 with the representation of that
    Review. *)
Theorem fetch_dataset_existing_doi `{Environment} (request : Request)
    (w : World) (site_url doi : string) (review : Review.t) :
  query_params request !! "site_url" = Some site_url ->
  query_params request !! "doi" = Some doi ->
  review ∈ reviews (db w) ->
  Review.doi review = doi ->
  (fetch_dataset request w).1 = w
  /\ match Dataverse_connect site_url
             (query_params request !! "api_token") with
     | Raise e => fetch_dataset request w = (w, Raise e)
     | Ok client =>
         filter (fun r => Review.doi r = doi) (reviews (db w)) = [review] ->
         fetch_dataset request w =
           (w, Ok {| data := ReviewBody (ReviewSerializer (db w) review);
                     status := HTTP_200_OK |})
     end.
Proof.
  intros Hsite Hdoi Hin Hreview.
  assert (Hfound : filter (fun r => Review.doi r = doi) (reviews (db w)) <> []).
  { intros Hnil.
    assert (Hmem : review ∈ filter (fun r => Review.doi r = doi) (reviews (db w)))
      by (apply list_elem_of_filter; split; assumption).
    rewrite Hnil in Hmem. inversion Hmem. }
  unfold fetch_dataset. rewrite run_lift_bind, Hdoi, Hsite.
  cbn [Dataverse].
  destruct (Dataverse_connect site_url _) as [client | e];
    [ | split; reflexivity].
  rewrite run_bind. cbn [get_db]. rewrite bool_decide_eq_true_2 by exact Hfound.
  rewrite run_lift_bind. split.
  - destruct (objects_get _); reflexivity.
  - intros ->. reflexivity.
Qed.

Lemma fetch_dataset_existing_doi_witness :
  fetch_dataset (H := sample_environment) request_with_bad_site_url
    sample_world = (sample_world, Raise PydanticValidationError)
  /\ fetch_dataset (H := sample_environment) request_complete sample_world =
     (sample_world,
      Ok {| data := ReviewBody (ReviewSerializer sample_store sample_review);
            status := HTTP_200_OK |}).
Proof.
  split.
  - destruct (fetch_dataset_existing_doi (H := sample_environment)
                request_with_bad_site_url sample_world "demo.dataverse.org"
                "doi:10.5072/FK2/ICE" sample_review) as [_ Hanswer].
    + vm_compute. reflexivity.
    + vm_compute. reflexivity.
    + apply list_elem_of_here.
    + reflexivity.
    + exact Hanswer.
  - destruct (fetch_dataset_existing_doi (H := sample_environment)
                request_complete sample_world "https://demo.dataverse.org/"
                "doi:10.5072/FK2/ICE" sample_review) as [_ Hanswer].
    + vm_compute. reflexivity.
    + vm_compute. reflexivity.
    + apply list_elem_of_here.
    + reflexivity.
    + apply Hanswer. vm_compute. reflexivity.
Defined.

(** With two Reviews of one DOI, [Review.objects.get] raises. *)
Lemma duplicate_doi_raises :
  let twice :=
    {| db := {| reviewers := []; reviews := [sample_review; sample_review];
                metadatablocks := []; compounds := []; fields := [];
                files := []; messages := [] |};
       uuid_drawn := 7; http_log := [] |} in
  fetch_dataset (H := sample_environment) request_complete twice =
    (twice, Raise MultipleObjectsReturned).
Proof. vm_compute. reflexivity. Qed.

(** ** The open-fields endpoint *)

Lemma filter_none {A} (P : A -> Prop) `{forall x, Decision (P x)}
    (l : list A) :
  (forall x, x ∈ l -> ~ P x) -> filter P l = [].
Proof.
  induction l as [ | x l IH]; intros Hnone; [reflexivity | ].
  rewrite filter_cons_False by (apply Hnone, list_elem_of_here).
  apply IH. intros y Hy. apply Hnone, list_elem_of_further, Hy.
Qed.



(** A text that is not UUID syntax never reaches the database: the
    conversion of the lookup raises, and nothing is requested. *)
Lemma open_fields_malformed_id `{Environment} (review_pk : string)
    (w : World) :
  uuid_syntax review_pk = false ->
  (forall r, r ∈ reviews (db w) -> Review.id r <> review_pk) ->
  fetch_open_metadatablock_fields_for_review review_pk w =
    (w, Raise ValidationError).
Proof.
  intros Hsyntax Hunknown.
  unfold fetch_open_metadatablock_fields_for_review, first_by_id.
  rewrite run_bind. cbn [get_db].
  rewrite (filter_none _ _ Hunknown). cbn [head].
  rewrite Hsyntax, run_lift_bind. reflexivity.
Qed.

(** For a stored review the endpoint does go to the network, once for
    each of its blocks. *)
Lemma open_fields_known_review_fetches :
  http_log (fetch_open_metadatablock_fields_for_review
              (H := sample_environment) "r1" sample_world).1 =
    ["https://demo.dataverse.org/api/metadatablocks/citation"].
Proof. vm_compute. reflexivity. Qed.

(** ** The open-fields partition *)




Lemma map_chars_compose (f g : ascii -> ascii) (s : string) :
  map_chars f (map_chars g s) = map_chars (fun c => f (g c)) s.
Proof.
  induction s as [ | c s IH]; [reflexivity | ].
  cbn [map_chars]. rewrite IH. reflexivity.
Qed.

Lemma map_chars_ext (f g : ascii -> ascii) (s : string) :
  (forall c, f c = g c) -> map_chars f s = map_chars g s.
Proof.
  intros Hfg. induction s as [ | c s IH]; [reflexivity | ].
  cbn [map_chars]. rewrite Hfg, IH. reflexivity.
Qed.

Lemma replace_space_ascii (s : string) :
  ascii_only s = true -> ascii_only (replace_space s) = true.
Proof.
  unfold replace_space. induction s as [ | c s IH]; [reflexivity | ].
  cbn [ascii_only map_chars]. intros [Hc Hs]%andb_prop.
  rewrite (IH Hs), andb_true_r.
  destruct (Ascii.eqb c " "); [reflexivity | exact Hc].
Qed.







Section OpenFieldsOfPayload.
Context `{Environment}.








End OpenFieldsOfPayload.



(** ** The field count *)

Lemma bind_one {A B} (k : A -> list B) (x : A) : [x] ≫= k = k x.
Proof. cbn. apply app_nil_r. Qed.

Lemma bind_fmap_comp {A B C} (f : A -> B) (k : B -> list C) (l : list A) :
  (f <$> l) ≫= k = l ≫= (k ∘ f).
Proof.
  induction l as [ | x l IH]; [reflexivity | ].
  rewrite fmap_cons, !bind_cons, IH. reflexivity.
Qed.

(** The NULL row an outer join puts in for a missing relative is never
    counted as accepted. *)
Lemma outer_join_accepted {A B} (related : A -> list B) (row : option A)
    (k : option B -> list (option bool)) :
  List.filter is_True (k None) = [] ->
  List.filter is_True (outer_join related row ≫= k) =
    match row with
    | None => []
    | Some a => List.filter is_True (related a ≫= (k ∘ Some))
    end.
Proof.
  intros Hnull. destruct row as [a | ]; cbn [outer_join].
  - destruct (related a) as [ | b bs] eqn:Hrel.
    + rewrite bind_cons, List.filter_app, Hnull. reflexivity.
    + rewrite bind_fmap_comp. reflexivity.
  - rewrite bind_cons, List.filter_app, Hnull. reflexivity.
Qed.

Lemma accepted_of_rows (rows : list Field.t) :
  List.filter is_True
    (rows ≫= ((fun f : option Field.t => [f ≫= Field.accepted]) ∘ Some)) =
  Field.accepted <$> List.filter (fun f => is_True (Field.accepted f)) rows.
Proof.
  induction rows as [ | f fs IH]; [reflexivity | ].
  rewrite bind_cons, List.filter_app, IH. cbn.
  destruct (is_True (Field.accepted f)); reflexivity.
Qed.

Lemma accepted_through {A} (related : A -> list Field.t)
    (k : option A -> list (option bool)) (rows : list A) :
  (forall a, List.filter is_True (k (Some a)) =
             Field.accepted
               <$> List.filter (fun f => is_True (Field.accepted f)) (related a)) ->
  List.filter is_True (rows ≫= (k ∘ Some)) =
  Field.accepted
    <$> List.filter (fun f => is_True (Field.accepted f)) (rows ≫= related).
Proof.
  intros Hk. induction rows as [ | a rows IH]; [reflexivity | ].
  rewrite !bind_cons, !List.filter_app, fmap_app, IH. f_equal. apply Hk.
Qed.

(** The accepted count of the endpoint is the number of Field rows of
    the review, directly under its blocks or under their compounds,
    whose accepted flag is True. *)
Lemma accepted_count_correct (s : Store) (review_id : string)
    (r : Review.t) :
  filter (fun r => Review.id r = review_id) (reviews s) = [r] ->
  List.length
    (List.filter is_True
       (values_primitives_accepted s review_id
        ++ values_compound_primitives_accepted s review_id)) =
  accepted_count (review_direct_primitives s r)
  + accepted_count (review_compound_primitives s r).
Proof.
  intros Hr. rewrite List.filter_app, length_app.
  unfold accepted_count.
  rewrite <- (length_fmap Field.accepted
                (List.filter _ (review_direct_primitives s r))).
  rewrite <- (length_fmap Field.accepted
                (List.filter _ (review_compound_primitives s r))).
  f_equal; f_equal.
  - unfold values_primitives_accepted, review_direct_primitives.
    rewrite Hr, bind_one, outer_join_accepted by reflexivity.
    apply accepted_through. intros b.
    rewrite outer_join_accepted by reflexivity.
    apply accepted_of_rows.
  - unfold values_compound_primitives_accepted, review_compound_primitives.
    rewrite Hr, bind_one, outer_join_accepted by reflexivity.
    apply (accepted_through
             (fun b => c ← metadatablock_compounds s b; compound_primitives s c)).
    intros b. rewrite outer_join_accepted by reflexivity.
    apply accepted_through. intros c.
    rewrite outer_join_accepted by reflexivity.
    apply accepted_of_rows.
Qed.

Lemma outer_join_full {A B C} (related : A -> list B) (a : A)
    (k : option B -> list C) :
  related a <> [] ->
  outer_join related (Some a) ≫= k = related a ≫= (k ∘ Some).
Proof.
  intros Hrel. cbn [outer_join].
  destruct (related a) as [ | b bs]; [congruence | ].
  apply bind_fmap_comp.
Qed.

Lemma bind_through {A B C} (related : A -> list B) (g : B -> C)
    (k : A -> list C) (rows : list A) :
  Forall (fun a => k a = g <$> related a) rows ->
  rows ≫= k = g <$> (rows ≫= related).
Proof.
  induction 1 as [ | a rows Ha _ IH]; [reflexivity | ].
  rewrite !bind_cons, fmap_app, Ha, IH. reflexivity.
Qed.

(** Where no outer join has to put in a NULL row (the review has a
    block, every block a direct primitive and a compound, every compound
    a primitive), the reported total is one less than the number of
    Field rows of the review. *)
Lemma full_review_total_is_one_short (w : World) (review_id : string)
    (r : Review.t) :
  let s := db w in
  filter (fun r => Review.id r = review_id) (reviews s) = [r] ->
  review_metadatablocks s r <> [] ->
  Forall (fun b => metadatablock_primitives s b <> []
                   /\ metadatablock_compounds s b <> []
                   /\ Forall (fun c => compound_primitives s c <> [])
                        (metadatablock_compounds s b))
    (review_metadatablocks s r) ->
  get_field_count review_id w =
    (w, Ok {| data :=
                FieldCountBody
                  (Z.of_nat (List.length (review_direct_primitives s r)
                             + List.length (review_compound_primitives s r))
                   - 1)
                  (accepted_count (review_direct_primitives s r)
                   + accepted_count (review_compound_primitives s r));
              status := HTTP_200_OK |}).
Proof.
  intros s Hr Hblocks Hfull.
  unfold get_field_count. rewrite run_bind. cbn [get_db]. fold s.
  rewrite (accepted_count_correct s review_id r Hr).
  assert (Hp : values_primitives_accepted s review_id =
               Field.accepted <$> review_direct_primitives s r).
  { unfold values_primitives_accepted, review_direct_primitives.
    rewrite Hr, bind_one, outer_join_full by exact Hblocks.
    apply bind_through. eapply Forall_impl; [exact Hfull | ].
    intros b (Hprims & _). unfold compose.
    rewrite outer_join_full by exact Hprims.
    generalize (metadatablock_primitives s b). intros fs.
    induction fs as [ | f fs IH]; [reflexivity | ].
    rewrite bind_cons, IH. reflexivity. }
  assert (Hc : values_compound_primitives_accepted s review_id =
               Field.accepted <$> review_compound_primitives s r).
  { unfold values_compound_primitives_accepted, review_compound_primitives.
    rewrite Hr, bind_one, outer_join_full by exact Hblocks.
    apply (bind_through
             (fun b => c ← metadatablock_compounds s b; compound_primitives s c)).
    eapply Forall_impl; [exact Hfull | ].
    intros b (_ & Hcompounds & Hfields). unfold compose.
    rewrite outer_join_full by exact Hcompounds.
    apply bind_through. eapply Forall_impl; [exact Hfields | ].
    intros c Hc. unfold compose.
    rewrite outer_join_full by exact Hc.
    generalize (compound_primitives s c). intros fs.
    induction fs as [ | f fs IH]; [reflexivity | ].
    rewrite bind_cons, IH. reflexivity. }
  rewrite Hp, Hc, !length_fmap.
  unfold mret, handler_ret.
  rewrite Nat2Z.inj_add. reflexivity.
Qed.

(** C4, at the review of the specification's example (three primitives
    directly under the block, two of them accepted; two primitives under
    a compound, one accepted): the endpoint reports a total of 4, one
    less than the 5 rows there are, and an accepted count of 3. *)
Theorem field_count_of_sample_review :
  get_field_count "r1" sample_world =
    (sample_world, Ok {| data := FieldCountBody 4 3; status := HTTP_200_OK |})
  /\ List.length (review_direct_primitives sample_store sample_review) = 3
  /\ accepted_count (review_direct_primitives sample_store sample_review) = 2
  /\ List.length (review_compound_primitives sample_store sample_review) = 2
  /\ accepted_count (review_compound_primitives sample_store sample_review) = 1.
Proof. repeat split; vm_compute; reflexivity. Qed.

(** * Further properties of the handlers *)

(** ** Accounting for the rows of an ingestion *)

Section Accounting.
Context `{Environment}.

Lemma accounted_nil (w : World) : accounted w [] [] [].
Proof. unfold accounted, keys. reflexivity. Qed.

Lemma accounted_app (w : World) b1 c1 f1 b2 c2 f2 :
  accounted w b1 c1 f1 ->
  accounted (grown w b1 c1 f1) b2 c2 f2 ->
  accounted w (b1 ++ b2) (c1 ++ c2) (f1 ++ f2).
Proof.
  unfold accounted, keys. cbn [grown uuid_drawn]. intros H1 H2.
  assert (Hseq :
    seq (uuid_drawn w)
      (List.length (b1 ++ b2) + List.length (c1 ++ c2)
       + List.length (f1 ++ f2)) =
    (seq (uuid_drawn w) (List.length b1 + List.length c1 + List.length f1)
     ++ seq (uuid_drawn w + List.length b1 + List.length c1 + List.length f1)
          (List.length b2 + List.length c2 + List.length f2))%list).
  { rewrite !length_app.
    replace (List.length b1 + List.length b2
             + (List.length c1 + List.length c2)
             + (List.length f1 + List.length f2))
      with ((List.length b1 + List.length c1 + List.length f1)
            + (List.length b2 + List.length c2 + List.length f2)) by lia.
    rewrite seq_app. do 2 f_equal. lia. }
  rewrite Hseq, (fmap_app uuid4).
  etransitivity; [ | apply Permutation_app; [exact H1 | exact H2]].
  rewrite !fmap_app. solve_Permutation.
Qed.

End Accounting.

Section Integrity.
Context `{Environment}.

Lemma accounted_field (w : World) (kw : FieldKwargs.t) :
  accounted w [] [] [instantiate (R := Field.t) (uuid4 (uuid_drawn w)) kw].
Proof. unfold accounted, keys. reflexivity. Qed.

Lemma accounted_compound (w : World) (kw : CompoundKwargs.t) :
  accounted w [] [instantiate (R := Compound.t) (uuid4 (uuid_drawn w)) kw] [].
Proof. unfold accounted, keys. reflexivity. Qed.

Lemma accounted_block (w : World) (kw : MetadatablockKwargs.t) :
  accounted w [instantiate (R := Metadatablock.t) (uuid4 (uuid_drawn w)) kw]
    [] [].
Proof. unfold accounted, keys. reflexivity. Qed.

Local Ltac no_field_created :=
  exists []; rewrite grown_nil;
  split; [reflexivity | split; [constructor | apply accounted_nil]].

Lemma compound_loop_accounted (compound : value) (fk : Compound.t)
    (todo : list value) (w : World) :
  exists new_fields,
    (process_compound_loop compound fk todo w).1 = grown w [] [] new_fields
    /\ Forall (fun f => Field.metadatablock f = None
                        /\ Field.compound f = Some (Compound.id fk))
         new_fields
    /\ accounted w [] [] new_fields.
Proof.
  revert w. induction todo as [ | x rest IH]; intros w; [no_field_created | ].
  cbn [process_compound_loop]. rewrite run_lift_bind.
  destruct (unpack_pair x) as [[field_name v] | e]; [ | no_field_created].
  rewrite run_lift_bind.
  destruct (as_name field_name) as [n | e]; [ | no_field_created].
  destruct (startswith_underscore n || is_None v); [apply IH | ].
  rewrite run_lift_bind.
  destruct (get_model_fields compound) as [mf | e]; [ | no_field_created].
  rewrite run_lift_bind.
  destruct (getitem mf n) as [info | e]; [ | no_field_created].
  rewrite run_lift_bind.
  destruct (_process_primitive n v info (Some fk)) as [attrs | e];
    [ | no_field_created].
  rewrite run_bind, create_field.
  match goal with
  | |- context [process_compound_loop _ _ _ (grown w [] [] [?row])] =>
      destruct (IH (grown w [] [] [row])) as (new_fields & Heq & Hall & Hacc);
      exists (row :: new_fields)
  end.
  rewrite Heq, grown_grown. split; [reflexivity | ].
  split; [constructor; [split; reflexivity | exact Hall] | ].
  apply (accounted_app w [] [] [_] [] [] new_fields);
    [apply accounted_field | exact Hacc].
Qed.

Lemma process_compound_accounted (entry : value) (fk : Compound.t)
    (w : World) :
  exists new_fields,
    (_process_compound entry fk w).1 = grown w [] [] new_fields
    /\ Forall (fun f => Field.metadatablock f = None
                        /\ Field.compound f = Some (Compound.id fk))
         new_fields
    /\ accounted w [] [] new_fields.
Proof.
  unfold _process_compound. rewrite run_lift_bind.
  destruct (py_iter entry) as [todo | e]; [ | no_field_created].
  apply compound_loop_accounted.
Qed.

(** A field under one of the compounds stays under one of them when
    more compounds are listed. *)
Lemma under_compound_mono (cs cs' : list Compound.t) (fs : list Field.t) :
  cs ⊆ cs' ->
  Forall (fun f => Field.metadatablock f = None
                   /\ exists c, c ∈ cs /\ Field.compound f = Some (Compound.id c))
    fs ->
  Forall (fun f => Field.metadatablock f = None
                   /\ exists c, c ∈ cs' /\ Field.compound f = Some (Compound.id c))
    fs.
Proof.
  intros Hsub Hfs. eapply Forall_impl; [exact Hfs | ].
  intros f (Hnone & c & Hc & Hf).
  split; [exact Hnone | ]. exists c. split; [apply Hsub, Hc | exact Hf].
Qed.

Lemma entries_accounted (field_name : string) (fk : Metadatablock.t)
    (entries : list value) (w : World) :
  exists new_compounds new_fields,
    (process_entries field_name fk entries w).1 =
      grown w [] new_compounds new_fields
    /\ Forall (fun c => Compound.metadatablock c = Metadatablock.id fk)
         new_compounds
    /\ Forall (fun f => Field.metadatablock f = None
                        /\ exists c, c ∈ new_compounds
                                     /\ Field.compound f = Some (Compound.id c))
         new_fields
    /\ accounted w [] new_compounds new_fields.
Proof.
  revert w. induction entries as [ | entry rest IH]; intros w.
  - exists [], []. rewrite grown_nil.
    repeat split; try constructor.
  - rewrite entries_cons. cbn zeta.
    set (compound := instantiate (uuid4 (uuid_drawn w)) _).
    destruct (process_compound_accounted entry compound
                (grown w [] [compound] []))
      as (fields1 & Heq1 & Hall1 & Hacc1).
    assert (Hunder1 :
      Forall (fun f => Field.metadatablock f = None
                       /\ exists c, c ∈ [compound]
                                    /\ Field.compound f = Some (Compound.id c))
        fields1).
    { eapply Forall_impl; [exact Hall1 | ]. intros f [Hnone Hf].
      split; [exact Hnone | ]. exists compound.
      split; [apply list_elem_of_here | exact Hf]. }
    assert (Hacc : accounted w [] [compound] fields1).
    { apply (accounted_app w [] [compound] [] [] [] fields1);
        [apply accounted_compound | exact Hacc1]. }
    destruct (_process_compound entry compound (grown w [] [compound] []))
      as [w1 [[] | e]]; simpl in Heq1; subst w1.
    + rewrite grown_grown. cbn [app].
      destruct (IH (grown w [] [compound] fields1))
        as (compounds2 & fields2 & Heq2 & Hc2 & Hf2 & Hacc2).
      exists (compound :: compounds2), (fields1 ++ fields2)%list.
      rewrite Heq2, grown_grown. cbn [app].
      split; [reflexivity | ].
      split; [constructor; [reflexivity | exact Hc2] | ].
      split.
      * apply Forall_app. split.
        -- eapply under_compound_mono; [ | exact Hunder1].
           intros c Hc. apply list_elem_of_singleton in Hc as ->.
           apply list_elem_of_here.
        -- eapply under_compound_mono; [ | exact Hf2].
           intros c Hc. apply list_elem_of_further, Hc.
      * apply (accounted_app w [] [compound] fields1 [] compounds2 fields2);
          assumption.
    + exists [compound], fields1. rewrite grown_grown. cbn [app].
      split; [reflexivity | ].
      split; [constructor; [reflexivity | constructor] | ].
      split; assumption.
Qed.

Lemma has_one_parent_mono (bs bs' : list Metadatablock.t)
    (cs cs' : list Compound.t) (fs : list Field.t) :
  bs ⊆ bs' -> cs ⊆ cs' ->
  Forall (has_one_parent bs cs) fs -> Forall (has_one_parent bs' cs') fs.
Proof.
  intros Hbs Hcs Hfs. eapply Forall_impl; [exact Hfs | ].
  intros f [(Hnone & b & Hb & Hf) | (Hnone & c & Hc & Hf)].
  - left. split; [exact Hnone | ]. exists b. split; [apply Hbs, Hb | exact Hf].
  - right. split; [exact Hnone | ]. exists c. split; [apply Hcs, Hc | exact Hf].
Qed.

Lemma subseteq_app_l {A} (l k : list A) : l ⊆ (l ++ k)%list.
Proof. intros x Hx. apply elem_of_app. left. exact Hx. Qed.

Lemma subseteq_app_r {A} (l k : list A) : k ⊆ (l ++ k)%list.
Proof. intros x Hx. apply elem_of_app. right. exact Hx. Qed.

Local Ltac nothing_new :=
  exists [], []; rewrite grown_nil;
  split; [reflexivity | ];
  split; [constructor | ];
  split; [constructor | apply accounted_nil].

Lemma metadatablock_loop_accounted (block : value) (fk : Metadatablock.t)
    (todo : list value) (w : World) :
  exists new_compounds new_fields,
    (process_metadatablock_loop block fk todo w).1 =
      grown w [] new_compounds new_fields
    /\ Forall (fun c => Compound.metadatablock c = Metadatablock.id fk)
         new_compounds
    /\ Forall (has_one_parent [fk] new_compounds) new_fields
    /\ accounted w [] new_compounds new_fields.
Proof.
  revert w. induction todo as [ | x rest IH]; intros w; [nothing_new | ].
  cbn [process_metadatablock_loop]. rewrite run_lift_bind.
  destruct (unpack_pair x) as [[field_name v] | e]; [ | nothing_new].
  rewrite run_lift_bind.
  destruct (as_name field_name) as [n | e]; [ | nothing_new].
  destruct (startswith_underscore n); [apply IH | ].
  destruct (is_None v); [apply IH | ].
  destruct (eq_empty_list v); [apply IH | ].
  rewrite run_lift_bind.
  destruct (get_model_fields block) as [mf | e]; [ | nothing_new].
  rewrite run_lift_bind.
  destruct (getitem mf n) as [info | e]; [ | nothing_new].
  destruct (negb (is_compound info)).
  - rewrite run_lift_bind.
    destruct (_process_primitive n v info None) as [attrs | e];
      [ | nothing_new].
    rewrite run_bind, create_field.
    match goal with
    | |- context [process_metadatablock_loop _ _ _ (grown w [] [] [?row])] =>
        destruct (IH (grown w [] [] [row]))
          as (compounds2 & fields2 & Heq2 & Hc2 & Hf2 & Hacc2);
        exists compounds2, (row :: fields2)
    end.
    rewrite Heq2, grown_grown. split; [reflexivity | ].
    split; [exact Hc2 | ].
    split.
    + constructor; [ | exact Hf2].
      left. split; [reflexivity | ]. exists fk.
      split; [apply list_elem_of_here | reflexivity].
    + apply (accounted_app w [] [] [_] [] compounds2 fields2);
        [apply accounted_field | exact Hacc2].
  - rewrite run_bind.
    destruct (entries_accounted n fk (as_entries v) w)
      as (compounds1 & fields1 & Heq1 & Hc1 & Hf1 & Hacc1).
    assert (Hparent1 : Forall (has_one_parent [fk] compounds1) fields1).
    { eapply Forall_impl; [exact Hf1 | ]. intros f Hf. right. exact Hf. }
    destruct (process_entries n fk (as_entries v) w) as [w1 [[] | e]];
      simpl in Heq1; subst w1.
    + destruct (IH (grown w [] compounds1 fields1))
        as (compounds2 & fields2 & Heq2 & Hc2 & Hf2 & Hacc2).
      exists (compounds1 ++ compounds2)%list, (fields1 ++ fields2)%list.
      rewrite Heq2, grown_grown. split; [reflexivity | ].
      split; [apply Forall_app; split; assumption | ].
      split.
      * apply Forall_app. split.
        -- eapply has_one_parent_mono; [ | | exact Hparent1];
             [intros b Hb; exact Hb | apply subseteq_app_l].
        -- eapply has_one_parent_mono; [ | | exact Hf2];
             [intros b Hb; exact Hb | apply subseteq_app_r].
      * apply (accounted_app w [] compounds1 fields1 [] compounds2 fields2);
          assumption.
    + exists compounds1, fields1. repeat split; assumption.
Qed.

Lemma process_metadatablock_accounted (block : value)
    (fk : Metadatablock.t) (w : World) :
  exists new_compounds new_fields,
    (_process_metadatablock block fk w).1 =
      grown w [] new_compounds new_fields
    /\ Forall (fun c => Compound.metadatablock c = Metadatablock.id fk)
         new_compounds
    /\ Forall (has_one_parent [fk] new_compounds) new_fields
    /\ accounted w [] new_compounds new_fields.
Proof.
  unfold _process_metadatablock. rewrite run_lift_bind.
  destruct (py_iter block) as [todo | e]; [ | nothing_new].
  apply metadatablock_loop_accounted.
Qed.

(** The rows the loop over a dataset creates: blocks of the review,
    compounds of those blocks, fields with one parent among them, keyed
    by the UUIDs drawn; when the loop returns, one block for each
    surviving block of the dataset, in order. *)
Lemma fetch_blocks_accounted (review : Review.t)
    (blocks : list (string * value)) (w : World) :
  exists new_blocks new_compounds new_fields,
    (fetch_blocks review blocks w).1 =
      grown w new_blocks new_compounds new_fields
    /\ Forall (fun b => Metadatablock.review b = Review.id review) new_blocks
    /\ Forall (fun c => exists b, b ∈ new_blocks
                         /\ Compound.metadatablock c = Metadatablock.id b)
         new_compounds
    /\ Forall (has_one_parent new_blocks new_compounds) new_fields
    /\ accounted w new_blocks new_compounds new_fields
    /\ ((fetch_blocks review blocks w).2 = Ok () ->
        Metadatablock.name <$> new_blocks = surviving_names blocks).
Proof.
  revert w. induction blocks as [ | [block_name block] blocks IH]; intros w.
  - exists [], [], []. rewrite grown_nil.
    repeat split; try constructor.
  - rewrite fetch_blocks_cons. unfold surviving_names, survives.
    cbn [List.filter fst snd].
    destruct (_is_empty block) as [[ | ] | e] eqn:Hempty.
    + apply IH.
    + cbn zeta. set (row := instantiate (uuid4 (uuid_drawn w)) _).
      destruct (process_metadatablock_accounted block row
                  (grown w [row] [] []))
        as (compounds1 & fields1 & Heq1 & Hc1 & Hf1 & Hacc1).
      assert (Hunder1 :
        Forall (fun c => exists b, b ∈ [row]
                         /\ Compound.metadatablock c = Metadatablock.id b)
          compounds1).
      { eapply Forall_impl; [exact Hc1 | ]. intros c Hc. exists row.
        split; [apply list_elem_of_here | exact Hc]. }
      assert (Hacc : accounted w [row] compounds1 fields1).
      { apply (accounted_app w [row] [] [] [] compounds1 fields1);
          [apply accounted_block | exact Hacc1]. }
      destruct (_process_metadatablock block row (grown w [row] [] []))
        as [w1 [[] | e]]; simpl in Heq1; subst w1.
      * rewrite grown_grown. cbn [app].
        destruct (IH (grown w [row] compounds1 fields1))
          as (blocks2 & compounds2 & fields2
              & Heq2 & Hb2 & Hc2 & Hf2 & Hacc2 & Hnames2).
        exists (row :: blocks2), (compounds1 ++ compounds2)%list,
          (fields1 ++ fields2)%list.
        rewrite Heq2, grown_grown. cbn [app].
        split; [reflexivity | ].
        split; [constructor; [reflexivity | exact Hb2] | ].
        split.
        { apply Forall_app. split.
          - eapply Forall_impl; [exact Hunder1 | ].
            intros c (b & Hb & Hc). exists b.
            split; [ | exact Hc].
            apply list_elem_of_singleton in Hb as ->. apply list_elem_of_here.
          - eapply Forall_impl; [exact Hc2 | ].
            intros c (b & Hb & Hc). exists b.
            split; [apply list_elem_of_further, Hb | exact Hc]. }
        split.
        { apply Forall_app. split.
          - eapply has_one_parent_mono; [ | | exact Hf1].
            + intros b Hb. apply list_elem_of_singleton in Hb as ->.
              apply list_elem_of_here.
            + apply subseteq_app_l.
          - eapply has_one_parent_mono; [ | | exact Hf2].
            + intros b Hb. apply list_elem_of_further, Hb.
            + apply subseteq_app_r. }
        split.
        { apply (accounted_app w [row] compounds1 fields1
                   blocks2 compounds2 fields2); assumption. }
        intros Hok. rewrite fmap_cons, (Hnames2 Hok). reflexivity.
      * exists [row], compounds1, fields1. rewrite grown_grown. cbn [app].
        split; [reflexivity | ].
        split; [constructor; [reflexivity | constructor] | ].
        split; [exact Hunder1 | ].
        split; [ | split; [exact Hacc | discriminate]].
        eapply has_one_parent_mono; [ | | exact Hf1];
          intros x Hx; exact Hx.
    + exists [], [], []. rewrite grown_nil.
      repeat split; try constructor. discriminate.
Qed.

End Integrity.

(** ** The fetch endpoint, path by path *)

Section FetchPaths.
Context `{Environment}.

Lemma stored_nil (w : World) : stored w [] [] [] [] = w.
Proof.
  destruct w as [[] ? ?]. unfold stored. cbn. rewrite !app_nil_r.
  f_equal. lia.
Qed.

Lemma stored_review (w : World) (review : Review.t) b c f :
  grown {| db := save review (db w);
           uuid_drawn := S (uuid_drawn w);
           http_log := http_log w |} b c f
  = stored w [review] b c f.
Proof. unfold grown, with_rows, stored. cbn. f_equal. lia. Qed.

(** Either the handler leaves the world alone, or it is on the path that
    stores a new review and runs the loop over the dataset. *)
Lemma fetch_dataset_paths (request : Request) (w : World) :
  (exists r, fetch_dataset request w = (w, r)
             /\ forall review status,
                  r = Ok {| data := ReviewBody review; status := status |} ->
                  exists row doi,
                    query_params request !! "doi" = Some doi
                    /\ filter (fun r => Review.doi r = doi) (reviews (db w))
                       = [row]
                    /\ review = ReviewSerializer (db w) row)
  \/ (exists site_url doi client dataset,
        query_params request !! "site_url" = Some site_url
        /\ query_params request !! "doi" = Some doi
        /\ Dataverse (Some site_url) (query_params request !! "api_token")
           = Ok client
        /\ filter (fun r => Review.doi r = doi) (reviews (db w)) = []
        /\ load_dataset client doi = Ok dataset
        /\ fetch_dataset request w =
           let review := new_review_row w site_url doi in
           match fetch_blocks review (dataset_metadatablocks dataset)
                   {| db := save review (db w);
                      uuid_drawn := S (uuid_drawn w);
                      http_log := http_log w |} with
           | (w2, Ok _) =>
               (w2, Ok {| data := ReviewBody (ReviewSerializer (db w2) review);
                          status := HTTP_200_OK |})
           | (w2, Raise e) => (w2, Raise e)
           end).
Proof.
  unfold fetch_dataset. rewrite run_lift_bind.
  destruct (Dataverse _ _) as [client | e] eqn:Hclient.
  2: { left. eexists. split; [reflexivity | discriminate]. }
  destruct (query_params request !! "site_url") as [site_url | ] eqn:Hsite.
  2: { left. eexists. split; [reflexivity | discriminate]. }
  destruct (query_params request !! "doi") as [doi | ] eqn:Hdoi.
  2: { left. eexists. split; [reflexivity | discriminate]. }
  rewrite run_bind. cbn [get_db].
  destruct (filter (fun r => Review.doi r = doi) (reviews (db w)))
    as [ | row found] eqn:Hfound.
  - rewrite bool_decide_eq_false_2 by (intros Hne; apply Hne; reflexivity).
    rewrite run_lift_bind.
    destruct (load_dataset client doi) as [dataset | e] eqn:Hload.
    2: { left. eexists. split; [reflexivity | discriminate]. }
    right. exists site_url, doi, client, dataset.
    repeat (split; [reflexivity || assumption | ]).
    rewrite run_bind. unfold _create_and_save at 1. cbn zeta.
    fold (new_review_row w site_url doi).
    rewrite run_bind.
    destruct (fetch_blocks _ _ _) as [w2 [[] | e]]; reflexivity.
  - rewrite bool_decide_eq_true_2 by discriminate.
    rewrite run_lift_bind. left.
    destruct found as [ | row' found]; cbn [objects_get].
    + eexists. split; [reflexivity | ].
      intros review status [= <- _]. exists row, doi.
      split; [reflexivity | split; [exact Hfound | reflexivity]].
    + eexists. split; [reflexivity | discriminate].
Qed.

(** What the handler has written when it is done, whatever the request
    and the outcome. *)
Lemma fetch_dataset_trace (request : Request) (w : World) :
  exists new_reviews new_blocks new_compounds new_fields,
    (fetch_dataset request w).1 =
      stored w new_reviews new_blocks new_compounds new_fields
    /\ (new_reviews = []
        \/ exists site_url doi,
             new_reviews = [new_review_row w site_url doi])
    /\ Forall (fun b => exists r, r ∈ new_reviews
                        /\ Metadatablock.review b = Review.id r) new_blocks
    /\ Forall (fun c => exists b, b ∈ new_blocks
                        /\ Compound.metadatablock c = Metadatablock.id b)
         new_compounds
    /\ Forall (has_one_parent new_blocks new_compounds) new_fields
    /\ (Review.id <$> new_reviews)
       ++ keys new_blocks new_compounds new_fields
       ≡ₚ uuid4 <$> seq (uuid_drawn w)
                      (List.length new_reviews + List.length new_blocks
                       + List.length new_compounds + List.length new_fields).
Proof.
  destruct (fetch_dataset_paths request w)
    as [(r & Hrun & _)
       | (site_url & doi & client & dataset & _ & _ & _ & _ & _ & Hrun)].
  - exists [], [], [], []. rewrite Hrun, stored_nil.
    split; [reflexivity | ]. split; [left; reflexivity | ].
    repeat split; constructor.
  - cbn zeta in Hrun. set (review := new_review_row w site_url doi) in *.
    set (w1 := {| db := save review (db w); uuid_drawn := S (uuid_drawn w);
                  http_log := http_log w |}) in *.
    destruct (fetch_blocks_accounted review (dataset_metadatablocks dataset) w1)
      as (new_blocks & new_compounds & new_fields
          & Heq & Hb & Hc & Hf & Hacc & _).
    exists [review], new_blocks, new_compounds, new_fields.
    assert (Hworld : (fetch_dataset request w).1 =
                     stored w [review] new_blocks new_compounds new_fields).
    { rewrite Hrun.
      destruct (fetch_blocks review (dataset_metadatablocks dataset) w1)
        as [w2 [[] | e]]; cbn [fst] in *; subst w2; apply stored_review. }
    split; [exact Hworld | ].
    split; [right; exists site_url, doi; reflexivity | ].
    split.
    { eapply Forall_impl; [exact Hb | ]. intros b Hreview. exists review.
      split; [apply list_elem_of_here | exact Hreview]. }
    split; [exact Hc | ]. split; [exact Hf | ].
    unfold accounted in Hacc. cbn [uuid_drawn w1] in Hacc.
    cbn [fmap list_fmap List.length app].
    change (1 + List.length new_blocks + List.length new_compounds
            + List.length new_fields)
      with (S (List.length new_blocks + List.length new_compounds
               + List.length new_fields)).
    cbn [seq]. rewrite fmap_cons.
    apply Permutation_cons; [reflexivity | exact Hacc].
Qed.

End FetchPaths.

(** ** What the fetch endpoint keeps *)

(** X1.  Whatever the request and whatever the outcome, [fetch_dataset]
    only appends: the rows that were stored are still there, in place;
    reviewers, files, messages and the request log are untouched; at most
    one Review row is added; and one UUID was drawn for each new row. *)
Theorem fetch_dataset_append_only `{Environment} (request : Request)
    (w : World) :
  exists new_reviews new_blocks new_compounds new_fields,
    (fetch_dataset request w).1 =
      stored w new_reviews new_blocks new_compounds new_fields
    /\ List.length new_reviews <= 1.
Proof.
  destruct (fetch_dataset_trace request w)
    as (new_reviews & new_blocks & new_compounds & new_fields
        & Hworld & Hreviews & _).
  exists new_reviews, new_blocks, new_compounds, new_fields.
  split; [exact Hworld | ].
  destruct Hreviews as [-> | (site_url & doi & ->)]; cbn; lia.
Qed.

(** X2.  The rows one call of [fetch_dataset] adds hang together: every
    new block belongs to the new review, every new compound to a new
    block, and every new field has exactly one parent, a new block or a
    new compound, the other foreign key being null. *)
Theorem fetch_dataset_rows_have_parents `{Environment} (request : Request)
    (w : World) :
  exists new_reviews new_blocks new_compounds new_fields,
    (fetch_dataset request w).1 =
      stored w new_reviews new_blocks new_compounds new_fields
    /\ Forall (fun b => exists r, r ∈ new_reviews
                        /\ Metadatablock.review b = Review.id r) new_blocks
    /\ Forall (fun c => exists b, b ∈ new_blocks
                        /\ Compound.metadatablock c = Metadatablock.id b)
         new_compounds
    /\ Forall (has_one_parent new_blocks new_compounds) new_fields.
Proof.
  destruct (fetch_dataset_trace request w)
    as (new_reviews & new_blocks & new_compounds & new_fields
        & Hworld & _ & Hb & Hc & Hf & _).
  exists new_reviews, new_blocks, new_compounds, new_fields. auto.
Qed.

(** X3.  The primary keys of the rows one call adds are the UUIDs drawn
    during the call, each used once; so when the UUID source does not
    repeat itself, the new rows have pairwise distinct keys, across the
    four tables. *)
Theorem fetch_dataset_distinct_keys `{Environment} (request : Request)
    (w : World) :
  Inj (=) (=) uuid4 ->
  exists new_reviews new_blocks new_compounds new_fields,
    (fetch_dataset request w).1 =
      stored w new_reviews new_blocks new_compounds new_fields
    /\ (Review.id <$> new_reviews)
       ++ keys new_blocks new_compounds new_fields
       ≡ₚ uuid4 <$> seq (uuid_drawn w)
                      (uuid_drawn (fetch_dataset request w).1 - uuid_drawn w)
    /\ NoDup ((Review.id <$> new_reviews)
              ++ keys new_blocks new_compounds new_fields).
Proof.
  intros Hinj.
  destruct (fetch_dataset_trace request w)
    as (new_reviews & new_blocks & new_compounds & new_fields
        & Hworld & _ & _ & _ & _ & Hkeys).
  exists new_reviews, new_blocks, new_compounds, new_fields.
  split; [exact Hworld | ].
  assert (Hdrawn :
    uuid_drawn (fetch_dataset request w).1 - uuid_drawn w =
    List.length new_reviews + List.length new_blocks
    + List.length new_compounds + List.length new_fields).
  { rewrite Hworld. cbn [stored uuid_drawn]. lia. }
  rewrite Hdrawn. split; [exact Hkeys | ].
  rewrite Hkeys. apply NoDup_fmap_2; [exact Hinj | apply NoDup_seq].
Qed.

Lemma sample_uuid4_inj : Inj (=) (=) (uuid4 (Environment := sample_environment)).
Proof.
  intros n m Heq. cbn in Heq. injection Heq as Heq.
  apply (inj pretty), Heq.
Qed.

Lemma fetch_dataset_distinct_keys_witness :
  exists new_reviews new_blocks new_compounds new_fields,
    (fetch_dataset (H := sample_environment) request_new_doi empty_world).1 =
      stored empty_world new_reviews new_blocks new_compounds new_fields
    /\ NoDup ((Review.id <$> new_reviews)
              ++ keys new_blocks new_compounds new_fields).
Proof.
  destruct (fetch_dataset_distinct_keys (H := sample_environment)
              request_new_doi empty_world sample_uuid4_inj)
    as (new_reviews & new_blocks & new_compounds & new_fields
        & Hworld & _ & Hnodup).
  exists new_reviews, new_blocks, new_compounds, new_fields.
  split; assumption.
Defined.

Lemma filter_all {A} (P : A -> Prop) `{forall x, Decision (P x)}
    (l : list A) :
  Forall P l -> filter P l = l.
Proof.
  induction 1 as [ | x l Hx _ IH]; [reflexivity | ].
  rewrite filter_cons_True by exact Hx. rewrite IH. reflexivity.
Qed.

Lemma filter_doi_new_review `{Environment} (w w2 : World)
    (site_url doi : string) b c f :
  filter (fun r => Review.doi r = doi) (reviews (db w)) = [] ->
  w2 = grown {| db := save (new_review_row w site_url doi) (db w);
                uuid_drawn := S (uuid_drawn w);
                http_log := http_log w |} b c f ->
  filter (fun r => Review.doi r = doi) (reviews (db w2))
  = [new_review_row w site_url doi].
Proof.
  intros Hfound ->. cbn [grown db with_rows reviews save Review_model].
  rewrite filter_app, Hfound, filter_cons_True by reflexivity.
  reflexivity.
Qed.

(** X4.  A fetch that returned normally can be repeated: sent again to
    the world it left, with the collaborators answering as before, the
    same request gets the identical response and changes nothing more.
    In particular the second fetch of a dataset finds the review the
    first one stored and creates no second one. *)
Theorem fetch_dataset_refetch `{Environment} (request : Request) (w : World)
    (response : Response) :
  (fetch_dataset request w).2 = Ok response ->
  fetch_dataset request (fetch_dataset request w).1 =
    ((fetch_dataset request w).1, Ok response).
Proof.
  intros Hok.
  destruct (fetch_dataset_paths request w)
    as [(r & Hrun & _)
       | (site_url & doi & client & dataset
          & Hsite & Hdoi & Hclient & Hfound & Hload & Hrun)].
  - rewrite Hrun in Hok |- *. cbn in Hok |- *. subst r. exact Hrun.
  - cbn zeta in Hrun. set (review := new_review_row w site_url doi) in *.
    destruct (fetch_blocks_accounted review (dataset_metadatablocks dataset)
                {| db := save review (db w); uuid_drawn := S (uuid_drawn w);
                   http_log := http_log w |})
      as (b & c & f & Heq & _).
    destruct (fetch_blocks review (dataset_metadatablocks dataset) _)
      as [w2 [[] | e]]; rewrite Hrun in Hok |- *; cbn in Hok, Heq |- *;
      [ | discriminate].
    injection Hok as <-.
    pose proof (filter_doi_new_review w w2 site_url doi b c f Hfound Heq)
      as Hfound2.
    unfold fetch_dataset.
    rewrite run_lift_bind, Hsite, Hdoi, Hclient, run_bind. cbn [get_db].
    rewrite Hfound2, bool_decide_eq_true_2 by discriminate.
    rewrite run_lift_bind. reflexivity.
Qed.

Lemma fetch_dataset_refetch_witness :
  exists response,
    fetch_dataset (H := sample_environment) request_new_doi empty_world
    = ((fetch_dataset (H := sample_environment) request_new_doi
          empty_world).1, Ok response)
    /\ fetch_dataset (H := sample_environment) request_new_doi
         (fetch_dataset (H := sample_environment) request_new_doi
            empty_world).1
       = ((fetch_dataset (H := sample_environment) request_new_doi
             empty_world).1, Ok response).
Proof.
  destruct (fetch_dataset (H := sample_environment) request_new_doi
              empty_world) as [w1 [response | e]] eqn:Hrun.
  - exists response. split; [reflexivity | ].
    pose proof (fetch_dataset_refetch (H := sample_environment)
                  request_new_doi empty_world response) as Hagain.
    rewrite Hrun in Hagain. apply Hagain. reflexivity.
  - exfalso. vm_compute in Hrun. discriminate.
Defined.

(** X5.  There is no rollback.  On the path that ingests a new dataset
    (both parameters present, the client built, no Review of that DOI
    stored): when loading the remote dataset raises, nothing has been
    written; once it has been loaded, the Review row is stored and stays
    stored whatever happens afterwards, also when the emptiness check or
    the flattener raises. *)
Theorem fetch_dataset_no_rollback `{Environment} (request : Request)
    (w : World) (site_url doi : string) (client : DataverseClient) :
  query_params request !! "site_url" = Some site_url ->
  query_params request !! "doi" = Some doi ->
  Dataverse (Some site_url) (query_params request !! "api_token")
    = Ok client ->
  filter (fun r => Review.doi r = doi) (reviews (db w)) = [] ->
  match load_dataset client doi with
  | Raise e => fetch_dataset request w = (w, Raise e)
  | Ok dataset =>
      reviews (db (fetch_dataset request w).1)
      = (reviews (db w) ++ [new_review_row w site_url doi])%list
  end.
Proof.
  intros Hsite Hdoi Hclient Hfound.
  destruct (fetch_dataset_paths request w)
    as [(r & Hrun & _)
       | (site_url' & doi' & client' & dataset
          & Hsite' & Hdoi' & Hclient' & _ & Hload & Hrun)].
  - (* the world is unchanged: loading must have raised *)
    unfold fetch_dataset in Hrun.
    rewrite run_lift_bind, Hsite, Hdoi, Hclient, run_bind in Hrun.
    cbn [get_db] in Hrun. rewrite Hfound in Hrun.
    rewrite bool_decide_eq_false_2 in Hrun
      by (intros Hne; apply Hne; reflexivity).
    rewrite run_lift_bind in Hrun.
    unfold fetch_dataset.
    rewrite run_lift_bind, Hsite, Hdoi, Hclient, run_bind. cbn [get_db].
    rewrite Hfound, bool_decide_eq_false_2
      by (intros Hne; apply Hne; reflexivity).
    rewrite run_lift_bind.
    destruct (load_dataset client doi) as [dataset | e]; [ | reflexivity].
    exfalso. rewrite run_bind in Hrun. unfold _create_and_save at 1 in Hrun.
    cbn zeta in Hrun. rewrite run_bind in Hrun.
    match type of Hrun with
    | context [fetch_blocks ?rv ?bs ?w1] =>
        destruct (fetch_blocks_accounted rv bs w1) as (b & c & f & Heq & _);
        destruct (fetch_blocks rv bs w1) as [w2 [[] | e]];
        cbn in Hrun, Heq; subst w2; injection Hrun as Hw _;
        apply (f_equal uuid_drawn) in Hw; cbn in Hw; lia
    end.
  - rewrite Hsite in Hsite'. injection Hsite' as <-.
    rewrite Hdoi in Hdoi'. injection Hdoi' as <-.
    rewrite Hclient in Hclient'. injection Hclient' as <-.
    rewrite Hload, Hrun. cbn zeta.
    match goal with
    | |- context [fetch_blocks ?rv ?bs ?w1] =>
        destruct (fetch_blocks_accounted rv bs w1) as (b & c & f & Heq & _);
        destruct (fetch_blocks rv bs w1) as [w2 [[] | e]];
        cbn in Heq; subst w2; reflexivity
    end.
Qed.

Lemma fetch_dataset_no_rollback_witness :
  (fetch_dataset (H := environment_with_unjoinable_dataset) request_new_doi
     empty_world).2 = Raise TypeError
  /\ reviews (db (fetch_dataset (H := environment_with_unjoinable_dataset)
                    request_new_doi empty_world).1)
     = [new_review_row (H := environment_with_unjoinable_dataset) empty_world
          "https://demo.dataverse.org" "doi:10.5072/FK2/NEW"]
  /\ Metadatablock.name
       <$> metadatablocks
             (db (fetch_dataset (H := environment_with_unjoinable_dataset)
                    request_new_doi empty_world).1)
     = ["citation"; "geospatial"].
Proof.
  split; [vm_compute; reflexivity | ].
  split; [ | vm_compute; reflexivity].
  apply (fetch_dataset_no_rollback (H := environment_with_unjoinable_dataset)
           request_new_doi empty_world "https://demo.dataverse.org"
           "doi:10.5072/FK2/NEW"
           {| server_url := Some "https://demo.dataverse.org";
              api_token := None |});
    vm_compute; reflexivity.
Defined.

(** The run of a first fetch: parameters present, client built, no
    stored review of the DOI, dataset loaded. *)
Lemma fetch_dataset_first_run `{Environment} (request : Request) (w : World)
    (site_url doi : string) (client : DataverseClient) (dataset : Dataset) :
  query_params request !! "site_url" = Some site_url ->
  query_params request !! "doi" = Some doi ->
  Dataverse (Some site_url) (query_params request !! "api_token")
    = Ok client ->
  filter (fun r => Review.doi r = doi) (reviews (db w)) = [] ->
  load_dataset client doi = Ok dataset ->
  fetch_dataset request w =
    match fetch_blocks (new_review_row w site_url doi)
            (dataset_metadatablocks dataset)
            {| db := save (new_review_row w site_url doi) (db w);
               uuid_drawn := S (uuid_drawn w);
               http_log := http_log w |} with
    | (w2, Ok _) =>
        (w2, Ok {| data := ReviewBody
                             (ReviewSerializer (db w2)
                                (new_review_row w site_url doi));
                   status := HTTP_200_OK |})
    | (w2, Raise e) => (w2, Raise e)
    end.
Proof.
  intros Hsite Hdoi Hclient Hfound Hload.
  unfold fetch_dataset. rewrite run_lift_bind, Hsite, Hclient, Hdoi.
  rewrite run_bind. cbn [get_db]. rewrite Hfound.
  rewrite bool_decide_eq_false_2 by (intros Hne; apply Hne; reflexivity).
  rewrite run_lift_bind, Hload.
  rewrite run_bind. unfold _create_and_save at 1. cbn zeta.
  fold (new_review_row w site_url doi).
  rewrite run_bind.
  destruct (fetch_blocks _ _ _) as [w2 [[] | e]]; reflexivity.
Qed.

(** X6.  The representation a first fetch returns lists one block for
    each block of the remote dataset that the emptiness filter lets
    through, under its name and in the order of the dataset, provided
    the UUID drawn for the review is not already the review key of a
    stored block. *)
Theorem first_fetch_lists_surviving_blocks `{Environment} (request : Request)
    (w : World) (site_url doi : string) (client : DataverseClient)
    (dataset : Dataset) (response : Response) :
  query_params request !! "site_url" = Some site_url ->
  query_params request !! "doi" = Some doi ->
  Dataverse (Some site_url) (query_params request !! "api_token")
    = Ok client ->
  filter (fun r => Review.doi r = doi) (reviews (db w)) = [] ->
  load_dataset client doi = Ok dataset ->
  Forall (fun b => Metadatablock.review b <> uuid4 (uuid_drawn w))
    (metadatablocks (db w)) ->
  (fetch_dataset request w).2 = Ok response ->
  exists review,
    response = {| data := ReviewBody review; status := HTTP_200_OK |}
    /\ ReviewData.row review = new_review_row w site_url doi
    /\ (fun b => Metadatablock.name (MetadatablockData.row b))
         <$> ReviewData.metadatablocks review
       = surviving_names (dataset_metadatablocks dataset).
Proof.
  intros Hsite Hdoi Hclient Hfound Hload Hfresh Hok.
  pose proof (fetch_dataset_first_run request w site_url doi client dataset
                Hsite Hdoi Hclient Hfound Hload) as Hrun.
  set (review := new_review_row w site_url doi) in *.
    destruct (fetch_blocks_accounted review (dataset_metadatablocks dataset)
                {| db := save review (db w); uuid_drawn := S (uuid_drawn w);
                   http_log := http_log w |})
      as (b & c & f & Heq & Hb & _ & _ & _ & Hnames).
    destruct (fetch_blocks review (dataset_metadatablocks dataset) _)
      as [w2 [[] | e]]; rewrite Hrun in Hok; cbn in Hok, Heq;
      [ | discriminate].
    injection Hok as <-. eexists. split; [reflexivity | ].
    split; [reflexivity | ].
    rewrite <- (Hnames eq_refl). subst w2.
    cbn [ReviewSerializer ReviewData.metadatablocks].
    rewrite <- list_fmap_compose.
    unfold review_metadatablocks, grown, with_rows.
    cbn [db metadatablocks Review.id].
    rewrite filter_app, filter_none, filter_all.
    + reflexivity.
    + exact Hb.
    + intros x Hx. rewrite Forall_forall in Hfresh. exact (Hfresh x Hx).
Qed.

Lemma first_fetch_lists_surviving_blocks_witness :
  exists review,
    (fun b => Metadatablock.name (MetadatablockData.row b))
      <$> ReviewData.metadatablocks review = ["citation"]
    /\ (fetch_dataset (H := sample_environment) request_new_doi
          sample_world).2
       = Ok {| data := ReviewBody review; status := HTTP_200_OK |}.
Proof.
  destruct (first_fetch_lists_surviving_blocks (H := sample_environment)
              request_new_doi sample_world "https://demo.dataverse.org"
              "doi:10.5072/FK2/NEW"
              {| server_url := Some "https://demo.dataverse.org";
                 api_token := None |}
              {| dataset_metadatablocks := [("citation", sample_citation)] |}
              {| data :=
                   ReviewBody
                     (ReviewSerializer
                        (db (fetch_dataset (H := sample_environment)
                               request_new_doi sample_world).1)
                        (new_review_row (H := sample_environment) sample_world
                           "https://demo.dataverse.org"
                           "doi:10.5072/FK2/NEW"));
                 status := HTTP_200_OK |})
    as (review & Hresponse & _ & Hblocks).
  - vm_compute. reflexivity.
  - vm_compute. reflexivity.
  - vm_compute. reflexivity.
  - vm_compute. reflexivity.
  - vm_compute. reflexivity.
  - repeat constructor. discriminate.
  - vm_compute. reflexivity.
  - exists review. split; [exact Hblocks | ].
    rewrite <- Hresponse. vm_compute. reflexivity.
Defined.

(** X7.  After a fetch that returned a review, the review-by-DOI
    endpoint, asked for the DOI of the request, answers 200 with a list
    of exactly that one representation, and changes nothing. *)
Theorem review_by_doi_after_fetch `{Environment} (request : Request)
    (w : World) (doi : string) (review : ReviewData.t) (status : nat) :
  query_params request !! "doi" = Some doi ->
  (fetch_dataset request w).2
    = Ok {| data := ReviewBody review; status := status |} ->
  review_by_doi doi (fetch_dataset request w).1 =
    ((fetch_dataset request w).1,
     Ok {| list_data := [review]; list_status := HTTP_200_OK |}).
Proof.
  intros Hdoi Hok.
  destruct (fetch_dataset_paths request w)
    as [(r & Hrun & Hreview)
       | (site_url & doi' & client & dataset
          & Hsite & Hdoi' & Hclient & Hfound & Hload & Hrun)].
  - rewrite Hrun in Hok |- *. cbn in Hok |- *.
    destruct (Hreview review status Hok) as (row & doi' & Hdoi' & Hfound & ->).
    rewrite Hdoi in Hdoi'. injection Hdoi' as <-.
    unfold review_by_doi. rewrite run_bind. cbn [get_db].
    rewrite Hfound. reflexivity.
  - rewrite Hdoi in Hdoi'. injection Hdoi' as <-.
    cbn zeta in Hrun. set (row := new_review_row w site_url doi) in *.
    destruct (fetch_blocks_accounted row (dataset_metadatablocks dataset)
                {| db := save row (db w); uuid_drawn := S (uuid_drawn w);
                   http_log := http_log w |})
      as (b & c & f & Heq & _).
    destruct (fetch_blocks row (dataset_metadatablocks dataset) _)
      as [w2 [[] | e]]; rewrite Hrun in Hok |- *; cbn in Hok, Heq |- *;
      [ | discriminate].
    injection Hok as <- _.
    pose proof (filter_doi_new_review w w2 site_url doi b c f Hfound Heq)
      as Hfound2.
    unfold review_by_doi. rewrite run_bind. cbn [get_db].
    rewrite Hfound2. reflexivity.
Qed.

Lemma review_by_doi_after_fetch_witness :
  review_by_doi "doi:10.5072/FK2/ICE" sample_world =
    (sample_world,
     Ok {| list_data := [ReviewSerializer sample_store sample_review];
           list_status := HTTP_200_OK |}).
Proof.
  pose proof (review_by_doi_after_fetch (H := sample_environment)
                request_complete sample_world "doi:10.5072/FK2/ICE"
                (ReviewSerializer sample_store sample_review) HTTP_200_OK)
    as Hafter.
  assert (Hrun : fetch_dataset (H := sample_environment) request_complete
                   sample_world =
                 (sample_world,
                  Ok {| data := ReviewBody
                                  (ReviewSerializer sample_store sample_review);
                        status := HTTP_200_OK |}))
    by (vm_compute; reflexivity).
  rewrite Hrun in Hafter. apply Hafter; [vm_compute | ]; reflexivity.
Defined.

Lemma serialized_rows (s : Store) (rows : list Review.t) :
  ReviewData.row <$> (ReviewSerializer s <$> rows) = rows.
Proof.
  induction rows as [ | r rows IH]; [reflexivity | ].
  rewrite !fmap_cons, IH. reflexivity.
Qed.

(** X8.  Ingestion never assigns a reviewer.  For every reviewer, the
    review-by-reviewer endpoint lists the same Review rows after a fetch
    as before it, whatever the fetch did; both answers are 200.
    (Identifiers are opaque strings for this endpoint; the check of the
    UUID syntax that its lookup makes first is not modelled.) *)
Theorem review_by_reviewer_ignores_fetch `{Environment} (request : Request)
    (w : World) (reviewerid : string) :
  exists before after,
    review_by_reviewer reviewerid w = (w, Ok before)
    /\ review_by_reviewer reviewerid (fetch_dataset request w).1
       = ((fetch_dataset request w).1, Ok after)
    /\ list_status before = HTTP_200_OK
    /\ list_status after = HTTP_200_OK
    /\ ReviewData.row <$> list_data after
       = ReviewData.row <$> list_data before.
Proof.
  unfold review_by_reviewer. rewrite !run_bind. cbn [get_db].
  do 2 eexists. split; [reflexivity | ]. split; [reflexivity | ].
  split; [reflexivity | ]. split; [reflexivity | ].
  cbn [list_data]. rewrite !serialized_rows.
  destruct (fetch_dataset_trace request w)
    as (new_reviews & new_blocks & new_compounds & new_fields
        & -> & Hreviews & _).
  cbn [stored db reviews]. rewrite filter_app.
  destruct Hreviews as [-> | (site_url & doi & ->)].
  - rewrite filter_nil. apply app_nil_r.
  - rewrite filter_cons_False by discriminate. rewrite filter_nil.
    apply app_nil_r.
Qed.

(** ** The field count beyond the example of the specification *)



Lemma outer_join_rows_ge {A B C} (related : A -> list B) (a : A)
    (k : option B -> list C) :
  List.length (related a ≫= (k ∘ Some))
  <= List.length (outer_join related (Some a) ≫= k).
Proof.
  cbn [outer_join]. destruct (related a) as [ | b bs] eqn:Hrel.
  - cbn. lia.
  - rewrite bind_fmap_comp. lia.
Qed.

Lemma outer_join_rows_pos {A B C} (related : A -> list B) (row : option A)
    (k : option B -> list C) :
  (forall b, 1 <= List.length (k b)) ->
  1 <= List.length (outer_join related row ≫= k).
Proof.
  intros Hk. destruct row as [a | ]; cbn [outer_join].
  - destruct (related a) as [ | b bs].
    + rewrite bind_cons, length_app. specialize (Hk None). lia.
    + rewrite fmap_cons, bind_cons, length_app. specialize (Hk (Some b)). lia.
  - rewrite bind_cons, length_app. specialize (Hk None). lia.
Qed.

Lemma bind_length_mono {A B C} (k : A -> list B) (k' : A -> list C)
    (rows : list A) :
  (forall a, List.length (k a) <= List.length (k' a)) ->
  List.length (rows ≫= k) <= List.length (rows ≫= k').
Proof.
  intros Hk. induction rows as [ | a rows IH]; [reflexivity | ].
  rewrite !bind_cons, !length_app. specialize (Hk a). lia.
Qed.

Lemma bind_single_length {A B} (g : A -> B) (rows : list A) :
  List.length (rows ≫= (fun a => [g a])) = List.length rows.
Proof.
  induction rows as [ | a rows IH]; [reflexivity | ].
  rewrite bind_cons, length_app, IH. reflexivity.
Qed.

Lemma primitive_rows_bounds (s : Store) (review_id : string) (r : Review.t) :
  filter (fun r => Review.id r = review_id) (reviews s) = [r] ->
  1 <= List.length (values_primitives_accepted s review_id)
  /\ List.length (review_direct_primitives s r)
     <= List.length (values_primitives_accepted s review_id).
Proof.
  intros Hr. unfold values_primitives_accepted, review_direct_primitives.
  rewrite Hr, bind_one. split.
  - apply outer_join_rows_pos. intros b. apply outer_join_rows_pos.
    intros f. cbn. lia.
  - etransitivity; [ | apply outer_join_rows_ge].
    apply bind_length_mono. intros b. unfold compose.
    etransitivity; [ | apply outer_join_rows_ge].
    unfold compose. rewrite bind_single_length. lia.
Qed.

Lemma compound_rows_bounds (s : Store) (review_id : string) (r : Review.t) :
  filter (fun r => Review.id r = review_id) (reviews s) = [r] ->
  1 <= List.length (values_compound_primitives_accepted s review_id)
  /\ List.length (review_compound_primitives s r)
     <= List.length (values_compound_primitives_accepted s review_id).
Proof.
  intros Hr.
  unfold values_compound_primitives_accepted, review_compound_primitives.
  rewrite Hr, bind_one. split.
  - apply outer_join_rows_pos. intros b. apply outer_join_rows_pos.
    intros c. apply outer_join_rows_pos. intros f. cbn. lia.
  - etransitivity; [ | apply outer_join_rows_ge].
    apply bind_length_mono. intros b. unfold compose.
    etransitivity; [ | apply outer_join_rows_ge].
    apply bind_length_mono. intros c. unfold compose.
    etransitivity; [ | apply outer_join_rows_ge].
    unfold compose. rewrite bind_single_length. lia.
Qed.

(** X10.  For a stored review the field-count endpoint answers 200 and
    changes nothing; its accepted count is exactly the number of the
    review's Field rows whose flag is True; its total is at least 1 and
    never more than one below the number of the review's Field rows. *)
Theorem field_count_bounds (w : World) (review_id : string) (r : Review.t) :
  filter (fun r => Review.id r = review_id) (reviews (db w)) = [r] ->
  exists total,
    get_field_count review_id w =
      (w, Ok {| data :=
                  FieldCountBody total
                    (accepted_count (review_direct_primitives (db w) r)
                     + accepted_count (review_compound_primitives (db w) r));
                status := HTTP_200_OK |})
    /\ (1 <= total)%Z
    /\ (Z.of_nat (List.length (review_direct_primitives (db w) r)
                  + List.length (review_compound_primitives (db w) r)) - 1
        <= total)%Z.
Proof.
  intros Hr. unfold get_field_count. rewrite run_bind. cbn [get_db].
  rewrite (accepted_count_correct (db w) review_id r Hr).
  eexists. split; [reflexivity | ].
  destruct (primitive_rows_bounds (db w) review_id r Hr) as [Hp1 Hp2].
  destruct (compound_rows_bounds (db w) review_id r Hr) as [Hc1 Hc2].
  lia.
Qed.

Lemma field_count_bounds_witness :
  exists total,
    get_field_count "r1" sample_world =
      (sample_world,
       Ok {| data := FieldCountBody total 3; status := HTTP_200_OK |})
    /\ (4 <= total)%Z.
Proof.
  destruct (field_count_bounds sample_world "r1" sample_review)
    as (total & Hrun & _ & Htotal).
  - vm_compute. reflexivity.
  - exists total. split; [exact Hrun | ].
    vm_compute in Htotal. vm_compute. exact Htotal.
Defined.

(** X11.  A stored review that has no metadatablock is reported with a
    total of 1 field, none accepted: each of the two queries yields the
    one all-NULL row of its outer joins. *)
Theorem field_count_review_without_blocks (w : World) (review_id : string)
    (r : Review.t) :
  filter (fun r => Review.id r = review_id) (reviews (db w)) = [r] ->
  review_metadatablocks (db w) r = [] ->
  get_field_count review_id w =
    (w, Ok {| data := FieldCountBody 1 0; status := HTTP_200_OK |}).
Proof.
  intros Hr Hblocks. unfold get_field_count. rewrite run_bind. cbn [get_db].
  unfold values_primitives_accepted, values_compound_primitives_accepted.
  rewrite Hr, !bind_one. cbn [outer_join]. rewrite Hblocks. reflexivity.
Qed.

Lemma field_count_review_without_blocks_witness :
  get_field_count "r1" bare_world =
    (bare_world, Ok {| data := FieldCountBody 1 0; status := HTTP_200_OK |}).
Proof.
  apply (field_count_review_without_blocks bare_world "r1" sample_review);
    vm_compute; reflexivity.
Defined.

(** ** The open-fields endpoint and the schema server *)

Section OpenFieldsRuns.
Context `{Environment}.

Lemma logged_nil (w : World) : logged w [] = w.
Proof. destruct w. unfold logged. cbn. rewrite app_nil_r. reflexivity. Qed.

Lemma logged_logged (w : World) (urls urls' : list string) :
  logged (logged w urls) urls' = logged w (urls ++ urls')%list.
Proof. unfold logged. cbn. rewrite app_assoc. reflexivity. Qed.

Lemma fetch_one_usable (b : Metadatablock.t) (url : string)
    (fields : list SchemaField) (w : World) :
  usable (requests_get url) = Some fields ->
  _fetch_open_metadatablock_fields b url w =
    (logged w [url], Ok (open_fields_of_payload (Metadatablock.name b) fields)).
Proof.
  unfold usable, _fetch_open_metadatablock_fields. intros Husable.
  rewrite run_bind. unfold http_get at 1.
  destruct (requests_get url) as [response | e]; [ | discriminate].
  rewrite run_lift_bind.
  destruct (raise_for_status response) as [[] | e]; [ | discriminate].
  rewrite run_lift_bind.
  destruct (json_data_fields response) as [fields' | e]; [ | discriminate].
  injection Husable as ->. reflexivity.
Qed.

Lemma fetch_one_unusable (b : Metadatablock.t) (url : string) (w : World) :
  usable (requests_get url) = None ->
  exists e, _fetch_open_metadatablock_fields b url w = (logged w [url], Raise e).
Proof.
  unfold usable, _fetch_open_metadatablock_fields. intros Husable.
  rewrite run_bind. unfold http_get at 1.
  destruct (requests_get url) as [response | e]; [ | exists e; reflexivity].
  rewrite run_lift_bind.
  destruct (raise_for_status response) as [[] | e]; [ | exists e; reflexivity].
  rewrite run_lift_bind.
  destruct (json_data_fields response) as [fields' | e]; [discriminate | ].
  exists e. reflexivity.
Qed.

Lemma fetch_each_usable (site_url : string) (blocks : list Metadatablock.t)
    (answers : list OpenFields.t) :
  Forall2 (fun b x => open_fields_answer site_url b = Some x) blocks answers ->
  forall w,
    fetch_open_fields_each site_url blocks w =
      (logged w ((fun b => metadatablock_url site_url (Metadatablock.name b))
                   <$> blocks),
       Ok answers).
Proof.
  induction 1 as [ | b x blocks answers Hb _ IH]; intros w.
  - cbn [fetch_open_fields_each fmap list_fmap]. rewrite logged_nil. reflexivity.
  - cbn [fetch_open_fields_each]. rewrite run_bind.
    unfold open_fields_answer in Hb.
    destruct (usable (requests_get _)) as [fields | ] eqn:Husable;
      [ | discriminate].
    injection Hb as <-.
    rewrite (fetch_one_usable b _ fields w Husable).
    rewrite run_bind, IH, logged_logged. reflexivity.
Qed.

Lemma fetch_each_unusable (site_url : string)
    (before : list Metadatablock.t) (b : Metadatablock.t)
    (after : list Metadatablock.t) :
  Forall (fun b => is_Some (open_fields_answer site_url b)) before ->
  open_fields_answer site_url b = None ->
  forall w,
    exists e,
      fetch_open_fields_each site_url (before ++ b :: after)%list w =
        (logged w ((fun b => metadatablock_url site_url (Metadatablock.name b))
                     <$> (before ++ [b])%list),
         Raise e).
Proof.
  intros Hbefore Hb.
  induction Hbefore as [ | b' before [x Hb'] _ IH]; intros w.
  - cbn [app fetch_open_fields_each]. rewrite run_bind.
    unfold open_fields_answer in Hb.
    destruct (usable (requests_get _)) as [fields | ] eqn:Husable;
      [discriminate | ].
    destruct (fetch_one_unusable b _ w Husable) as [e ->].
    exists e. reflexivity.
  - cbn [app fetch_open_fields_each]. rewrite run_bind.
    unfold open_fields_answer in Hb'.
    destruct (usable (requests_get
                        (metadatablock_url site_url (Metadatablock.name b'))))
      as [fields | ] eqn:Husable; [ | discriminate].
    rewrite (fetch_one_usable b' _ fields w Husable).
    destruct (IH (logged w [metadatablock_url site_url
                              (Metadatablock.name b')])) as [e Hrest].
    exists e. rewrite run_bind, Hrest, logged_logged. reflexivity.
Qed.


End OpenFieldsRuns.

Lemma drop_last_append_slash (s : string) :
  endswith_slash (s +:+ "/") = true /\ drop_last (s +:+ "/") = s.
Proof.
  induction s as [ | c s [IHe IHd]]; [split; reflexivity | ].
  change (String c s +:+ "/") with (String c (s +:+ "/")).
  destruct (s +:+ "/") as [ | c' s'] eqn:Hs.
  - destruct s; discriminate.
  - change (endswith_slash (String c (String c' s')))
      with (endswith_slash (String c' s')).
    change (drop_last (String c (String c' s')))
      with (String c (drop_last (String c' s'))).
    split; [exact IHe | ]. rewrite IHd. reflexivity.
Qed.

Lemma open_fields_stored_review_run `{Environment} (review_pk : string)
    (w : World) (review : Review.t) (site_url : string) :
  head (filter (fun r => Review.id r = review_pk) (reviews (db w)))
    = Some review ->
  Review.site_url review = Some site_url ->
  fetch_open_metadatablock_fields_for_review review_pk w =
    match fetch_open_fields_each (without_trailing_slash site_url)
            (review_metadatablocks (db w) review) w with
    | (w', Ok blocks) =>
        (w', Ok {| data := OpenFieldsBody blocks; status := HTTP_200_OK |})
    | (w', Raise e) => (w', Raise e)
    end.
Proof.
  intros Hreview Hsite.
  unfold fetch_open_metadatablock_fields_for_review, first_by_id.
  rewrite run_bind. cbn [get_db].
  rewrite Hreview, run_lift_bind, Hsite, run_lift_bind.
  rewrite run_bind. reflexivity.
Qed.

(** X12.  For a stored review whose site URL is set, when the schema
    server gives a usable response for every block of the review, the
    open-fields endpoint answers 200 with one entry for each block, in
    the order of the blocks; it has requested one URL for each block, in
    that order, and has written nothing. *)
Theorem open_fields_all_usable `{Environment} (review_pk : string) (w : World)
    (review : Review.t) (site_url : string) (answers : list OpenFields.t) :
  head (filter (fun r => Review.id r = review_pk) (reviews (db w)))
    = Some review ->
  Review.site_url review = Some site_url ->
  Forall2 (fun b x =>
             open_fields_answer (without_trailing_slash site_url) b = Some x)
    (review_metadatablocks (db w) review) answers ->
  fetch_open_metadatablock_fields_for_review review_pk w =
    (logged w (schema_urls site_url (review_metadatablocks (db w) review)),
     Ok {| data := OpenFieldsBody answers; status := HTTP_200_OK |}).
Proof.
  intros Hreview Hsite Hanswers.
  rewrite (open_fields_stored_review_run review_pk w review site_url
             Hreview Hsite).
  rewrite (fetch_each_usable _ _ answers Hanswers w). reflexivity.
Qed.

Lemma open_fields_all_usable_witness :
  fetch_open_metadatablock_fields_for_review (H := sample_environment)
    "r1" sample_world =
    (logged sample_world
       ["https://demo.dataverse.org/api/metadatablocks/citation"],
     Ok {| data := OpenFieldsBody
                     [open_fields_of_payload (H := sample_environment) "citation"
                        sample_schema];
           status := HTTP_200_OK |}).
Proof.
  apply (open_fields_all_usable (H := sample_environment) "r1" sample_world
           sample_review "https://demo.dataverse.org/"
           [open_fields_of_payload (H := sample_environment) "citation"
                        sample_schema]).
  - vm_compute. reflexivity.
  - reflexivity.
  - vm_compute. repeat constructor.
Defined.

(** X13.  The endpoint stops at the first block for which the schema
    server gives no usable response (the request raises, the status is
    4xx or 5xx, or the body does not decode): it raises, the entries of
    the blocks before it are lost, no URL of a later block is requested,
    and nothing is written. *)
Theorem open_fields_stops_at_first_failure `{Environment} (review_pk : string)
    (w : World) (review : Review.t) (site_url : string)
    (before : list Metadatablock.t) (b : Metadatablock.t)
    (after : list Metadatablock.t) :
  head (filter (fun r => Review.id r = review_pk) (reviews (db w)))
    = Some review ->
  Review.site_url review = Some site_url ->
  review_metadatablocks (db w) review = (before ++ b :: after)%list ->
  Forall (fun b =>
            is_Some (open_fields_answer (without_trailing_slash site_url) b))
    before ->
  open_fields_answer (without_trailing_slash site_url) b = None ->
  exists e,
    fetch_open_metadatablock_fields_for_review review_pk w =
      (logged w (schema_urls site_url (before ++ [b])%list), Raise e).
Proof.
  intros Hreview Hsite Hblocks Hbefore Hb.
  rewrite (open_fields_stored_review_run review_pk w review site_url
             Hreview Hsite), Hblocks.
  destruct (fetch_each_unusable _ before b after Hbefore Hb w) as [e ->].
  exists e. reflexivity.
Qed.

Lemma open_fields_stops_at_first_failure_witness :
  exists e,
    fetch_open_metadatablock_fields_for_review
      (H := environment_with_citation_only) "r1" three_block_world =
      (logged three_block_world
         ["https://demo.dataverse.org/api/metadatablocks/citation";
          "https://demo.dataverse.org/api/metadatablocks/geospatial"],
       Raise e).
Proof.
  apply (open_fields_stops_at_first_failure
           (H := environment_with_citation_only) "r1" three_block_world
           sample_review "https://demo.dataverse.org/"
           [sample_block] geospatial_block [journal_block]).
  - vm_compute. reflexivity.
  - reflexivity.
  - vm_compute. reflexivity.
  - repeat constructor. vm_compute. eexists. reflexivity.
  - vm_compute. reflexivity.
Defined.


(** X15.  For a stored review whose site URL is NULL (the model allows
    it) the open-fields endpoint raises AttributeError, from calling
    endswith on None, before any request is made. *)
Theorem open_fields_review_without_site_url `{Environment}
    (review_pk : string) (w : World) (review : Review.t) :
  head (filter (fun r => Review.id r = review_pk) (reviews (db w)))
    = Some review ->
  Review.site_url review = None ->
  fetch_open_metadatablock_fields_for_review review_pk w =
    (w, Raise AttributeError).
Proof.
  intros Hreview Hsite.
  unfold fetch_open_metadatablock_fields_for_review, first_by_id.
  rewrite run_bind. cbn [get_db].
  rewrite Hreview, run_lift_bind, Hsite, run_lift_bind. reflexivity.
Qed.

Lemma open_fields_review_without_site_url_witness :
  fetch_open_metadatablock_fields_for_review (H := sample_environment)
    "r2" world_without_site_url =
    (world_without_site_url, Raise AttributeError).
Proof.
  apply (open_fields_review_without_site_url (H := sample_environment) "r2"
           world_without_site_url review_without_site_url);
    vm_compute; reflexivity.
Defined.

(** X16.  A site URL stored with one trailing slash leads to the same
    schema URLs as the URL without it, with a single slash before
    [api]. *)
Theorem trailing_slash_dropped (site_url : string)
    (blocks : list Metadatablock.t) :
  schema_urls (site_url +:+ "/") blocks =
    (fun b => site_url +:+ "/api/metadatablocks/" +:+ Metadatablock.name b)
      <$> blocks.
Proof.
  unfold schema_urls, without_trailing_slash.
  destruct (drop_last_append_slash site_url) as [-> ->]. reflexivity.
Qed.

(** ** Names: [snake], [clean_name], [camel_to_snake] *)

Lemma map_chars_length (f : ascii -> ascii) (s : string) :
  String.length (map_chars f s) = String.length s.
Proof.
  induction s as [ | c s IH]; [reflexivity | ].
  cbn [map_chars String.length]. rewrite IH. reflexivity.
Qed.

Lemma map_chars_all (p : ascii -> bool) (f : ascii -> ascii) (s : string) :
  (forall c, p (f c) = true) -> all_chars p (map_chars f s) = true.
Proof.
  intros Hp. induction s as [ | c s IH]; [reflexivity | ].
  cbn [map_chars all_chars]. rewrite Hp, IH. reflexivity.
Qed.

Lemma map_chars_fixed (p : ascii -> bool) (f : ascii -> ascii) (s : string) :
  (forall c, p c = true -> f c = c) ->
  all_chars p s = true -> map_chars f s = s.
Proof.
  intros Hf. induction s as [ | c s IH]; [reflexivity | ].
  cbn [map_chars all_chars]. intros [Hc Hs]%andb_prop.
  rewrite (Hf c Hc), (IH Hs). reflexivity.
Qed.

Lemma all_chars_impl (p q : ascii -> bool) (s : string) :
  (forall c, p c = true -> q c = true) ->
  all_chars p s = true -> all_chars q s = true.
Proof.
  intros Hpq. induction s as [ | c s IH]; [reflexivity | ].
  cbn [all_chars]. intros [Hc Hs]%andb_prop.
  rewrite (Hpq c Hc), (IH Hs). reflexivity.
Qed.

Lemma snake_char_twice (c : ascii) :
  let g := fun c => lower_char (if Ascii.eqb c " " then "_"%char else c) in
  g (g c) = g c
  /\ negb (is_upper (g c)) && negb (Ascii.eqb (g c) " ") = true
  /\ ((nat_of_ascii c <? 128)%nat = true ->
      (nat_of_ascii (g c) <? 128)%nat = true).
Proof.
  destruct c as [[] [] [] [] [] [] [] []];
    (split; [reflexivity | split; [reflexivity | ]]);
    intros Hlow; try reflexivity; exact Hlow.
Qed.

(** X17.  The normalisation of display names, on ASCII names: the result
    has the length of the name, holds no capital letter and no space,
    is ASCII again, and normalising it once more changes nothing. *)
Theorem snake_normal_form `{Environment} (s : string) :
  ascii_only s = true ->
  snake (snake s) = snake s
  /\ String.length (snake s) = String.length s
  /\ all_chars (fun c => negb (is_upper c) && negb (Ascii.eqb c " "))
       (snake s) = true
  /\ ascii_only (snake s) = true.
Proof.
  intros Hascii.
  set (g := fun c => lower_char (if Ascii.eqb c " " then "_"%char else c)).
  assert (Hsnake : forall t, ascii_only t = true -> snake t = map_chars g t).
  { intros t Ht. unfold snake, lower. rewrite (replace_space_ascii t Ht).
    unfold replace_space. rewrite map_chars_compose. reflexivity. }
  assert (Hout : ascii_only (map_chars g s) = true).
  { clear -Hascii. induction s as [ | c s IH]; [reflexivity | ].
    cbn [ascii_only map_chars] in Hascii |- *.
    apply andb_prop in Hascii as [Hc Hs].
    rewrite (IH Hs), andb_true_r. apply (snake_char_twice c), Hc. }
  rewrite (Hsnake s Hascii), (Hsnake _ Hout), map_chars_compose.
  repeat split.
  - apply map_chars_ext. intros c. apply (snake_char_twice c).
  - apply map_chars_length.
  - apply map_chars_all. intros c. apply (snake_char_twice c).
  - exact Hout.
Qed.

Lemma snake_normal_form_witness :
  snake (H := sample_environment)
    (snake (H := sample_environment) "Author Name")
  = snake (H := sample_environment) "Author Name"
  /\ snake (H := sample_environment) "Author Name" = "author_name".
Proof.
  split; [ | reflexivity].
  apply (snake_normal_form (H := sample_environment) "Author Name").
  reflexivity.
Defined.

Lemma last_char_cons (c : ascii) (s : string) :
  last_char (String c s) =
    match last_char s with
    | None => Some c
    | Some d => Some d
    end.
Proof. reflexivity. Qed.

Lemma last_char_none (s : string) : last_char s = None -> s = EmptyString.
Proof.
  destruct s as [ | c s]; [reflexivity | ].
  rewrite last_char_cons. destruct (last_char s); discriminate.
Qed.

Lemma last_char_further (c d : ascii) (s : string) :
  last_char (String c (String d s)) = last_char (String d s).
Proof.
  rewrite (last_char_cons c).
  destruct (last_char (String d s)) eqn:Hlast; [reflexivity | ].
  apply last_char_none in Hlast. discriminate.
Qed.

Lemma rstrip_cons (c : ascii) (s : string) :
  rstrip (String c s) =
    match rstrip s with
    | EmptyString => if is_space c then EmptyString else String c EmptyString
    | t => String c t
    end.
Proof. reflexivity. Qed.

Lemma lstrip_all (p : ascii -> bool) (s : string) :
  all_chars p s = true -> all_chars p (lstrip s) = true.
Proof.
  induction s as [ | c s IH]; [reflexivity | ].
  cbn [lstrip]. destruct (is_space c); [ | tauto].
  cbn [all_chars]. intros [_ Hs]%andb_prop. exact (IH Hs).
Qed.

Lemma rstrip_all (p : ascii -> bool) (s : string) :
  all_chars p s = true -> all_chars p (rstrip s) = true.
Proof.
  induction s as [ | c s IH]; [reflexivity | ].
  rewrite rstrip_cons. cbn [all_chars]. intros [Hc Hs]%andb_prop.
  specialize (IH Hs). destruct (rstrip s) as [ | d t].
  - destruct (is_space c); [reflexivity | ].
    cbn [all_chars]. rewrite Hc. reflexivity.
  - change (p c && all_chars p (String d t) = true). rewrite Hc, IH.
    reflexivity.
Qed.

Lemma lstrip_first (s : string) (c : ascii) :
  first_char (lstrip s) = Some c -> is_space c = false.
Proof.
  induction s as [ | d s IH]; [discriminate | ].
  cbn [lstrip]. destruct (is_space d) eqn:Hd; [exact IH | ].
  intros [= <-]. exact Hd.
Qed.

Lemma rstrip_first (s : string) :
  (forall c, first_char s = Some c -> is_space c = false) ->
  forall c, first_char (rstrip s) = Some c -> is_space c = false.
Proof.
  destruct s as [ | d s]; [discriminate | ].
  intros Hfirst c. rewrite rstrip_cons.
  rewrite (Hfirst d eq_refl).
  destruct (rstrip s); intros [= <-]; exact (Hfirst d eq_refl).
Qed.

Lemma rstrip_last (s : string) (c : ascii) :
  last_char (rstrip s) = Some c -> is_space c = false.
Proof.
  revert c. induction s as [ | d s IH]; [discriminate | ]. intros c.
  rewrite rstrip_cons. destruct (rstrip s) as [ | e t].
  - destruct (is_space d) eqn:Hd; [discriminate | ].
    intros [= <-]. exact Hd.
  - rewrite last_char_further. apply IH.
Qed.

Lemma lstrip_fixed (s : string) :
  (forall c, first_char s = Some c -> is_space c = false) -> lstrip s = s.
Proof.
  destruct s as [ | c s]; [reflexivity | ].
  intros Hfirst. cbn [lstrip]. rewrite (Hfirst c eq_refl). reflexivity.
Qed.

Lemma rstrip_fixed (s : string) :
  (forall c, last_char s = Some c -> is_space c = false) -> rstrip s = s.
Proof.
  induction s as [ | c s IH]; [reflexivity | ].
  intros Hlast. rewrite rstrip_cons. destruct s as [ | d t].
  - cbn [rstrip]. rewrite (Hlast c eq_refl). reflexivity.
  - rewrite last_char_further in Hlast. rewrite (IH Hlast). reflexivity.
Qed.

Lemma cleaned_fixed (s : string) : cleaned s -> clean_name s = s.
Proof.
  intros (Hchars & Hfirst & Hlast). unfold clean_name, strip.
  rewrite (map_chars_fixed (fun c => is_word c || is_space c)).
  - rewrite (lstrip_fixed s Hfirst). apply rstrip_fixed, Hlast.
  - intros c ->. reflexivity.
  - exact Hchars.
Qed.

Lemma clean_name_cleaned (name : string) : cleaned (clean_name name).
Proof.
  unfold clean_name, strip. split; [ | split].
  - apply rstrip_all, lstrip_all, map_chars_all. intros c.
    destruct (is_word c || is_space c) eqn:Hc; [exact Hc | reflexivity].
  - apply rstrip_first. intros c. apply lstrip_first.
  - intros c. apply rstrip_last.
Qed.

Lemma lstrip_ascii (s : string) :
  ascii_only s = true -> ascii_only (lstrip s) = true.
Proof.
  induction s as [ | c s IH]; [reflexivity | ].
  cbn [lstrip]. destruct (is_space c); [ | tauto].
  cbn [ascii_only]. intros [_ Hs]%andb_prop. exact (IH Hs).
Qed.

Lemma rstrip_ascii (s : string) :
  ascii_only s = true -> ascii_only (rstrip s) = true.
Proof.
  induction s as [ | c s IH]; [reflexivity | ].
  rewrite rstrip_cons. cbn [ascii_only]. intros [Hc Hs]%andb_prop.
  specialize (IH Hs). destruct (rstrip s) as [ | d t].
  - destruct (is_space c); [reflexivity | ].
    cbn [ascii_only]. rewrite Hc. reflexivity.
  - change ((nat_of_ascii c <? 128)%nat && ascii_only (String d t) = true).
    rewrite Hc, IH. reflexivity.
Qed.

Lemma clean_name_ascii (name : string) :
  ascii_only name = true -> ascii_only (clean_name name) = true.
Proof.
  intros Hascii. unfold clean_name, strip. apply rstrip_ascii, lstrip_ascii.
  induction name as [ | c s IH]; [reflexivity | ].
  cbn [ascii_only map_chars] in Hascii |- *.
  apply andb_prop in Hascii as [Hc Hs]. rewrite (IH Hs), andb_true_r.
  destruct (is_word c || is_space c); [exact Hc | reflexivity].
Qed.

(** X18.  What [clean_name] returns for an ASCII name holds only
    letters, digits, underscores and whitespace, and neither begins nor
    ends with whitespace; cleaning it once more changes nothing. *)
Theorem clean_name_normal_form (name : string) :
  ascii_only name = true ->
  cleaned (clean_name name)
  /\ clean_name (clean_name name) = clean_name name
  /\ ascii_only (clean_name name) = true.
Proof.
  intros Hascii. split; [apply clean_name_cleaned | ].
  split; [apply cleaned_fixed, clean_name_cleaned | ].
  apply clean_name_ascii, Hascii.
Qed.

Lemma clean_name_normal_form_witness :
  clean_name (clean_name "  author(Name)! ") = clean_name "  author(Name)! "
  /\ clean_name "  author(Name)! " = "author Name".
Proof.
  split; [ | reflexivity].
  apply (clean_name_normal_form "  author(Name)! "). reflexivity.
Defined.

Lemma sub_capital_word_cons (state : sub_state) (c : ascii) (t : string) :
  sub_capital_word state (String c t) =
    match state with
    | AtCapital => String c (sub_capital_word InLowers t)
    | _ =>
        if match state with InLowers => is_lower c | _ => false end then
          String c (sub_capital_word InLowers t)
        else
          match t with
          | String u (String l _) =>
              if negb (is_newline c) && is_upper u && is_lower l then
                String c (String "_" (sub_capital_word AtCapital t))
              else String c (sub_capital_word Scanning t)
          | _ => String c (sub_capital_word Scanning t)
          end
    end.
Proof. reflexivity. Qed.

Lemma sub_lower_capital_cons (c : ascii) (t : string) :
  sub_lower_capital (String c t) =
    match t with
    | String u t' =>
        if (is_lower c || is_digit c) && is_upper u then
          String c (String "_" (String u (sub_lower_capital t')))
        else String c (sub_lower_capital t)
    | EmptyString => String c EmptyString
    end.
Proof. reflexivity. Qed.

(** The shapes of one step of the first substitution. *)
Lemma sub_capital_word_step (state : sub_state) (c : ascii) (t : string) :
  (exists state', sub_capital_word state (String c t)
                  = String c (sub_capital_word state' t))
  \/ (exists u l t', t = String u (String l t')
                     /\ is_upper u = true
                     /\ sub_capital_word state (String c t)
                        = String c (String "_" (sub_capital_word AtCapital t))).
Proof.
  rewrite sub_capital_word_cons.
  assert (Hscan :
    (exists state',
       match t with
       | String u (String l _) =>
           if negb (is_newline c) && is_upper u && is_lower l then
             String c (String "_" (sub_capital_word AtCapital t))
           else String c (sub_capital_word Scanning t)
       | _ => String c (sub_capital_word Scanning t)
       end = String c (sub_capital_word state' t))
    \/ (exists u l t', t = String u (String l t')
                       /\ is_upper u = true
                       /\ match t with
                          | String u (String l _) =>
                              if negb (is_newline c) && is_upper u && is_lower l
                              then String c
                                     (String "_" (sub_capital_word AtCapital t))
                              else String c (sub_capital_word Scanning t)
                          | _ => String c (sub_capital_word Scanning t)
                          end
                          = String c
                              (String "_" (sub_capital_word AtCapital t)))).
  { destruct t as [ | u [ | l t']]; [left; eexists; reflexivity .. | ].
    destruct (negb (is_newline c) && is_upper u && is_lower l) eqn:Hmatch.
    - right. exists u, l, t'. split; [reflexivity | ].
      apply andb_prop in Hmatch as [[_ Hu]%andb_prop _].
      split; [exact Hu | reflexivity].
    - left. eexists. reflexivity. }
  destruct state; [exact Hscan | left; eexists; reflexivity | ].
  destruct (is_lower c); [left; eexists; reflexivity | exact Hscan].
Qed.

Lemma sub_capital_word_fixed (state : sub_state) (s : string) :
  all_chars (fun c => negb (is_upper c)) s = true ->
  sub_capital_word state s = s.
Proof.
  revert state. induction s as [ | c t IH]; intros state; [reflexivity | ].
  cbn [all_chars]. intros [_ Ht]%andb_prop.
  destruct (sub_capital_word_step state c t)
    as [[state' ->] | (u & l & t' & -> & Hu & _)].
  - rewrite (IH _ Ht). reflexivity.
  - cbn [all_chars] in Ht. rewrite Hu in Ht. discriminate.
Qed.

Lemma sub_capital_word_all (p : ascii -> bool) (state : sub_state)
    (s : string) :
  p "_"%char = true ->
  all_chars p s = true -> all_chars p (sub_capital_word state s) = true.
Proof.
  intros Hp. revert state.
  induction s as [ | c t IH]; intros state; [reflexivity | ].
  cbn [all_chars]. intros [Hc Ht]%andb_prop.
  destruct (sub_capital_word_step state c t)
    as [[state' ->] | (u & l & t' & Heq & _ & ->)]; cbn [all_chars].
  - rewrite Hc, (IH _ Ht). reflexivity.
  - rewrite Hc, Hp, (IH _ Ht). reflexivity.
Qed.

Lemma sub_capital_word_first (state : sub_state) (s : string) :
  first_char (sub_capital_word state s) = first_char s.
Proof.
  destruct s as [ | c t]; [reflexivity | ].
  destruct (sub_capital_word_step state c t)
    as [[state' ->] | (u & l & t' & _ & _ & ->)]; reflexivity.
Qed.

Lemma sub_capital_word_last (state : sub_state) (s : string) :
  last_char (sub_capital_word state s) = last_char s.
Proof.
  revert state. induction s as [ | c t IH]; intros state; [reflexivity | ].
  destruct (sub_capital_word_step state c t)
    as [[state' ->] | (u & l & t' & Heq & _ & ->)].
  - rewrite !last_char_cons, IH. reflexivity.
  - rewrite (last_char_cons c), (last_char_cons "_"), IH.
    rewrite (last_char_cons c t).
    destruct (last_char t) eqn:Hlast; [reflexivity | ].
    apply last_char_none in Hlast. subst t. discriminate.
Qed.

Lemma sub_lower_capital_fixed (s : string) :
  all_chars (fun c => negb (is_upper c)) s = true ->
  sub_lower_capital s = s.
Proof.
  induction s as [ | c t IH]; [reflexivity | ].
  cbn [all_chars]. intros [_ Ht]%andb_prop.
  rewrite sub_lower_capital_cons. destruct t as [ | u t']; [reflexivity | ].
  pose proof Ht as Hu. cbn [all_chars] in Hu.
  apply andb_prop in Hu as [Hu _]. apply negb_true_iff in Hu.
  rewrite Hu, andb_false_r, (IH Ht). reflexivity.
Qed.

Lemma sub_lower_capital_all (p : ascii -> bool) (s : string) :
  p "_"%char = true ->
  all_chars p s = true -> all_chars p (sub_lower_capital s) = true.
Proof.
  intros Hp.
  enough (Hboth : (all_chars p s = true
                   -> all_chars p (sub_lower_capital s) = true)
                  /\ forall c, all_chars p (String c s) = true
                               -> all_chars p (sub_lower_capital (String c s))
                                  = true) by apply Hboth.
  induction s as [ | u t [IHt IHu]].
  - split; [reflexivity | ]. intros c Hc. exact Hc.
  - split; [apply IHu | ]. intros c.
    rewrite sub_lower_capital_cons. cbn [all_chars].
    intros [Hc [Hu Ht]%andb_prop]%andb_prop.
    destruct ((is_lower c || is_digit c) && is_upper u); cbn [all_chars].
    + rewrite Hc, Hp, Hu, (IHt Ht). reflexivity.
    + rewrite Hc. apply IHu. cbn [all_chars]. rewrite Hu, Ht. reflexivity.
Qed.

Lemma sub_lower_capital_first (s : string) :
  first_char (sub_lower_capital s) = first_char s.
Proof.
  destruct s as [ | c t]; [reflexivity | ].
  rewrite sub_lower_capital_cons. destruct t as [ | u t']; [reflexivity | ].
  destruct ((is_lower c || is_digit c) && is_upper u); reflexivity.
Qed.

Lemma sub_lower_capital_last (s : string) :
  last_char (sub_lower_capital s) = last_char s.
Proof.
  enough (Hboth : last_char (sub_lower_capital s) = last_char s
                  /\ forall c, last_char (sub_lower_capital (String c s))
                               = last_char (String c s)) by apply Hboth.
  induction s as [ | u t [IHt IHu]]; [split; reflexivity | ].
  split; [apply IHu | ]. intros c.
  rewrite sub_lower_capital_cons.
  destruct ((is_lower c || is_digit c) && is_upper u).
  - rewrite !last_char_further, !(last_char_cons u), IHt. reflexivity.
  - rewrite (last_char_cons c), IHu, <- (last_char_cons c). reflexivity.
Qed.

Lemma map_chars_all_impl (p q : ascii -> bool) (f : ascii -> ascii)
    (s : string) :
  (forall c, p c = true -> q (f c) = true) ->
  all_chars p s = true -> all_chars q (map_chars f s) = true.
Proof.
  intros Hf. induction s as [ | c s IH]; [reflexivity | ].
  cbn [map_chars all_chars]. intros [Hc Hs]%andb_prop.
  rewrite (Hf c Hc), (IH Hs). reflexivity.
Qed.

Lemma map_chars_first (f : ascii -> ascii) (s : string) :
  first_char (map_chars f s) = f <$> first_char s.
Proof. destruct s; reflexivity. Qed.

Lemma map_chars_last (f : ascii -> ascii) (s : string) :
  last_char (map_chars f s) = f <$> last_char s.
Proof.
  induction s as [ | c s IH]; [reflexivity | ].
  cbn [map_chars]. rewrite !last_char_cons, IH.
  destruct (last_char s); reflexivity.
Qed.

Lemma lower_char_classes (c : ascii) :
  is_upper (lower_char c) = false
  /\ is_space (lower_char c) = is_space c
  /\ (is_word c || is_space c = true
      -> is_word (lower_char c) || is_space (lower_char c) = true)
  /\ ((nat_of_ascii c <? 128)%nat = true
      -> (nat_of_ascii (lower_char c) <? 128)%nat = true).
Proof.
  destruct c as [[] [] [] [] [] [] [] []];
    (split; [reflexivity | split; [reflexivity | split]]);
    intros Hc; try reflexivity; exact Hc.
Qed.

Lemma lower_char_fixed (c : ascii) :
  negb (is_upper c) = true -> lower_char c = c.
Proof.
  unfold is_upper, lower_char. cbn zeta.
  destruct ((65 <=? nat_of_ascii c)%nat && (nat_of_ascii c <=? 90)%nat);
    [discriminate | reflexivity].
Qed.

Lemma ascii_only_all (s : string) :
  ascii_only s = all_chars (fun c => (nat_of_ascii c <? 128)%nat) s.
Proof.
  induction s as [ | c s IH]; [reflexivity | ].
  cbn [ascii_only all_chars]. rewrite IH. reflexivity.
Qed.

Section CamelToSnake.
Context `{Environment}.

Lemma scanned_ascii (name : string) :
  ascii_only name = true ->
  ascii_only
    (sub_lower_capital (sub_capital_word Scanning (clean_name name))) = true.
Proof.
  intros Hascii. apply clean_name_ascii in Hascii.
  rewrite ascii_only_all in Hascii |- *.
  apply sub_lower_capital_all; [reflexivity | ].
  apply sub_capital_word_all; [reflexivity | exact Hascii].
Qed.

(** On an ASCII name the last step lowers character by character. *)
Lemma camel_to_snake_chars (name : string) :
  ascii_only name = true ->
  camel_to_snake name =
    map_chars lower_char
      (sub_lower_capital (sub_capital_word Scanning (clean_name name))).
Proof.
  intros Hascii. unfold camel_to_snake, lower. cbn zeta.
  rewrite (scanned_ascii name Hascii). reflexivity.
Qed.

(** A name that is clean and holds no capital letter is in snake case
    for [camel_to_snake] already. *)
Lemma camel_to_snake_fixed (s : string) :
  ascii_only s = true ->
  cleaned s ->
  all_chars (fun c => negb (is_upper c)) s = true ->
  camel_to_snake s = s.
Proof.
  intros Hascii Hclean Hlower. rewrite (camel_to_snake_chars s Hascii).
  rewrite (cleaned_fixed s Hclean).
  rewrite (sub_capital_word_fixed _ s Hlower).
  rewrite (sub_lower_capital_fixed s Hlower).
  apply (map_chars_fixed (fun c => negb (is_upper c))); [ | exact Hlower].
  apply lower_char_fixed.
Qed.

Lemma camel_to_snake_cleaned (name : string) :
  ascii_only name = true -> cleaned (camel_to_snake name).
Proof.
  intros Hascii. rewrite (camel_to_snake_chars name Hascii).
  destruct (clean_name_cleaned name) as (Hchars & Hfirst & Hlast).
  split; [ | split].
  - apply (map_chars_all_impl (fun c => is_word c || is_space c)).
    + intros c. apply (lower_char_classes c).
    + apply sub_lower_capital_all; [reflexivity | ].
      apply sub_capital_word_all; [reflexivity | exact Hchars].
  - intros c. rewrite map_chars_first, sub_lower_capital_first,
      sub_capital_word_first.
    destruct (first_char (clean_name name)) as [d | ] eqn:Hd; [ | discriminate].
    intros [= <-].
    destruct (lower_char_classes d) as (_ & -> & _). apply Hfirst. reflexivity.
  - intros c. rewrite map_chars_last, sub_lower_capital_last,
      sub_capital_word_last.
    destruct (last_char (clean_name name)) as [d | ] eqn:Hd; [ | discriminate].
    intros [= <-].
    destruct (lower_char_classes d) as (_ & -> & _). apply Hlast. reflexivity.
Qed.

Lemma camel_to_snake_ascii (name : string) :
  ascii_only name = true -> ascii_only (camel_to_snake name) = true.
Proof.
  intros Hascii. rewrite (camel_to_snake_chars name Hascii).
  pose proof (scanned_ascii name Hascii) as Hscanned.
  rewrite ascii_only_all in Hscanned |- *.
  apply (map_chars_all_impl (fun c => (nat_of_ascii c <? 128)%nat));
    [ | exact Hscanned].
  intros c. apply (lower_char_classes c).
Qed.

End CamelToSnake.

(** X19.  What [camel_to_snake] returns for an ASCII name holds no
    capital letter, is clean in the sense of [clean_name], and is ASCII
    again; converting it once more changes nothing. *)
Theorem camel_to_snake_normal_form `{Environment} (name : string) :
  ascii_only name = true ->
  all_chars (fun c => negb (is_upper c)) (camel_to_snake name) = true
  /\ cleaned (camel_to_snake name)
  /\ ascii_only (camel_to_snake name) = true
  /\ camel_to_snake (camel_to_snake name) = camel_to_snake name.
Proof.
  intros Hascii.
  assert (Hlower : all_chars (fun c => negb (is_upper c))
                     (camel_to_snake name) = true).
  { rewrite (camel_to_snake_chars name Hascii).
    apply map_chars_all. intros c.
    destruct (lower_char_classes c) as (-> & _). reflexivity. }
  split; [exact Hlower | ].
  split; [apply camel_to_snake_cleaned, Hascii | ].
  split; [apply camel_to_snake_ascii, Hascii | ].
  apply camel_to_snake_fixed;
    [apply camel_to_snake_ascii, Hascii
    | apply camel_to_snake_cleaned, Hascii | exact Hlower].
Qed.

Lemma camel_to_snake_normal_form_witness :
  camel_to_snake (H := sample_environment)
    (camel_to_snake (H := sample_environment) "authorName (HTTPServer2Go)")
  = camel_to_snake (H := sample_environment) "authorName (HTTPServer2Go)"
  /\ camel_to_snake (H := sample_environment) "authorName (HTTPServer2Go)"
     = "author_name  http_server2_go".
Proof.
  split; [ | reflexivity].
  apply (camel_to_snake_normal_form (H := sample_environment)
           "authorName (HTTPServer2Go)").
  reflexivity.
Defined.

(** ** The Field rows an ingestion creates *)

Section CreatedFields.
Context `{Environment}.
Variable P : Field.t -> Prop.
Hypothesis instantiated :
  forall pk kw, P (instantiate (R := Field.t) pk kw).

Local Ltac no_field :=
  exists []; rewrite grown_nil; split; [reflexivity | constructor].

Local Ltac no_row :=
  exists [], []; rewrite grown_nil; split; [reflexivity | constructor].

Lemma compound_loop_created (compound : value) (fk : Compound.t)
    (todo : list value) (w : World) :
  exists new_fields,
    (process_compound_loop compound fk todo w).1 = grown w [] [] new_fields
    /\ Forall P new_fields.
Proof.
  revert w. induction todo as [ | x rest IH]; intros w; [no_field | ].
  cbn [process_compound_loop]. rewrite run_lift_bind.
  destruct (unpack_pair x) as [[field_name v] | e]; [ | no_field].
  rewrite run_lift_bind.
  destruct (as_name field_name) as [n | e]; [ | no_field].
  destruct (startswith_underscore n || is_None v); [apply IH | ].
  rewrite run_lift_bind.
  destruct (get_model_fields compound) as [mf | e]; [ | no_field].
  rewrite run_lift_bind.
  destruct (getitem mf n) as [info | e]; [ | no_field].
  rewrite run_lift_bind.
  destruct (_process_primitive n v info (Some fk)) as [attrs | e];
    [ | no_field].
  rewrite run_bind, create_field.
  match goal with
  | |- context [process_compound_loop _ _ _ (grown w [] [] [?row])] =>
      destruct (IH (grown w [] [] [row])) as (new_fields & Heq & Hall);
      exists (row :: new_fields)
  end.
  rewrite Heq, grown_grown. split; [reflexivity | ].
  constructor; [apply instantiated | exact Hall].
Qed.

Lemma process_compound_created (entry : value) (fk : Compound.t)
    (w : World) :
  exists new_fields,
    (_process_compound entry fk w).1 = grown w [] [] new_fields
    /\ Forall P new_fields.
Proof.
  unfold _process_compound. rewrite run_lift_bind.
  destruct (py_iter entry) as [todo | e]; [ | no_field].
  apply compound_loop_created.
Qed.

Lemma entries_created (field_name : string) (fk : Metadatablock.t)
    (entries : list value) (w : World) :
  exists new_compounds new_fields,
    (process_entries field_name fk entries w).1 =
      grown w [] new_compounds new_fields
    /\ Forall P new_fields.
Proof.
  revert w. induction entries as [ | entry rest IH]; intros w; [no_row | ].
  rewrite entries_cons. cbn zeta.
  set (compound := instantiate (uuid4 (uuid_drawn w)) _).
  destruct (process_compound_created entry compound
              (grown w [] [compound] []))
    as (fields1 & Heq1 & Hall1).
  destruct (_process_compound entry compound (grown w [] [compound] []))
    as [w1 [[] | e]]; simpl in Heq1; subst w1.
  - rewrite grown_grown. cbn [app].
    destruct (IH (grown w [] [compound] fields1))
      as (compounds2 & fields2 & Heq2 & Hall2).
    exists (compound :: compounds2), (fields1 ++ fields2)%list.
    rewrite Heq2, grown_grown. cbn [app].
    split; [reflexivity | apply Forall_app; split; assumption].
  - exists [compound], fields1. rewrite grown_grown. cbn [app].
    split; [reflexivity | exact Hall1].
Qed.

Lemma metadatablock_loop_created (block : value) (fk : Metadatablock.t)
    (todo : list value) (w : World) :
  exists new_compounds new_fields,
    (process_metadatablock_loop block fk todo w).1 =
      grown w [] new_compounds new_fields
    /\ Forall P new_fields.
Proof.
  revert w. induction todo as [ | x rest IH]; intros w; [no_row | ].
  cbn [process_metadatablock_loop]. rewrite run_lift_bind.
  destruct (unpack_pair x) as [[field_name v] | e]; [ | no_row].
  rewrite run_lift_bind.
  destruct (as_name field_name) as [n | e]; [ | no_row].
  destruct (startswith_underscore n); [apply IH | ].
  destruct (is_None v); [apply IH | ].
  destruct (eq_empty_list v); [apply IH | ].
  rewrite run_lift_bind.
  destruct (get_model_fields block) as [mf | e]; [ | no_row].
  rewrite run_lift_bind.
  destruct (getitem mf n) as [info | e]; [ | no_row].
  destruct (negb (is_compound info)).
  - rewrite run_lift_bind.
    destruct (_process_primitive n v info None) as [attrs | e]; [ | no_row].
    rewrite run_bind, create_field.
    match goal with
    | |- context [process_metadatablock_loop _ _ _ (grown w [] [] [?row])] =>
        destruct (IH (grown w [] [] [row]))
          as (compounds2 & fields2 & Heq2 & Hall2);
        exists compounds2, (row :: fields2)
    end.
    rewrite Heq2, grown_grown. split; [reflexivity | ].
    constructor; [apply instantiated | exact Hall2].
  - rewrite run_bind.
    destruct (entries_created n fk (as_entries v) w)
      as (compounds1 & fields1 & Heq1 & Hall1).
    destruct (process_entries n fk (as_entries v) w) as [w1 [[] | e]];
      simpl in Heq1; subst w1.
    + destruct (IH (grown w [] compounds1 fields1))
        as (compounds2 & fields2 & Heq2 & Hall2).
      exists (compounds1 ++ compounds2)%list, (fields1 ++ fields2)%list.
      rewrite Heq2, grown_grown. split; [reflexivity | ].
      apply Forall_app; split; assumption.
    + exists compounds1, fields1. split; [reflexivity | exact Hall1].
Qed.

Lemma fetch_blocks_created (review : Review.t)
    (blocks : list (string * value)) (w : World) :
  exists new_blocks new_compounds new_fields,
    (fetch_blocks review blocks w).1 =
      grown w new_blocks new_compounds new_fields
    /\ Forall P new_fields.
Proof.
  revert w. induction blocks as [ | [block_name block] blocks IH]; intros w.
  - exists [], [], []. rewrite grown_nil. split; [reflexivity | constructor].
  - rewrite fetch_blocks_cons.
    destruct (_is_empty block) as [[ | ] | e].
    + apply IH.
    + cbn zeta. set (row := instantiate (uuid4 (uuid_drawn w)) _).
      assert (Hblock : exists new_compounds new_fields,
                (_process_metadatablock block row (grown w [row] [] [])).1 =
                  grown (grown w [row] [] []) [] new_compounds new_fields
                /\ Forall P new_fields).
      { unfold _process_metadatablock. rewrite run_lift_bind.
        destruct (py_iter block) as [todo | e]; [ | no_row].
        apply metadatablock_loop_created. }
      destruct Hblock as (compounds1 & fields1 & Heq1 & Hall1).
      destruct (_process_metadatablock block row (grown w [row] [] []))
        as [w1 [[] | e]]; simpl in Heq1; subst w1.
      * rewrite grown_grown. cbn [app].
        destruct (IH (grown w [row] compounds1 fields1))
          as (blocks2 & compounds2 & fields2 & Heq2 & Hall2).
        exists (row :: blocks2), (compounds1 ++ compounds2)%list,
          (fields1 ++ fields2)%list.
        rewrite Heq2, grown_grown. cbn [app].
        split; [reflexivity | apply Forall_app; split; assumption].
      * exists [row], compounds1, fields1. rewrite grown_grown. cbn [app].
        split; [reflexivity | exact Hall1].
    + exists [], [], []. rewrite grown_nil.
      split; [reflexivity | constructor].
Qed.

Lemma fetch_dataset_created (request : Request) (w : World) :
  exists new_reviews new_blocks new_compounds new_fields,
    (fetch_dataset request w).1 =
      stored w new_reviews new_blocks new_compounds new_fields
    /\ Forall P new_fields.
Proof.
  destruct (fetch_dataset_paths request w)
    as [(r & Hrun & _)
       | (site_url & doi & client & dataset & _ & _ & _ & _ & _ & Hrun)].
  - exists [], [], [], []. rewrite Hrun, stored_nil.
    split; [reflexivity | constructor].
  - cbn zeta in Hrun. set (review := new_review_row w site_url doi) in *.
    set (w1 := {| db := save review (db w); uuid_drawn := S (uuid_drawn w);
                  http_log := http_log w |}) in *.
    destruct (fetch_blocks_created review (dataset_metadatablocks dataset) w1)
      as (new_blocks & new_compounds & new_fields & Heq & Hall).
    exists [review], new_blocks, new_compounds, new_fields.
    split; [ | exact Hall]. rewrite Hrun.
    destruct (fetch_blocks review (dataset_metadatablocks dataset) w1)
      as [w2 [[] | e]]; cbn [fst] in *; subst w2; apply stored_review.
Qed.

End CreatedFields.

(** X20.  Every Field row an ingestion stores is undecided (its accepted
    flag is NULL) and of type primitive, so that an ingestion, whatever
    its outcome, leaves the number of accepted Field rows in the store
    as it was. *)
Theorem fetch_dataset_new_fields_undecided `{Environment} (request : Request)
    (w : World) :
  exists new_reviews new_blocks new_compounds new_fields,
    (fetch_dataset request w).1 =
      stored w new_reviews new_blocks new_compounds new_fields
    /\ Forall (fun f => Field.accepted f = None
                        /\ Field.field_type f = "primitive") new_fields
    /\ accepted_count (fields (db (fetch_dataset request w).1))
       = accepted_count (fields (db w)).
Proof.
  destruct (fetch_dataset_created
              (fun f => Field.accepted f = None
                        /\ Field.field_type f = "primitive")
              (fun pk kw => conj eq_refl eq_refl) request w)
    as (new_reviews & new_blocks & new_compounds & new_fields & Heq & Hall).
  exists new_reviews, new_blocks, new_compounds, new_fields.
  split; [exact Heq | ]. split; [exact Hall | ].
  rewrite Heq. cbn [stored db fields]. unfold accepted_count.
  rewrite List.filter_app, length_app.
  replace (List.filter (fun f => is_True (Field.accepted f)) new_fields)
    with (@nil Field.t); [cbn; lia | ].
  clear Heq. induction Hall as [ | f fs [Hf _] _ IH]; [reflexivity | ].
  cbn [List.filter]. rewrite Hf. exact IH.
Qed.

(** X21.  A schema field is to be extracted exactly when it is declared
    multiple or no Field row of the review has its name; so a field that
    is to be extracted stays so when rows are taken away, and a field
    declared multiple is extracted whatever the review holds. *)
Theorem to_extract_characterisation (field : FieldDict)
    (fields : list Field.t) :
  (_to_extract field fields = true <->
     fd_multiple field = true
     \/ forall f, f ∈ fields -> Field.name f <> fd_name field)
  /\ (forall more, _to_extract field (fields ++ more)%list = true ->
                   _to_extract field fields = true).
Proof.
  assert (Hin : forall l, _in_review (fd_name field) l = false <->
                          forall f, f ∈ l -> Field.name f <> fd_name field).
  { intros l. unfold _in_review. split.
    - intros Hnone f Hf Heq.
      assert (Hsome : existsb (fun x => String.eqb (Field.name x)
                                          (fd_name field)) l = true).
      { apply existsb_exists. exists f.
        split; [apply list_elem_of_In, Hf | apply String.eqb_eq, Heq]. }
      rewrite Hnone in Hsome. discriminate.
    - intros Hnone. apply not_true_is_false. intros Hsome.
      apply existsb_exists in Hsome as (f & Hf & Heq).
      apply String.eqb_eq in Heq. apply list_elem_of_In in Hf.
      exact (Hnone f Hf Heq). }
  assert (Hiff : forall l, _to_extract field l = true <->
                   fd_multiple field = true
                   \/ forall f, f ∈ l -> Field.name f <> fd_name field).
  { intros l. unfold _to_extract. destruct (fd_multiple field).
    - split; [left; reflexivity | reflexivity].
    - rewrite negb_true_iff, Hin. split; [right; assumption | ].
      intros [Hmultiple | Hnone]; [discriminate | exact Hnone]. }
  split; [apply Hiff | ]. intros more Hmore.
  apply Hiff. apply Hiff in Hmore as [Hmultiple | Hnone];
    [left; exact Hmultiple | right].
  intros f Hf. apply Hnone, elem_of_app. left. exact Hf.
Qed.
